(** * data_bot: the cleaning engine, the inference client and the
      conversation context manager, embedded and checked against their
      specification.

    The definitions follow the Python sources function by function:
    - [B64]      : the binary64 arithmetic behind the logged estimates;
    - [Ollama]   : [ollama_handler.py], [is_ollama_running] and [query_ollama],
                   as a state monad over the flag [USE_API], the model host
                   and the trace of what the client did;
    - [Cleaner]  : [data_cleaner.py], the deterministic pass of
                   [clean_and_summarize] and its advisory narrative;
    - [Db]       : [src/handlers/db_handler.py], the chat history queries;
    - [Chat]     : [src/handlers/chat_handler.py], [_prepare_context];
    - [Scenarios]: scripted hosts, sample tables and histories.
    The properties come after them, in [OllamaFacts], [CleanerFacts],
    [DbFacts] and [ChatFacts].

    A Python string is a [string] here, one [ascii] for each character, and
    [len] is [String.length]. *)

From Stdlib Require Import List ZArith QArith Qround Bool Arith Lia Lqa.
From Stdlib Require Import String Ascii SpecFloat Sorted Permutation OrderedTypeEx.
From Equations Require Import Equations.
Import ListNotations.

Local Close Scope Q_scope.
Local Open Scope nat_scope.
Local Open Scope string_scope.
Local Open Scope list_scope.

(** ** Generic list helpers shared by the modules *)

(** Boolean-mask selection, [xs[mask]] of pandas: keeps the positions whose
    mask bit is set.  Positions beyond the shorter list are dropped. *)
Fixpoint select {A : Type} (mask : list bool) (xs : list A) : list A :=
  match mask, xs with
  | b :: mask', x :: xs' => if b then x :: select mask' xs' else select mask' xs'
  | _, _ => []
  end.

Definition count_true (bs : list bool) : nat :=
  List.length (filter (fun b => b) bs).

(** The line feed, written "\n" in the sources. *)
Definition LF : ascii := ascii_of_nat 10.
Definition newline : string := String LF EmptyString.

(** ** Binary64 arithmetic of the logged estimate

    Python floats and numpy's float64 are IEEE binary64; the operations below
    are the Standard Library's specification of them at [prec = 53],
    [emax = 1024]. *)
Module B64.

Definition prec : Z := 53.
Definition emax : Z := 1024.

Definition of_Z (n : Z) : spec_float := binary_normalize prec emax n 0%Z false.
Definition add : spec_float -> spec_float -> spec_float := SFadd prec emax.
Definition mul : spec_float -> spec_float -> spec_float := SFmul prec emax.
Definition div : spec_float -> spec_float -> spec_float := SFdiv prec emax.

Definition is_nan (x : spec_float) : bool :=
  match x with S754_nan => true | _ => false end.

(** [x <= y] and [x == y] on floats; both are false when one side is NaN,
    and the two zeros are equal. *)
Definition leb : spec_float -> spec_float -> bool := SFleb.
Definition eqb : spec_float -> spec_float -> bool := SFeqb.

(** [int(x)] of Python on a float: truncation toward zero.  Python raises on
    NaN and on the infinities; the cleaning pass never reaches [int] with
    one of them (the value is a ratio in [0, 1] scaled by row counts), and
    the model returns 0 there. *)
Definition to_int (x : spec_float) : Z :=
  match x with
  | S754_finite s m e =>
      let mag := match e with
                 | Zneg p => Z.shiftr (Zpos m) (Zpos p)
                 | _ => Z.shiftl (Zpos m) e
                 end in
      if s then Z.opp mag else mag
  | _ => 0%Z
  end.

End B64.

(** ** The inference client ([ollama_handler.py]) *)
Module Ollama.

(** Every failure of the module is raised as a plain [Exception(message)]. *)
Inductive exn := Exception (message : string).

Definition str (e : exn) : string := let 'Exception m := e in m.

(** A call either returns or raises. *)
Inductive result (A : Type) :=
| Return (a : A)
| Raise (e : exn).
Arguments Return {A} a.
Arguments Raise {A} e.

(** What the client does to the outside, in order.  [Attempt] marks the
    entry of the body of the retry loop (the [try:] of line 168) with the
    value of [retry_count]; it is a ghost of the trace, not an action. *)
Inductive event :=
| ApiVersion (ok : bool)
| CliList (ok : bool)
| Attempt (retry_count : Z)
| ApiGenerate (prompt model : string) (r : result string)
| CliRun (prompt model : string) (r : result string)
| Sleep (seconds : Z).

(** The model host behind the two transports.  [api_version] is the GET on
    [/api/version] (true iff it answers with status 200), [cli_list] is
    [ollama list] (true iff it exits with code 0); [query_ollama_api] and
    [query_ollama_cli] are the two transport functions, whose outcome is
    whatever the host makes it; [sleep] is [time.sleep]. *)
Class Host (World : Type) := {
  api_version : World -> bool * World;
  cli_list : World -> bool * World;
  query_ollama_api : string -> string -> World -> result string * World;
  query_ollama_cli : string -> string -> World -> result string * World;
  sleep : Z -> World -> World
}.

Section Client.
Context {World : Type} {host : Host World}.

(** The module-level flag [USE_API], the host, and the trace so far. *)
Record state := {
  USE_API : bool;
  world : World;
  trace : list event
}.

Definition M (A : Type) : Type := state -> A * state.

Definition ret {A : Type} (a : A) : M A := fun s => (a, s).

Definition bind {A B : Type} (c : M A) (k : A -> M B) : M B :=
  fun s => let (a, s') := c s in k a s'.

Definition get_USE_API : M bool := fun s => (USE_API s, s).

Definition set_USE_API (b : bool) : M unit :=
  fun s => (tt, {| USE_API := b; world := world s; trace := trace s |}).

(** Runs one action of the host and records it. *)
Definition perform {A : Type} (act : World -> A * World) (ev : A -> event) : M A :=
  fun s =>
    let (a, w) := act (world s) in
    (a, {| USE_API := USE_API s; world := w; trace := trace s ++ [ev a] |}).

Definition mark (ev : event) : M unit :=
  fun s => (tt, {| USE_API := USE_API s; world := world s; trace := trace s ++ [ev] |}).

End Client.

Arguments state World : clear implicits.
Arguments M World A : clear implicits.

Declare Scope client_scope.
Delimit Scope client_scope with client.
Notation "x <- c ;; k" := (bind c (fun x => k))
  (at level 61, c at next level, right associativity) : client_scope.
Notation "c ;;; k" := (bind c (fun _ => k))
  (at level 61, right associativity) : client_scope.
Local Open Scope client_scope.

Section Query.
Context {World : Type} {host : Host World}.

(** [is_ollama_running]: the API probe first, then the CLI probe; the
    one that answers sets [USE_API]. *)
Definition is_ollama_running : M World bool :=
  api_ok <- perform api_version ApiVersion ;;
  if api_ok then
    set_USE_API true ;;; ret true
  else
    cli_ok <- perform cli_list CliList ;;
    if cli_ok then
      set_USE_API false ;;; ret true
    else ret false.

Definition call_api (prompt model : string) : M World (result string) :=
  perform (query_ollama_api prompt model) (ApiGenerate prompt model).

Definition call_cli (prompt model : string) : M World (result string) :=
  perform (query_ollama_cli prompt model) (CliRun prompt model).

(** Lines 158-161: [prompt[:3997] + "..."] when [len(prompt) > 4000]. *)
Definition truncate_prompt (prompt : string) : string :=
  if (4000 <? String.length prompt)%nat
  then (substring 0 3997 prompt ++ "...")%string
  else prompt.

(** The body of the outer [try] (lines 169-182).  On the API path the
    handler stores the API error in [last_error], clears [USE_API] and
    returns what the CLI returns; if the CLI raises, the outer handler
    overwrites [last_error] with the CLI error, so the stored API error
    is never observed. *)
Definition attempt (prompt model : string) : M World (result string) :=
  use_api <- get_USE_API ;;
  if use_api then
    r <- call_api prompt model ;;
    match r with
    | Return response => ret (Return response)
    | Raise api_error =>
        set_USE_API false ;;;
        call_cli prompt model
    end
  else call_cli prompt model.

(** Lines 194-201, after the loop. *)
Definition after_loop (last_error : option exn) : result string :=
  match last_error with
  | Some e => Raise e
  | None => Raise (Exception "Failed to query Ollama after multiple attempts")
  end.

Definition backoff (wait_time : Z) : M World unit :=
  perform (fun w => (tt, sleep wait_time w)) (fun _ => Sleep wait_time).

(** The [while retry_count <= max_retries] loop (lines 167-192), from
    the state [s].  Each iteration that fails increments [retry_count],
    so [max_retries + 1 - retry_count] decreases. *)
Equations? retry_loop (prompt model : string) (max_retries retry_count : Z)
    (last_error : option exn) (s : state World)
    : result string * state World
    by wf (Z.to_nat (max_retries + 1 - retry_count)) lt :=
  retry_loop prompt model max_retries retry_count last_error s
    with Z_le_gt_dec retry_count max_retries := {
    | right _ => (after_loop last_error, s)
    | left _ with (mark (Attempt retry_count) ;;; attempt prompt model) s := {
      | (Return response, s1) => (Return response, s1)
      | (Raise e, s1) with Z_le_gt_dec (retry_count + 1) max_retries := {
        | left _ =>
            retry_loop prompt model max_retries (retry_count + 1) (Some e)
                       (snd (backoff ((retry_count + 1) * 2) s1))
        | right _ => (after_loop (Some e), s1) } } }.
Proof. lia. Qed.

Definition not_running : exn :=
  Exception "Ollama is not running or installed. Please start Ollama service.".

(** [query_ollama(prompt, model, max_retries)] *)
Definition query_ollama (prompt model : string) (max_retries : Z)
    : M World (result string) :=
  running <- is_ollama_running ;;
  if negb running then ret (Raise not_running)
  else
    let prompt := truncate_prompt prompt in
    retry_loop prompt model max_retries 0%Z None.

End Query.

(** *** The vocabulary of runs and traces

    What the statements about the client are written in: the states a run
    goes through, the runs of one attempt and of the loop as relations, and
    the events a run adds to the trace. *)

Section Runs.
Context {World : Type} {host : Host World}.

(** The state after one more recorded action. *)
Definition record (s : state World) (flag : bool) (w : World) (evs : list event)
    : state World :=
  {| USE_API := flag; world := w; trace := trace s ++ evs |}.

(** The three ways one attempt can go. *)
Inductive attempt_run (prompt model : string) (s : state World)
    : result string -> state World -> Prop :=
| run_cli_directly : forall r w,
    USE_API s = false ->
    query_ollama_cli prompt model (world s) = (r, w) ->
    attempt_run prompt model s r (record s false w [CliRun prompt model r])
| run_api : forall response w,
    USE_API s = true ->
    query_ollama_api prompt model (world s) = (Return response, w) ->
    attempt_run prompt model s (Return response)
      (record s true w [ApiGenerate prompt model (Return response)])
| run_fallback : forall api_error w1 r w2,
    USE_API s = true ->
    query_ollama_api prompt model (world s) = (Raise api_error, w1) ->
    query_ollama_cli prompt model w1 = (r, w2) ->
    attempt_run prompt model s r
      (record s false w2
         [ApiGenerate prompt model (Raise api_error); CliRun prompt model r]).

(** The state when the body of the loop is entered, and after a backoff. *)
Definition entered (s : state World) (retry_count : Z) : state World :=
  record s (USE_API s) (world s) [Attempt retry_count].

Definition slept (s : state World) (retry_count : Z) : state World :=
  record s (USE_API s) (sleep (retry_count * 2) (world s)) [Sleep (retry_count * 2)].

(** The runs of the retry loop, as a relation between the state at the loop
    test and the result. *)
Inductive loop_run (prompt model : string) (max_retries : Z)
    : Z -> option exn -> state World -> result string -> state World -> Prop :=
| loop_exit : forall retry_count last_error s,
    (retry_count > max_retries)%Z ->
    loop_run prompt model max_retries retry_count last_error s (after_loop last_error) s
| loop_return : forall retry_count last_error s response s1,
    (retry_count <= max_retries)%Z ->
    attempt_run prompt model (entered s retry_count) (Return response) s1 ->
    loop_run prompt model max_retries retry_count last_error s (Return response) s1
| loop_break : forall retry_count last_error s e s1,
    (retry_count <= max_retries)%Z ->
    attempt_run prompt model (entered s retry_count) (Raise e) s1 ->
    (retry_count + 1 > max_retries)%Z ->
    loop_run prompt model max_retries retry_count last_error s (Raise e) s1
| loop_retry : forall retry_count last_error s e s1 r s',
    (retry_count <= max_retries)%Z ->
    attempt_run prompt model (entered s retry_count) (Raise e) s1 ->
    (retry_count + 1 <= max_retries)%Z ->
    loop_run prompt model max_retries (retry_count + 1) (Some e)
             (slept s1 (retry_count + 1)) r s' ->
    loop_run prompt model max_retries retry_count last_error s r s'.

(** The events recorded between two states of one run. *)
Definition events_since (s s' : state World) : list event :=
  skipn (List.length (trace s)) (trace s').

Definition is_attempt (ev : event) : bool :=
  match ev with Attempt _ => true | _ => false end.

Definition attempts (evs : list event) : nat :=
  List.length (filter is_attempt evs).

(** A transport call, if [ev] is one, was given this prompt and model. *)
Definition forwards (prompt model : string) (ev : event) : Prop :=
  match ev with
  | ApiGenerate p m _ | CliRun p m _ => p = prompt /\ m = model
  | _ => True
  end.

Definition not_api (ev : event) : Prop :=
  match ev with ApiGenerate _ _ _ => False | _ => True end.

(** The facts about one attempt that the loop invariants need. *)
Record attempt_facts (prompt model : string) (s : state World)
    (r : result string) (s1 : state World) (evs : list event) : Prop := {
  af_trace : trace s1 = trace s ++ evs;
  af_forwards : Forall (forwards prompt model) evs;
  af_attempts : attempts evs = 0;
  af_cli_only : USE_API s = false -> USE_API s1 = false /\ Forall not_api evs;
  af_raise : forall e, r = Raise e ->
             USE_API s1 = false /\
             exists evs', evs = evs' ++ [CliRun prompt model (Raise e)]
}.

(** The invariants of the retry loop, by induction on its runs. *)
Record loop_facts (prompt model : string) (max_retries retry_count : Z)
    (s : state World) (r : result string) (s' : state World)
    (evs : list event) : Prop := {
  lf_trace : trace s' = trace s ++ evs;
  lf_forwards : Forall (forwards prompt model) evs;
  lf_attempts : (Z.of_nat (attempts evs) <= Z.max 0 (max_retries + 1 - retry_count))%Z;
  lf_cli_only : USE_API s = false -> USE_API s' = false /\ Forall not_api evs;
  lf_raise : forall e, (retry_count <= max_retries)%Z -> r = Raise e ->
             Z.of_nat (attempts evs) = (max_retries + 1 - retry_count)%Z /\
             exists evs', evs = evs' ++ [CliRun prompt model (Raise e)]
}.

End Runs.

(** *** More to read off a trace *)

(** The waits of a run, in order. *)
Fixpoint sleeps (evs : list event) : list Z :=
  match evs with
  | [] => []
  | Sleep seconds :: evs' => seconds :: sleeps evs'
  | _ :: evs' => sleeps evs'
  end.

(** A transport call, if [ev] is one, raised: no transport returned in a
    run all of whose events are such. *)
Definition failed (ev : event) : Prop :=
  match ev with
  | ApiGenerate _ _ (Return _) | CliRun _ _ (Return _) => False
  | _ => True
  end.


Definition is_api_call (ev : event) : bool :=
  match ev with ApiGenerate _ _ _ => true | _ => false end.

Definition is_cli_call (ev : event) : bool :=
  match ev with CliRun _ _ _ => true | _ => false end.

Definition api_calls (evs : list event) : nat :=
  List.length (filter is_api_call evs).

Definition cli_calls (evs : list event) : nat :=
  List.length (filter is_cli_call evs).

(** *** The two transport functions over raw input and output

    [query_ollama_api] and [query_ollama_cli] wrap one HTTP request and one
    subprocess; what the request and the subprocess do is the outcome the
    operating system hands back. *)

(** [len(msg) > 500]: [msg[:497] + "..."] (lines 82-83 and 118-119). *)
Definition truncate_error (msg : string) : string :=
  if (500 <? String.length msg)%nat
  then (substring 0 497 msg ++ "...")%string
  else msg.

(** [requests.post(...)], [raise_for_status()] and [response.json()]: the
    decoded object with its field ['response'] if it has one, or a
    [RequestException] with its text. *)
Inductive post_outcome :=
| PostJson (response_field : option string)
| PostRequestException (text : string).

(** The body of [query_ollama_api] on the outcome of the request. *)
Definition api_result (outcome : post_outcome) : result string :=
  match outcome with
  | PostJson (Some response) => Return response
  | PostJson None => Return "No response from model."
  | PostRequestException text =>
      Raise (Exception ("Ollama API Error: " ++ truncate_error text)%string)
  end.

(** [Popen] and [communicate(input=prompt, timeout=60)]: the two captured
    streams, or the exception raised. *)
Inductive communicate_outcome :=
| Communicated (response error : string)
| TimeoutExpired
| FileNotFound
| OtherException (text : string).

(** [str.isspace] on the characters of the model. *)
Definition is_space (c : ascii) : bool :=
  let n := nat_of_ascii c in
  (((9 <=? n) && (n <=? 13)) || ((28 <=? n) && (n <=? 32))
   || (n =? 133) || (n =? 160))%nat.

Fixpoint lstrip (s : string) : string :=
  match s with
  | String c s' => if is_space c then lstrip s' else s
  | EmptyString => EmptyString
  end.

(** [rstrip]: a character goes when it is a space and nothing but spaces
    follows. *)
Fixpoint rstrip (s : string) : string :=
  match s with
  | EmptyString => EmptyString
  | String c s' =>
      match rstrip s' with
      | EmptyString => if is_space c then EmptyString else String c EmptyString
      | rest => String c rest
      end
  end.

(** [s.strip()] *)
Definition strip (s : string) : string := rstrip (lstrip s).

(** [pat in s] *)
Fixpoint contains (pat s : string) : bool :=
  String.prefix pat s
  || match s with
     | EmptyString => false
     | String _ s' => contains pat s'
     end.

(** The last handler of [query_ollama_cli] (lines 131-135), on the text of
    the exception it catches. *)
Definition reraise_unexpected (text : string) : result string :=
  if contains "Ollama Error" text
  then Raise (Exception text)
  else Raise (Exception ("Unexpected error: " ++ text)%string).

(** The body of [query_ollama_cli] on the outcome of the subprocess.  The
    exception raised for a non-blank stderr is raised inside the [try], so
    the last handler catches it. *)
Definition cli_result (outcome : communicate_outcome) : result string :=
  match outcome with
  | Communicated response error =>
      if negb (String.eqb error EmptyString)
         && negb (String.eqb (strip error) EmptyString)
      then reraise_unexpected ("Ollama CLI Error: " ++ truncate_error error)%string
      else Return (strip response)
  | TimeoutExpired =>
      Raise (Exception
               "Ollama request timed out. The operation took too long to complete.")
  | FileNotFound =>
      Raise (Exception "Ollama is not installed or not in PATH. Please install Ollama.")
  | OtherException text => reraise_unexpected text
  end.

(** The operating system under the two transports. *)
Class RawHost (World : Type) := {
  get_version : World -> bool * World;
  run_list : World -> bool * World;
  post_generate : string -> string -> World -> post_outcome * World;
  popen_communicate : string -> string -> World -> communicate_outcome * World;
  time_sleep : Z -> World -> World
}.

(** A raw host is a host of the client, through the two transport bodies. *)
Definition host_of_raw {World : Type} (raw : RawHost World) : Host World := {|
  api_version := get_version;
  cli_list := run_list;
  query_ollama_api := fun prompt model w =>
    let (outcome, w') := post_generate prompt model w in (api_result outcome, w');
  query_ollama_cli := fun prompt model w =>
    let (outcome, w') := popen_communicate prompt model w in (cli_result outcome, w');
  sleep := time_sleep
|}.

End Ollama.

(** ** The cleaning engine ([data_cleaner.py]) *)
Module Cleaner.

(** A pandas column as [read_csv] produces it and as the pass leaves it.

    - [IntCol]: dtype int64, which has no null: a column of integers with
      a missing value loads as float64.
    - [NumCol]: dtype float64.  A cell is a binary64 float, infinities
      included, and NaN is the null.
    - [BoolCol]: dtype bool, which has no null.
    - [ObjCol]: dtype object holding strings; [None] is the null.
    - [ObjBoolCol]: dtype object holding True and False beside nulls, which
      is how a column of booleans with a missing value loads. *)
Inductive column :=
| IntCol (cells : list Z)
| NumCol (cells : list spec_float)
| BoolCol (cells : list bool)
| ObjCol (cells : list (option string))
| ObjBoolCol (cells : list (option bool)).

(** A DataFrame: its columns in order, each with its name.  [read_csv]
    makes the names unique, so the loop [for column in df.columns] with
    [df[column]] visits the columns by position. *)
Definition table := list (string * column).

(** [pd.api.types.is_numeric_dtype]: true of int64, float64 and bool. *)
Definition is_numeric_dtype (c : column) : bool :=
  match c with
  | IntCol _ | NumCol _ | BoolCol _ => true
  | ObjCol _ | ObjBoolCol _ => false
  end.

Definition is_none {A : Type} (o : option A) : bool :=
  match o with None => true | Some _ => false end.

(** [df[column].isnull()] *)
Definition isnull (c : column) : list bool :=
  match c with
  | IntCol cells => map (fun _ => false) cells
  | NumCol cells => map B64.is_nan cells
  | BoolCol cells => map (fun _ => false) cells
  | ObjCol cells => map is_none cells
  | ObjBoolCol cells => map is_none cells
  end.

Definition col_length (c : column) : nat := List.length (isnull c).

Definition null_count (c : column) : nat := count_true (isnull c).

(** [df.shape[0]]: every column of a DataFrame has the length of the
    index; the model reads it off the first column. *)
Definition shape0 (df : table) : nat :=
  match df with
  | [] => 0
  | (_, c) :: _ => col_length c
  end.

Definition shape1 (df : table) : nat := List.length df.

(** *** Duplicate rows *)

Inductive cell :=
| Null
| Int (z : Z)
| Num (x : spec_float)
| Str (s : string)
| Bln (b : bool).

Definition cell_eqb (a b : cell) : bool :=
  match a, b with
  | Null, Null => true
  | Int z, Int t => Z.eqb z t
  | Num x, Num y => B64.eqb x y
  | Str s, Str u => String.eqb s u
  | Bln b, Bln d => Bool.eqb b d
  | _, _ => false
  end.

Fixpoint row_eqb (r1 r2 : list cell) : bool :=
  match r1, r2 with
  | [], [] => true
  | a :: r1', b :: r2' => cell_eqb a b && row_eqb r1' r2'
  | _, _ => false
  end.

Definition col_cells (c : column) : list cell :=
  match c with
  | IntCol cells => map Int cells
  | NumCol cells => map (fun x => if B64.is_nan x then Null else Num x) cells
  | BoolCol cells => map Bln cells
  | ObjCol cells => map (fun o => match o with Some s => Str s | None => Null end) cells
  | ObjBoolCol cells =>
      map (fun o => match o with Some b => Bln b | None => Null end) cells
  end.

Definition row_at (df : table) (i : nat) : list cell :=
  map (fun nc => nth i (col_cells (snd nc)) Null) df.

Definition rows (df : table) : list (list cell) :=
  map (row_at df) (seq 0 (shape0 df)).

(** [df.duplicated()]: a row is flagged when an equal row occurs earlier
    (keep = 'first'); nulls compare equal to nulls. *)
Fixpoint duplicated_from (seen rest : list (list cell)) : list bool :=
  match rest with
  | [] => []
  | r :: rest' => existsb (row_eqb r) seen :: duplicated_from (r :: seen) rest'
  end.

Definition duplicated (df : table) : list bool := duplicated_from [] (rows df).

Definition select_col (mask : list bool) (c : column) : column :=
  match c with
  | IntCol cells => IntCol (select mask cells)
  | NumCol cells => NumCol (select mask cells)
  | BoolCol cells => BoolCol (select mask cells)
  | ObjCol cells => ObjCol (select mask cells)
  | ObjBoolCol cells => ObjBoolCol (select mask cells)
  end.

(** Row selection [df[mask]]: the same mask on every column. *)
Definition select_rows (mask : list bool) (df : table) : table :=
  map (fun nc => (fst nc, select_col mask (snd nc))) df.

Definition drop_duplicates (df : table) : table :=
  select_rows (map negb (duplicated df)) df.

(** *** Missing values *)

(** [df[column].isnull().mean()], the exact ratio; the mean of an empty
    column is NaN in pandas and every comparison with it is false, which
    is what [Qdiv] by zero (= 0) gives for the two guards below. *)
Definition isnull_mean (c : column) : Q :=
  ((Z.of_nat (null_count c) # 1) / (Z.of_nat (col_length c) # 1))%Q.

(** [missing_pct = df[column].isnull().mean() * 100].  The guards
    [missing_pct > 0] and [missing_pct < 10] are taken on the exact value:
    the binary64 value lies on the same side of 0 and of 10 for every
    column within the row ceiling the loader enforces (1,000,000). *)
Definition missing_pct (c : column) : Q := (isnull_mean c * 100)%Q.

Definition Qltb (x y : Q) : bool := negb (Qle_bool y x).

(** The same quantity as the binary64 number the program holds. *)
Definition missing_pct_f64 (c : column) : spec_float :=
  B64.mul (B64.div (B64.of_Z (Z.of_nat (null_count c)))
                   (B64.of_Z (Z.of_nat (col_length c))))
          (B64.of_Z 100%Z).

(** [int(missing_pct * original_rows / 100)] *)
Definition estimated_count (c : column) (original_rows : nat) : Z :=
  B64.to_int
    (B64.div (B64.mul (missing_pct_f64 c) (B64.of_Z (Z.of_nat original_rows)))
             (B64.of_Z 100%Z)).

(** [df.dropna(subset=[column])] for the column [c] *)
Definition dropna (c : column) (df : table) : table :=
  select_rows (map negb (isnull c)) df.

(** Insertion sort of the values that are not NaN, for the median. *)
Fixpoint insert_sorted (x : spec_float) (l : list spec_float) : list spec_float :=
  match l with
  | [] => [x]
  | y :: l' => if B64.leb x y then x :: l else y :: insert_sorted x l'
  end.

Definition sort_values (l : list spec_float) : list spec_float :=
  fold_right insert_sorted [] l.

(** The values of a float column that are not NaN. *)
Definition notna (cells : list spec_float) : list spec_float :=
  filter (fun x => negb (B64.is_nan x)) cells.

(** The mean of the two middle values, as numpy takes it: their sum
    divided by 2, in binary64.  It is NaN for -inf and inf. *)
Definition mean2 (a b : spec_float) : spec_float :=
  B64.div (B64.add a b) (B64.of_Z 2).

(** [Series.median()]: NaN cells are skipped; the result is NaN for a column
    without a value, and wherever [mean2] is. *)
Definition median (cells : list spec_float) : spec_float :=
  let vs := sort_values (notna cells) in
  let n := List.length vs in
  match n with
  | O => S754_nan
  | S _ =>
      if Nat.odd n then nth (n / 2)%nat vs S754_nan
      else mean2 (nth (n / 2 - 1)%nat vs S754_nan) (nth (n / 2)%nat vs S754_nan)
  end.

Fixpoint dropna_values {A : Type} (cells : list (option A)) : list A :=
  match cells with
  | [] => []
  | Some v :: cells' => v :: dropna_values cells'
  | None :: cells' => dropna_values cells'
  end.

Definition count_of (v : string) (vs : list string) : nat :=
  List.length (filter (String.eqb v) vs).

(** One step of the scan for the mode: [v] replaces the best value so far
    when it is more frequent, or as frequent and smaller. *)
Definition mode_step (vs : list string) (best : option string) (v : string)
    : option string :=
  match best with
  | None => Some v
  | Some b =>
      if (count_of b vs <? count_of v vs)%nat
         || ((count_of b vs =? count_of v vs)%nat && String.ltb v b)
      then Some v else Some b
  end.

(** [Series.mode()[0]]: the most frequent non-null value; pandas returns
    the modes sorted, so the smallest of the tied values comes first. *)
Definition mode (cells : list (option string)) : option string :=
  let vs := dropna_values cells in
  fold_left (mode_step vs) vs None.

(** The same on an object column of booleans: False sorts before True. *)
Definition mode_bool (cells : list (option bool)) : option bool :=
  let vs := dropna_values cells in
  match vs with
  | [] => None
  | _ :: _ => Some (List.length vs - count_true vs <? count_true vs)%nat
  end.

(** [str(b)], as the log line interpolates a boolean mode. *)
Definition str_bool (b : bool) : string := if b then "True" else "False".

(** [Series.fillna(value)] on an object column. *)
Definition fillna {A : Type} (value : A) (cells : list (option A)) : list (option A) :=
  map (fun o => match o with Some v => Some v | None => Some value end) cells.

(** [Series.fillna(value)] on a float column; filling with NaN changes
    nothing. *)
Definition fillna_float (value : spec_float) (cells : list spec_float)
    : list spec_float :=
  map (fun x => if B64.is_nan x then value else x) cells.

(** [Series.fillna(value)] on an object column of booleans.  Before pandas
    3.0, [fillna] on an object column infers the dtype of the result again:
    the filled column holds booleans only and comes out with dtype bool. *)
Definition fillna_bool (value : bool) (cells : list (option bool)) : list bool :=
  map (fun o => match o with Some b => b | None => value end) cells.

(** [df[column] = new], at position [i] *)
Fixpoint set_column (i : nat) (new : column) (df : table) : table :=
  match df, i with
  | [], _ => []
  | (name, _) :: df', 0 => (name, new) :: df'
  | nc :: df', S i' => nc :: set_column i' new df'
  end.

(** The entries of [cleaning_steps]; each constructor is one of the four
    message formats, with the values interpolated into it. *)
Inductive CleaningStep :=
| RemovedDuplicates (duplicate_count : nat)
| DroppedRows (rows_dropped : nat) (column : string)
| FilledMedian (estimate : Z) (column : string) (median_value : spec_float)
| FilledMode (estimate : Z) (column : string) (mode_value : string).

Definition Unknown : string := "Unknown".

(** The body of [for column in df.columns], for the column at position
    [i]. *)
Definition process_column (original_rows : nat) (i : nat)
    (st : table * list CleaningStep) : table * list CleaningStep :=
  let '(df, cleaning_steps) := st in
  match nth_error df i with
  | None => st
  | Some (name, c) =>
      if Qltb 0%Q (missing_pct c) then
        if Qltb (missing_pct c) 10%Q then
          let rows_before := shape0 df in
          let df' := dropna c df in
          let rows_dropped := rows_before - shape0 df' in
          if (0 <? rows_dropped)%nat
          then (df', cleaning_steps ++ [DroppedRows rows_dropped name])
          else (df', cleaning_steps)
        else
          match c with
          | NumCol cells =>
              let median_value := median cells in
              (set_column i (NumCol (fillna_float median_value cells)) df,
               cleaning_steps
                 ++ [FilledMedian (estimated_count c original_rows) name median_value])
          | IntCol _ | BoolCol _ =>
              (* not reached: an int64 or bool column has no null, so its
                 [missing_pct] is 0 and the outer test fails *)
              st
          | ObjCol cells =>
              let mode_value :=
                match mode cells with Some v => v | None => Unknown end in
              (set_column i (ObjCol (fillna mode_value cells)) df,
               cleaning_steps
                 ++ [FilledMode (estimated_count c original_rows) name mode_value])
          | ObjBoolCol cells =>
              match mode_bool cells with
              | Some mode_value =>
                  (set_column i (BoolCol (fillna_bool mode_value cells)) df,
                   cleaning_steps
                     ++ [FilledMode (estimated_count c original_rows) name
                           (str_bool mode_value)])
              | None =>
                  (* no value at all: every cell is null and gets "Unknown" *)
                  (set_column i (ObjCol (map (fun _ => Some Unknown) cells)) df,
                   cleaning_steps
                     ++ [FilledMode (estimated_count c original_rows) name Unknown])
              end
          end
      else st
  end.

(** "Remove duplicates", lines 146-151. *)
Definition remove_duplicates (df : table) : table * list CleaningStep :=
  let duplicate_count := count_true (duplicated df) in
  if (0 <? duplicate_count)%nat
  then (drop_duplicates df, [RemovedDuplicates duplicate_count])
  else (df, []).

(** The table and the step log once the first [k] columns are processed. *)
Definition state_before (df : table) (k : nat) : table * list CleaningStep :=
  fold_left (fun st i => process_column (shape0 df) i st)
            (seq 0 k) (remove_duplicates df).

(** The deterministic pass of [clean_and_summarize], lines 139-177. *)
Definition clean (df : table) : table * list CleaningStep :=
  let original_rows := shape0 df in
  let st := remove_duplicates df in
  fold_left (fun st i => process_column original_rows i st)
            (seq 0 (shape1 (fst st))) st.


(** *** Advisory narrative and the whole call *)

Section Advisory.
Context {World : Type} {host : Ollama.Host World}.

(** The prompt of lines 113-127: the shape, the dtypes and
    [df.head(5).to_string()].  Its layout is pandas' own rendering, so the
    rendering is a parameter of the model. *)
Variable advisory_prompt : table -> string.

(** What [full_summary] interpolates, with the table that is saved. *)
Record summary := {
  ollama_response : string;
  cleaning_performed : list CleaningStep;
  original_shape : nat * nat;
  cleaned_shape : nat * nat;
  cleaned : table
}.

(** Line 136, the narrative of the [except] branch. *)
Definition fallback_response (e : Ollama.exn) : string :=
  ("Could not get AI suggestions: " ++ Ollama.str e ++ newline
     ++ "Performing basic cleaning only.")%string.

(** [clean_and_summarize] from the loaded DataFrame on (lines 108-204);
    reading the file and writing the result are outside the model. *)
Definition clean_and_summarize (df : table) : Ollama.M World summary :=
  Ollama.bind (Ollama.query_ollama (advisory_prompt df) "deepseek-r1:1.5b" 2%Z)
    (fun r =>
       let ollama_response :=
         match r with
         | Ollama.Return response => response
         | Ollama.Raise e => fallback_response e
         end in
       let original_rows := shape0 df in
       let original_cols := shape1 df in
       let '(df', cleaning_steps) := clean df in
       Ollama.ret {| ollama_response := ollama_response;
                     cleaning_performed := cleaning_steps;
                     original_shape := (original_rows, original_cols);
                     cleaned_shape := (shape0 df', shape1 df');
                     cleaned := df' |}).

End Advisory.

(** *** Loading and the guards before the pass (lines 24-77) *)

(** The exception classes the loading code raises or tells apart;
    [PlainException] is [Exception] itself, [OtherError] any other subclass
    of it. *)
Inductive exc_class :=
| FileNotFoundError | ValueError | EmptyDataError | ParserError
| PlainException | OtherError.

Record py_exc := { cls : exc_class; msg : string }.

(** What [pd.read_csv(file_path, encoding=encoding)] does for one
    encoding. *)
Inductive read_outcome := Parsed (df : table) | Failed (e : py_exc).

Definition encodings : list string := ["utf-8"; "latin1"; "cp1252"].

(** The loop of lines 42-51: the first encoding that parses wins; every
    exception of [read_csv] is caught and kept as [last_error]. *)
Fixpoint try_encodings (read_csv : string -> read_outcome) (encs : list string)
    (last_error : option py_exc) : option table * option py_exc :=
  match encs with
  | [] => (None, last_error)
  | encoding :: encs' =>
      match read_csv encoding with
      | Parsed df => (Some df, last_error)
      | Failed e => try_encodings read_csv encs' (Some e)
      end
  end.

(** [df.empty]: an axis of length 0. *)
Definition empty (df : table) : bool := (shape0 df =? 0)%nat || (shape1 df =? 0)%nat.

Definition MAX_ROWS : Z := 1000000.
Definition MAX_COLS : Z := 100.
Definition MAX_BYTES : Z := 100 * (1024 * 1024).

Section Loading.

(** The renderings of the numbers interpolated into the messages:
    [f"{file_size_mb:.1f}"] of the size in bytes, and [str] of a count. *)
Variable format_mb : Z -> string.
Variable format_count : nat -> string.

Definition too_large (df : table) : string :=
  ("Dataset too large: " ++ format_count (shape0 df) ++ " rows × "
   ++ format_count (shape1 df)
   ++ " columns. Maximum is 1,000,000 rows and 100 columns.")%string.

(** The body of the [try] of lines 36-66. *)
Definition read_and_check (read_csv : string -> read_outcome) : table + py_exc :=
  match try_encodings read_csv encodings None with
  | (None, last_error) =>
      inr {| cls := PlainException;
             msg := ("Failed to read CSV with any encoding: "
                     ++ match last_error with Some e => msg e | None => "None" end)%string |}
  | (Some df, _) =>
      if empty df then inr {| cls := ValueError; msg := "The CSV file is empty." |}
      else if ((MAX_ROWS <? Z.of_nat (shape0 df)) || (MAX_COLS <? Z.of_nat (shape1 df)))%Z
      then inr {| cls := ValueError; msg := too_large df |}
      else inl df
  end.

(** The three handlers of lines 68-77, tried in this order. *)
Definition handle_read_error (e : py_exc) : py_exc :=
  match cls e with
  | EmptyDataError => {| cls := ValueError; msg := "The CSV file is empty." |}
  | ParserError =>
      {| cls := ValueError;
         msg := "Unable to parse the CSV file. Please check the file format." |}
  | _ => {| cls := PlainException; msg := ("Error reading CSV file: " ++ msg e)%string |}
  end.

(** Lines 24-77: the table the pass works on, or the exception raised.
    The size test is [getsize / (1024 * 1024) > 100], exact on the byte
    count. *)
Definition load (file_path : string) (file_exists : bool) (size_bytes : Z)
    (read_csv : string -> read_outcome) : table + py_exc :=
  if negb file_exists
  then inr {| cls := FileNotFoundError; msg := ("File not found: " ++ file_path)%string |}
  else if (MAX_BYTES <? size_bytes)%Z
  then inr {| cls := ValueError;
              msg := ("File is too large (" ++ format_mb size_bytes
                      ++ " MB). Maximum size for processing is 100 MB.")%string |}
  else match read_and_check read_csv with
       | inl df => inl df
       | inr e => inr (handle_read_error e)
       end.

End Loading.

(** *** The vocabulary of the statements about the pass *)

(** The outcomes of the loop body on the column [c] found at position [i]
    of [df]: the table it leaves and the steps it appends. *)
Inductive column_action (original_rows : nat) (i : nat) (name : string)
    (c : column) (df : table) : table -> list CleaningStep -> Prop :=
| action_none :
    null_count c = 0 ->
    column_action original_rows i name c df df []
| action_drop :
    (0 < isnull_mean c)%Q -> (isnull_mean c < 1 # 10)%Q ->
    column_action original_rows i name c df (dropna c df)
      (if (0 <? shape0 df - shape0 (dropna c df))%nat
       then [DroppedRows (shape0 df - shape0 (dropna c df)) name] else [])
| action_fill_median : forall cells,
    c = NumCol cells -> (1 # 10 <= isnull_mean c)%Q ->
    column_action original_rows i name c df
      (set_column i (NumCol (fillna_float (median cells) cells)) df)
      [FilledMedian (estimated_count c original_rows) name (median cells)]
| action_fill_mode : forall cells,
    c = ObjCol cells -> (1 # 10 <= isnull_mean c)%Q ->
    column_action original_rows i name c df
      (set_column i
         (ObjCol (fillna (match mode cells with Some v => v | None => Unknown end)
                         cells)) df)
      [FilledMode (estimated_count c original_rows) name
         (match mode cells with Some v => v | None => Unknown end)]
| action_fill_mode_bool : forall cells mode_value,
    c = ObjBoolCol cells -> (1 # 10 <= isnull_mean c)%Q ->
    mode_bool cells = Some mode_value ->
    column_action original_rows i name c df
      (set_column i (BoolCol (fillna_bool mode_value cells)) df)
      [FilledMode (estimated_count c original_rows) name (str_bool mode_value)]
| action_fill_unknown : forall cells,
    c = ObjBoolCol cells -> (1 # 10 <= isnull_mean c)%Q ->
    mode_bool cells = None ->
    column_action original_rows i name c df
      (set_column i (ObjCol (map (fun _ => Some Unknown) cells)) df)
      [FilledMode (estimated_count c original_rows) name Unknown].

Definition step_estimate (step : CleaningStep) : option Z :=
  match step with
  | FilledMedian estimate _ _ | FilledMode estimate _ _ => Some estimate
  | _ => None
  end.

Definition step_column (step : CleaningStep) : option string :=
  match step with
  | DroppedRows _ column | FilledMedian _ column _ | FilledMode _ column _ =>
      Some column
  | RemovedDuplicates _ => None
  end.

Definition literal_fallback : string :=
  "AI analysis not available — performing basic cleaning only".

(** [df.columns] *)
Definition columns (df : table) : list string := map fst df.

(** What the pass may do to the dtype of a column: keep it, or turn an
    object column of booleans into a bool column (when a boolean fills its
    nulls) or into an object column of strings (when "Unknown" does). *)
Inductive dtype_kept : column -> column -> Prop :=
| kept_int : forall a b, dtype_kept (IntCol a) (IntCol b)
| kept_float : forall a b, dtype_kept (NumCol a) (NumCol b)
| kept_bool : forall a b, dtype_kept (BoolCol a) (BoolCol b)
| kept_object : forall a b, dtype_kept (ObjCol a) (ObjCol b)
| kept_object_bool : forall a b, dtype_kept (ObjBoolCol a) (ObjBoolCol b)
| downcast_to_bool : forall a b, dtype_kept (ObjBoolCol a) (BoolCol b)
| object_to_strings : forall a b, dtype_kept (ObjBoolCol a) (ObjCol b).

Definition dtypes_kept (df df' : table) : Prop :=
  Forall2 (fun nc nc' => dtype_kept (snd nc) (snd nc')) df df'.

(** What a DataFrame guarantees: every column has the length of the index. *)
Definition well_formed (df : table) : Prop :=
  Forall (fun nc => col_length (snd nc) = shape0 df) df.

(** The rows a logged step reports as removed. *)
Definition rows_removed (step : CleaningStep) : nat :=
  match step with
  | RemovedDuplicates duplicate_count => duplicate_count
  | DroppedRows rows_dropped _ => rows_dropped
  | FilledMedian _ _ _ | FilledMode _ _ _ => 0
  end.

Definition total_removed (steps : list CleaningStep) : nat :=
  list_sum (map rows_removed steps).

(** The cells of [b] are those of [a] with some of its nulls filled in. *)
Definition filled_from (a b : list cell) : Prop :=
  Forall2 (fun x y => x = y \/ x = Null) a b.

Definition column_filled_from (a b : column) : Prop :=
  filled_from (col_cells a) (col_cells b).

(** The same columns under the same names, some of their nulls filled in. *)
Definition table_filled_from (a b : table) : Prop :=
  Forall2 (fun nc nc' => fst nc = fst nc' /\ column_filled_from (snd nc) (snd nc')) a b.

(** *** What a filled column is filled with *)

(** [m] is what [Series.median()] gives for the floats [cells]: with the
    values that are not NaN in ascending order, the middle one, or the mean
    of the two middle ones when their number is even; NaN when there is
    none. *)
Definition is_median (m : spec_float) (cells : list spec_float) : Prop :=
  exists vs,
    Permutation vs (notna cells) /\
    Sorted (fun a b => B64.leb a b = true) vs /\
    match vs with
    | [] => m = S754_nan
    | _ :: _ =>
        if Nat.odd (List.length vs)
        then m = nth (List.length vs / 2) vs S754_nan
        else m = mean2 (nth (List.length vs / 2 - 1) vs S754_nan)
                       (nth (List.length vs / 2) vs S754_nan)
    end.

Definition count_bool (b : bool) (vs : list bool) : nat :=
  List.length (filter (Bool.eqb b) vs).

Definition cell_is_null (x : cell) : bool :=
  match x with Null => true | _ => false end.

(** Every null of [cells] replaced by [v]. *)
Definition replace_nulls (v : cell) (cells : list cell) : list cell :=
  map (fun x => if cell_is_null x then v else x) cells.

(** The cell the pass puts in the place of the nulls of a column: the
    median of a float column, which leaves the nulls when it is NaN; the
    most frequent value of an object column, the smallest of those that tie;
    "Unknown" when the object column has no value. *)
Inductive fill_value : column -> cell -> Prop :=
| fill_median : forall cells m,
    is_median m cells ->
    fill_value (NumCol cells) (if B64.is_nan m then Null else Num m)
| fill_mode : forall cells s,
    In (Some s) cells ->
    (forall u, count_of u (dropna_values cells) <= count_of s (dropna_values cells)) ->
    (forall u, In (Some u) cells ->
               count_of u (dropna_values cells) = count_of s (dropna_values cells) ->
               u = s \/ String.ltb s u = true) ->
    fill_value (ObjCol cells) (Str s)
| fill_unknown : forall cells,
    Forall (fun o => o = None) cells ->
    fill_value (ObjCol cells) (Str Unknown)
| fill_mode_bool : forall cells b,
    In (Some b) cells ->
    count_bool (negb b) (dropna_values cells) <= count_bool b (dropna_values cells) ->
    (count_bool (negb b) (dropna_values cells) = count_bool b (dropna_values cells) ->
     b = false) ->
    fill_value (ObjBoolCol cells) (Bln b)
| fill_unknown_bool : forall cells,
    Forall (fun o => o = None) cells ->
    fill_value (ObjBoolCol cells) (Str Unknown).

(** A column the pass is done with: it holds no null, or it is a float
    column and the log has a median step for it whose value is NaN. *)
Definition done_with (steps : list CleaningStep) (nc : string * column) : Prop :=
  null_count (snd nc) = 0 \/
  exists cells estimate,
    snd nc = NumCol cells /\ In (FilledMedian estimate (fst nc) S754_nan) steps.

(** The mask that selects with [m2] among the positions [m1] selects. *)
Fixpoint compose_masks (m1 m2 : list bool) : list bool :=
  match m1, m2 with
  | [], _ => []
  | false :: m1', _ => false :: compose_masks m1' m2
  | true :: _, [] => []
  | true :: m1', b :: m2' => b :: compose_masks m1' m2'
  end.

End Cleaner.

(** ** The chat history store ([src/handlers/db_handler.py]) *)
Module Db.

(** A row of the table [chat_history]. *)
Record message := {
  id : Z;
  user_id : Z;
  role : string;
  content : string;
  timestamp : Z
}.

(** The table, its rows in rowid order, which is the order of insertion
    ([id INTEGER PRIMARY KEY AUTOINCREMENT]). *)
Definition chat_history := list message.

Definition next_id (tbl : chat_history) : Z :=
  (fold_left Z.max (map id tbl) 0 + 1)%Z.

(** [add_message]: the INSERT, with [now] the value of CURRENT_TIMESTAMP
    (whole seconds). *)
Definition add_message (now : Z) (uid : Z) (r c : string) (tbl : chat_history)
    : chat_history :=
  tbl ++ [{| id := next_id tbl; user_id := uid; role := r; content := c;
             timestamp := now |}].

(** [ORDER BY timestamp DESC] as SQLite evaluates it for this query: the
    rows are scanned in rowid order and each is placed behind the rows
    whose timestamp is not smaller, so rows with equal timestamps stay in
    rowid order. *)
Fixpoint insert_desc (r : message) (sorted : list message) : list message :=
  match sorted with
  | [] => [r]
  | x :: sorted' =>
      if (timestamp r <=? timestamp x)%Z then x :: insert_desc r sorted'
      else r :: sorted
  end.

Definition order_by_timestamp_desc (rs : list message) : list message :=
  fold_left (fun sorted r => insert_desc r sorted) rs [].

(** [LIMIT ?]: a negative limit is no limit in SQLite. *)
Definition sql_limit {A : Type} (limit : Z) (rs : list A) : list A :=
  if (limit <? 0)%Z then rs else firstn (Z.to_nat limit) rs.

(** The dictionaries of the result: the three selected fields. *)
Record turn := {
  turn_role : string;
  turn_content : string;
  turn_timestamp : Z
}.

Definition to_turn (m : message) : turn :=
  {| turn_role := role m; turn_content := content m; turn_timestamp := timestamp m |}.

Definition MAX_HISTORY_MESSAGES : Z := 20.

(** [get_chat_history]: the SELECT, then [history.reverse()]. *)
Definition get_chat_history (tbl : chat_history) (uid : Z) (limit : Z) : list turn :=
  let messages :=
    sql_limit limit
      (order_by_timestamp_desc (filter (fun m => (user_id m =? uid)%Z) tbl)) in
  rev (map to_turn messages).

Definition header : string := "Previous conversation:".

Definition role_prefix (t : turn) : string :=
  if String.eqb (turn_role t) "user" then "User: " else "Assistant: ".

(** [get_formatted_chat_context] *)
Definition get_formatted_chat_context (tbl : chat_history) (uid : Z) (limit : Z)
    : string :=
  match get_chat_history tbl uid limit with
  | [] => ""
  | history =>
      fold_left
        (fun context msg =>
           (context ++ role_prefix msg ++ turn_content msg ++ newline)%string)
        history (header ++ newline)%string
  end.

(** Stored strictly before, by the clock of the store. *)
Definition earlier (a b : message) : Prop := (timestamp a < timestamp b)%Z.

(** [clear_chat_history]: DELETE FROM chat_history WHERE user_id = ?.  The
    rows that stay keep their order. *)
Definition clear_chat_history (uid : Z) (tbl : chat_history) : chat_history :=
  filter (fun m => negb (user_id m =? uid)%Z) tbl.

(** The rows of one user, in rowid order. *)
Definition own (uid : Z) (tbl : chat_history) : list message :=
  filter (fun m => (user_id m =? uid)%Z) tbl.

End Db.

(** ** The database handler on both tables ([src/handlers/db_handler.py])

    The methods of [DBHandler] on a database that answers; the branches
    taken on an [sqlite3.Error] are outside the model. *)
Module Store.

(** A row of the table [users]; the preferences are the decoded JSON
    object. *)
Record user := {
  user_id : Z;
  chat_mode : Z;
  created_at : Z;
  last_active : Z;
  preferences : list (string * string)
}.

Record database := {
  users : list user;
  chat_history : Db.chat_history
}.

(** [get_user]: SELECT * FROM users WHERE user_id = ?, then [fetchone]. *)
Definition get_user (db : database) (uid : Z) : option user :=
  find (fun u => (user_id u =? uid)%Z) (users db).

(** The UPDATE of [add_or_update_user] on one row: the fields given are
    set, [last_active] always. *)
Definition update_user (now : Z) (mode : option Z)
    (prefs : option (list (string * string))) (u : user) : user :=
  {| user_id := user_id u;
     chat_mode := match mode with Some m => m | None => chat_mode u end;
     created_at := created_at u;
     last_active := now;
     preferences := match prefs with Some p => p | None => preferences u end |}.

(** [add_or_update_user(user_id, chat_mode=None, preferences=None)], with
    [now] the value of CURRENT_TIMESTAMP. *)
Definition add_or_update_user (now : Z) (uid : Z) (mode : option Z)
    (prefs : option (list (string * string))) (db : database) : database :=
  match get_user db uid with
  | Some _ =>
      {| users := map (fun u => if (user_id u =? uid)%Z
                                then update_user now mode prefs u else u)
                      (users db);
         chat_history := chat_history db |}
  | None =>
      {| users := users db
                  ++ [{| user_id := uid;
                         chat_mode := match mode with Some m => m | None => 0%Z end;
                         created_at := now;
                         last_active := now;
                         preferences := match prefs with Some p => p | None => [] end |}];
         chat_history := chat_history db |}
  end.

Definition set_user_chat_mode (now : Z) (uid : Z) (mode : Z) (db : database)
    : database :=
  add_or_update_user now uid (Some mode) None db.

(** [get_user_chat_mode]: the mode stored, or 0 for a user not seen before,
    who is then created. *)
Definition get_user_chat_mode (now : Z) (uid : Z) (db : database) : Z * database :=
  match get_user db uid with
  | Some u => (chat_mode u, db)
  | None => (0%Z, add_or_update_user now uid None None db)
  end.

(** [add_message]: the user is created or touched, then the row is
    inserted. *)
Definition add_message (now : Z) (uid : Z) (r c : string) (db : database)
    : database :=
  let db' := add_or_update_user now uid None None db in
  {| users := users db';
     chat_history := Db.add_message now uid r c (chat_history db') |}.

Definition clear_chat_history (uid : Z) (db : database) : database :=
  {| users := users db;
     chat_history := Db.clear_chat_history uid (chat_history db) |}.

Definition get_chat_history (db : database) (uid : Z) (limit : Z) : list Db.turn :=
  Db.get_chat_history (chat_history db) uid limit.

(** The mode stored for a user, if the user has a row. *)
Definition stored_mode (db : database) (uid : Z) : option Z :=
  option_map chat_mode (get_user db uid).

End Store.

(** ** The conversation context manager ([src/handlers/chat_handler.py]) *)
Module Chat.

Definition MAX_CONTEXT_LENGTH : Z := 15000.

(** [s.split("\\n")]: one more part than there are line feeds. *)
Fixpoint split_lines (s : string) : list string :=
  match s with
  | EmptyString => [EmptyString]
  | String c s' =>
      if Ascii.eqb c LF then EmptyString :: split_lines s'
      else match split_lines s' with
           | part :: parts => String c part :: parts
           | [] => [String c EmptyString]
           end
  end.

(** ["\\n".join(parts)] *)
Fixpoint join_lines (parts : list string) : string :=
  match parts with
  | [] => EmptyString
  | [part] => part
  | part :: parts' => (part ++ newline ++ join_lines parts')%string
  end.

(** The slice [xs[start:]] of Python for an integer [start]: a negative
    start counts from the end and is clipped at the beginning. *)
Definition slice_from {A : Type} (start : Z) (xs : list A) : list A :=
  if (start <? 0)%Z
  then skipn (Z.to_nat (Z.of_nat (List.length xs) + start)) xs
  else skipn (Z.to_nat start) xs.

Definition omitted : string := "...[older messages omitted]...".

(** Lines 217-227 of [_prepare_context], on the context string. *)
Definition trim_context (context : string) : string :=
  if (MAX_CONTEXT_LENGTH <? Z.of_nat (String.length context))%Z then
    let context_parts := split_lines context in
    let system_part := (nth 0 context_parts EmptyString ++ newline)%string in
    let remaining_length := (MAX_CONTEXT_LENGTH - Z.of_nat (String.length system_part))%Z in
    let recent_part := join_lines (slice_from (- remaining_length) context_parts) in
    (system_part ++ omitted ++ newline ++ recent_part)%string
  else context.

(** [_prepare_context(user_id)] against the store [tbl]. *)
Definition _prepare_context (tbl : Db.chat_history) (uid : Z) : string :=
  trim_context (Db.get_formatted_chat_context tbl uid Db.MAX_HISTORY_MESSAGES).

Definition CHAT_MODEL : string := "llama3.2:3b".

Definition DEFAULT_SYSTEM_PROMPT : string :=
  ("You are a helpful assistant that provides clear and concise answers."
   ++ newline ++ "Be friendly, informative, and respectful in your responses."
   ++ newline
   ++ "If you're unsure about something, admit it rather than making up information.")%string.

(** [_generate_prompt(context, message)] *)
Definition _generate_prompt (context message : string) : string :=
  if String.eqb context EmptyString
  then (DEFAULT_SYSTEM_PROMPT ++ newline ++ newline
        ++ "User: " ++ message ++ newline ++ "Assistant:")%string
  else (DEFAULT_SYSTEM_PROMPT ++ newline ++ newline ++ context ++ newline ++ newline
        ++ "User: " ++ message ++ newline ++ "Assistant:")%string.

(** [is_chat_mode(user_id)] *)
Definition is_chat_mode (now : Z) (uid : Z) (db : Store.database)
    : bool * Store.database :=
  let '(mode, db') := Store.get_user_chat_mode now uid db in
  ((mode =? 1)%Z, db').

Definition chat_mode_activated : string :=
  ("🤖 *Chat Mode Activated*" ++ newline ++ newline
   ++ "I'm now your personal assistant. Ask me anything!" ++ newline ++ newline
   ++ "Your chat history will be saved for context." ++ newline
   ++ "To switch back to Data Cleaning mode, use /datamode command.")%string.

Definition data_mode_activated : string :=
  ("📊 *Data Cleaning Mode Activated*" ++ newline ++ newline
   ++ "Send me a CSV file and I'll clean it for you." ++ newline ++ newline
   ++ "To switch back to Chat mode, use /chatmode command.")%string.

(** [switch_to_chat_mode(user_id)]: the reply and the database it leaves. *)
Definition switch_to_chat_mode (now : Z) (uid : Z) (db : Store.database)
    : string * Store.database :=
  (chat_mode_activated, Store.set_user_chat_mode now uid 1 db).

Definition switch_to_data_mode (now : Z) (uid : Z) (db : Store.database)
    : string * Store.database :=
  (data_mode_activated, Store.set_user_chat_mode now uid 0 db).

Definition clear_history (uid : Z) (db : Store.database) : string * Store.database :=
  ("🧹 Your chat history has been cleared.", Store.clear_chat_history uid db).

Definition service_unavailable : string :=
  "⚠️ AI service is currently unavailable. Please try again later.".

Definition processing_error : string :=
  "⚠️ I encountered an error while processing your message. Please try again later.".

Section Conversation.

(** The two functions [chat_handler.py] imports from the Ollama client, on
    the state [S] of the client and its host, and the clock of the
    database. *)
Context {S : Type}.
Variable is_ollama_running : S -> bool * S.
Variable query_ollama : string -> string -> Z -> S -> Ollama.result string * S.
Variable current_timestamp : S -> Z.

(** [process_message(user_id, message_text)]: the reply, the database and
    the client state it leaves.  [query_ollama] is called with its default
    [max_retries] of 2. *)
Definition process_message (uid : Z) (message_text : string)
    (db : Store.database) (s : S) : string * Store.database * S :=
  let '(running, s1) := is_ollama_running s in
  if negb running then (service_unavailable, db, s1)
  else
    let db1 := Store.add_message (current_timestamp s1) uid "user" message_text db in
    let context := _prepare_context (Store.chat_history db1) uid in
    let prompt := _generate_prompt context message_text in
    let '(r, s2) := query_ollama prompt CHAT_MODEL 2%Z s1 in
    match r with
    | Ollama.Return response =>
        (response,
         Store.add_message (current_timestamp s2) uid "assistant" response db1, s2)
    | Ollama.Raise _ => (processing_error, db1, s2)
    end.

End Conversation.

End Chat.

(** ** Sending long messages ([src/core/bot.py], [bot.py]) *)
Module Bot.

Definition max_message_length : nat := 4000.

(** [range(0, stop, step)] for a positive [step] *)
Definition range_step (stop step : nat) : list nat :=
  map (fun k => k * step) (seq 0 ((stop + step - 1) / step)).

(** The slice [text[i : j]] for [0 <= i <= j]; the text is a sequence of
    characters. *)
Definition slice {A : Type} (i j : nat) (text : list A) : list A :=
  firstn (j - i) (skipn i text).

Definition chunks_of {A : Type} (size : nat) (text : list A) : list (list A) :=
  map (fun i => slice i (i + size) text) (range_step (List.length text) size).

(** The [chunks] of [send_long_message], which are sent one by one. *)
Definition chunks {A : Type} (text : list A) : list (list A) :=
  chunks_of max_message_length text.

End Bot.

(** ** Scripted hosts and sample data, for the concrete instances *)
Module Scenarios.
Import Ollama.


(** Both probes answer, every generation fails; the CLI error names the
    call that failed. *)
Definition failing_host : Host nat := {|
  api_version := fun w => (true, w);
  cli_list := fun w => (true, w);
  query_ollama_api := fun _ _ w =>
    (Raise (Exception "Ollama API Error: connection refused"), S w);
  query_ollama_cli := fun _ _ w =>
    (Raise (Exception (if (w <? 4)%nat
                       then "Ollama request timed out. The operation took too long to complete."
                       else "Ollama is not installed or not in PATH. Please install Ollama.")),
     S w);
  sleep := fun _ w => w
|}.

(** Nothing answers: the service is stopped and the executable is missing.
    Each probe still costs a call. *)
Definition stopped_host : Host nat := {|
  api_version := fun w => (false, S w);
  cli_list := fun w => (false, S w);
  query_ollama_api := fun _ _ w => (Return "pong", S w);
  query_ollama_cli := fun _ _ w => (Return "pong", S w);
  sleep := fun _ w => w
|}.

(** Everything answers. *)
Definition healthy_host : Host nat := {|
  api_version := fun w => (true, S w);
  cli_list := fun w => (true, S w);
  query_ollama_api := fun _ _ w => (Return "pong", S w);
  query_ollama_cli := fun _ _ w => (Return "pong from the CLI", S w);
  sleep := fun _ w => w
|}.

Definition start (w : nat) : state nat :=
  {| USE_API := true; world := w; trace := [] |}.

(** The state an earlier call leaves when it fell back to the CLI. *)
Definition after_fallback (w : nat) : state nat :=
  {| USE_API := false; world := w; trace := [] |}.

(** Three rows, the first two equal: [c] is null in both. *)
Definition duplicated_nulls : Cleaner.table :=
  [("c", Cleaner.ObjCol [None; None; Some "a"]);
   ("d", Cleaner.ObjCol [Some "x"; Some "x"; Some "x"])].

(** Two rows that differ only in that [c] is null in the second. *)
Definition half_null : Cleaner.table :=
  [("c", Cleaner.ObjCol [Some "a"; None]);
   ("d", Cleaner.ObjCol [Some "x"; Some "x"])].

(** Three distinct rows, [c] null in one of them. *)
Definition third_null : Cleaner.table :=
  [("c", Cleaner.ObjCol [None; Some "a"; Some "b"]);
   ("d", Cleaner.ObjCol [Some "x"; Some "y"; Some "z"])].

(** Eleven rows: [city] misses one value (9%), and the only [age] known
    sits in the row that misses its city. *)
Definition lone_age : Cleaner.table :=
  [("city", Cleaner.ObjCol
      [None; Some "a"; Some "b"; Some "c"; Some "d"; Some "e";
       Some "f"; Some "g"; Some "h"; Some "i"; Some "j"]);
   ("age", Cleaner.NumCol
      [B64.of_Z 30; S754_nan; S754_nan; S754_nan; S754_nan; S754_nan;
       S754_nan; S754_nan; S754_nan; S754_nan; S754_nan])].

(** Four rows with a numeric and an object column, both a quarter null. *)
Definition quarter_null : Cleaner.table :=
  [("age", Cleaner.NumCol [B64.of_Z 1; S754_nan; B64.of_Z 4; B64.of_Z 2]);
   ("city", Cleaner.ObjCol [Some "x"; Some "y"; None; Some "x"])].

(** Three rows whose [score] is missing throughout: the column loads as
    float64 with nothing but NaN. *)
Definition no_score : Cleaner.table :=
  [("id", Cleaner.IntCol [1; 2; 3]%Z);
   ("score", Cleaner.NumCol [S754_nan; S754_nan; S754_nan])].

(** Three rows whose [x] reads inf, -inf and nothing. *)
Definition infinite_pair : Cleaner.table :=
  [("id", Cleaner.IntCol [1; 2; 3]%Z);
   ("x", Cleaner.NumCol [S754_infinity false; S754_infinity true; S754_nan])].

(** Three rows whose [c] reads b, nothing and a: the two values tie. *)
Definition tied_modes : Cleaner.table :=
  [("c", Cleaner.ObjCol [Some "b"; None; Some "a"]);
   ("d", Cleaner.ObjCol [Some "x"; Some "y"; Some "z"])].

(** Three rows whose [active] reads True, False and nothing: the column
    loads with dtype object. *)
Definition flags : Cleaner.table :=
  [("id", Cleaner.IntCol [1; 2; 3]%Z);
   ("active", Cleaner.ObjBoolCol [Some true; Some false; None])].

(** A user turn and the reply to it, stored within the same second. *)
Definition same_second : Db.chat_history :=
  Db.add_message 100 7 "assistant" "hello" (Db.add_message 100 7 "user" "hi" []).

Fixpoint repeat_char (c : ascii) (n : nat) : string :=
  match n with
  | O => EmptyString
  | S n' => String c (repeat_char c n')
  end.

(** Twenty turns of 1000 characters each, one per second, the user and the
    assistant alternating. *)
Definition long_history : Db.chat_history :=
  fold_left
    (fun tbl k =>
       Db.add_message (Z.of_nat k) 7 (if Nat.odd k then "user" else "assistant")
                      (repeat_char "a" 1000) tbl)
    (seq 1 20) [].

(** Two users writing in turn, one message a second. *)
Definition two_users : Db.chat_history :=
  Db.add_message 103 7 "assistant" "fine, thanks"
    (Db.add_message 102 8 "user" "hey"
       (Db.add_message 101 7 "user" "how are you"
          (Db.add_message 100 7 "user" "hello" []))).

(** The advisory prompt reduced to the two counts of its header. *)
Definition shape_prompt (df : Cleaner.table) : string :=
  if (Cleaner.shape0 df =? 0)%nat then "empty" else "rows".

End Scenarios.

(** * Properties of the inference client *)
Module OllamaFacts.
Import Ollama.
Local Open Scope client_scope.

Section Runs.
Context {World : Type} {host : Host World}.

Lemma attempt_spec prompt model s :
  attempt_run prompt model s (fst (attempt prompt model s)) (snd (attempt prompt model s)).
Proof.
  unfold attempt, bind, get_USE_API, call_api, call_cli, perform, set_USE_API, ret.
  destruct (USE_API s) eqn:Hflag.
  - destruct (query_ollama_api prompt model (world s))
      as [[response | api_error] w1] eqn:Hapi; cbn.
    + rewrite Hflag. now apply run_api.
    + destruct (query_ollama_cli prompt model w1) as [r w2] eqn:Hcli; cbn.
      rewrite <- app_assoc. cbn.
      now apply (run_fallback prompt model s api_error w1 r w2).
  - destruct (query_ollama_cli prompt model (world s)) as [r w] eqn:Hcli; cbn.
    rewrite Hflag. now apply run_cli_directly.
Qed.

Lemma entered_attempt prompt model retry_count s :
  (mark (Attempt retry_count) ;;; attempt prompt model) s
  = attempt prompt model (entered s retry_count).
Proof. reflexivity. Qed.

Lemma slept_backoff retry_count s :
  snd (backoff (retry_count * 2) s) = slept s retry_count.
Proof. reflexivity. Qed.

Lemma attempt_run_of prompt model s r s1 :
  attempt prompt model s = (r, s1) -> attempt_run prompt model s r s1.
Proof.
  intros H. pose proof (attempt_spec prompt model s) as Hrun.
  now rewrite H in Hrun.
Qed.

Lemma retry_loop_spec prompt model max_retries retry_count last_error s :
  loop_run prompt model max_retries retry_count last_error s
    (fst (retry_loop prompt model max_retries retry_count last_error s))
    (snd (retry_loop prompt model max_retries retry_count last_error s)).
Proof.
  funelim (retry_loop prompt model max_retries retry_count last_error s); cbn [fst snd].
  - now apply loop_exit.
  - apply loop_return; [assumption |].
    apply attempt_run_of. now rewrite <- entered_attempt.
  - rewrite slept_backoff in *.
    eapply loop_retry; eauto.
    apply attempt_run_of. now rewrite <- entered_attempt.
  - apply loop_break; [assumption | | assumption].
    apply attempt_run_of. now rewrite <- entered_attempt.
Qed.

(** *** What a run adds to the trace *)

Lemma events_since_app (s s' : state World) evs :
  trace s' = trace s ++ evs -> events_since s s' = evs.
Proof.
  intros H. unfold events_since. rewrite H.
  rewrite skipn_app, skipn_all, Nat.sub_diag. reflexivity.
Qed.

Lemma attempts_app evs1 evs2 :
  attempts (evs1 ++ evs2) = attempts evs1 + attempts evs2.
Proof. unfold attempts. now rewrite filter_app, length_app. Qed.

Lemma attempt_run_facts prompt model s r s1 :
  attempt_run prompt model s r s1 ->
  exists evs, attempt_facts prompt model s r s1 evs.
Proof.
  intros Hrun. destruct Hrun as [r w Hflag Hcli | response w Hflag Hapi
                                | api_error w1 r w2 Hflag Hapi Hcli].
  - exists [CliRun prompt model r]. split; cbn.
    + reflexivity.
    + repeat constructor.
    + reflexivity.
    + intros _. split; [reflexivity | repeat constructor].
    + intros e ->. split; [reflexivity | now exists []].
  - exists [ApiGenerate prompt model (Return response)]. split; cbn.
    + reflexivity.
    + repeat constructor.
    + reflexivity.
    + congruence.
    + discriminate.
  - exists [ApiGenerate prompt model (Raise api_error); CliRun prompt model r].
    split; cbn.
    + reflexivity.
    + repeat constructor.
    + reflexivity.
    + congruence.
    + intros e ->. split; [reflexivity |].
      now exists [ApiGenerate prompt model (Raise api_error)].
Qed.

Lemma loop_run_facts prompt model max_retries retry_count last_error s r s' :
  loop_run prompt model max_retries retry_count last_error s r s' ->
  exists evs, loop_facts prompt model max_retries retry_count s r s' evs.
Proof.
  intros Hrun.
  induction Hrun as
    [ retry_count last_error s Hgt
    | retry_count last_error s response s1 Hle Hatt
    | retry_count last_error s e s1 Hle Hatt Hgt
    | retry_count last_error s e s1 r s' Hle Hatt Hle' Hrun IH ].
  - exists []. split; cbn; auto.
    + now rewrite app_nil_r.
    + lia.
    + intros e Hle. lia.
  - destruct (attempt_run_facts _ _ _ _ _ Hatt) as [evs [Ht Hf Ha Hc Hr]].
    exists (Attempt retry_count :: evs). split.
    + rewrite Ht. cbn. now rewrite <- app_assoc.
    + constructor; [exact I | assumption].
    + change (Attempt retry_count :: evs) with ([Attempt retry_count] ++ evs).
      rewrite attempts_app, Ha. cbn. lia.
    + intros Hflag. destruct (Hc Hflag) as [Hflag' Hna].
      split; [assumption | constructor; [exact I | assumption]].
    + discriminate.
  - destruct (attempt_run_facts _ _ _ _ _ Hatt) as [evs [Ht Hf Ha Hc Hr]].
    exists (Attempt retry_count :: evs). split.
    + rewrite Ht. cbn. now rewrite <- app_assoc.
    + constructor; [exact I | assumption].
    + change (Attempt retry_count :: evs) with ([Attempt retry_count] ++ evs).
      rewrite attempts_app, Ha. cbn. lia.
    + intros Hflag. destruct (Hc Hflag) as [Hflag' Hna].
      split; [assumption | constructor; [exact I | assumption]].
    + intros e0 _ Heq. injection Heq as <-.
      split.
      * change (Attempt retry_count :: evs) with ([Attempt retry_count] ++ evs).
        rewrite attempts_app, Ha. cbn. lia.
      * destruct (Hr e eq_refl) as [_ [evs' ->]].
        now exists (Attempt retry_count :: evs').
  - destruct (attempt_run_facts _ _ _ _ _ Hatt) as [evs [Ht Hf Ha Hc Hr]].
    destruct IH as [evs2 [Ht2 Hf2 Ha2 Hc2 Hr2]].
    destruct (Hr e eq_refl) as [Hflag1 _].
    exists (Attempt retry_count :: evs ++ Sleep ((retry_count + 1) * 2) :: evs2).
    split.
    + rewrite Ht2. cbn. rewrite Ht. cbn.
      rewrite <- !app_assoc. reflexivity.
    + constructor; [exact I |].
      apply Forall_app. split; [assumption |].
      constructor; [exact I | assumption].
    + change (Attempt retry_count :: evs ++ Sleep ((retry_count + 1) * 2) :: evs2)
        with ([Attempt retry_count] ++ evs ++ [Sleep ((retry_count + 1) * 2)] ++ evs2).
      rewrite !attempts_app, Ha. cbn. lia.
    + intros Hflag. destruct (Hc Hflag) as [_ Hna].
      destruct (Hc2 Hflag1) as [Hflag' Hna2].
      split; [assumption |].
      constructor; [exact I |].
      apply Forall_app. split; [assumption |].
      constructor; [exact I | assumption].
    + intros e0 _ ->.
      destruct (Hr2 e0 Hle' eq_refl) as [Hn [evs' ->]].
      split.
      * change (Attempt retry_count :: evs ++ Sleep ((retry_count + 1) * 2)
                  :: evs' ++ [CliRun prompt model (Raise e0)])
          with ([Attempt retry_count] ++ evs ++ [Sleep ((retry_count + 1) * 2)]
                  ++ (evs' ++ [CliRun prompt model (Raise e0)])).
        rewrite attempts_app in Hn.
        rewrite !attempts_app, Ha. cbn in *. lia.
      * exists (Attempt retry_count :: evs ++ Sleep ((retry_count + 1) * 2) :: evs').
        cbn. rewrite <- app_assoc. reflexivity.
Qed.

(** *** The probe and the whole call *)

Lemma is_ollama_running_api s w0 :
  api_version (world s) = (true, w0) ->
  is_ollama_running s = (true, record s true w0 [ApiVersion true]).
Proof.
  intros H. unfold is_ollama_running, bind, perform, set_USE_API, ret.
  rewrite H. reflexivity.
Qed.

Lemma is_ollama_running_cli s w0 w1 :
  api_version (world s) = (false, w0) ->
  cli_list w0 = (true, w1) ->
  is_ollama_running s = (true, record s false w1 [ApiVersion false; CliList true]).
Proof.
  intros H1 H2. unfold is_ollama_running, bind, perform, set_USE_API, ret.
  rewrite H1. cbn. rewrite H2. cbn. unfold record. now rewrite <- app_assoc.
Qed.

Lemma is_ollama_running_none s w0 w1 :
  api_version (world s) = (false, w0) ->
  cli_list w0 = (false, w1) ->
  is_ollama_running s
  = (false, record s (USE_API s) w1 [ApiVersion false; CliList false]).
Proof.
  intros H1 H2. unfold is_ollama_running, bind, perform, set_USE_API, ret.
  rewrite H1. cbn. rewrite H2. cbn. unfold record. now rewrite <- app_assoc.
Qed.

(** The probe records only probe events, and says "running" exactly when it
    leaves the flag on the transport that answered. *)
Lemma is_ollama_running_facts s :
  exists evs,
    trace (snd (is_ollama_running s)) = trace s ++ evs /\
    (forall prompt model, Forall (forwards prompt model) evs) /\
    Forall not_api evs /\
    attempts evs = 0 /\
    (fst (api_version (world s)) = false -> USE_API s = false ->
     USE_API (snd (is_ollama_running s)) = false).
Proof.
  destruct (api_version (world s)) as [[|] w0] eqn:Hapi.
  - rewrite (is_ollama_running_api s w0 Hapi).
    exists [ApiVersion true]. cbn. repeat split; try (repeat constructor).
    discriminate.
  - destruct (cli_list w0) as [[|] w1] eqn:Hcli.
    + rewrite (is_ollama_running_cli s w0 w1 Hapi Hcli).
      exists [ApiVersion false; CliList true]. cbn.
      repeat split; repeat constructor.
    + rewrite (is_ollama_running_none s w0 w1 Hapi Hcli).
      exists [ApiVersion false; CliList false]. cbn.
      repeat split; try (repeat constructor). auto.
Qed.

Lemma query_ollama_unfold prompt model max_retries s :
  query_ollama prompt model max_retries s
  = if fst (is_ollama_running s)
    then retry_loop (truncate_prompt prompt) model max_retries 0 None
                    (snd (is_ollama_running s))
    else (Raise not_running, snd (is_ollama_running s)).
Proof.
  unfold query_ollama, bind.
  destruct (is_ollama_running s) as [[|] s0]; reflexivity.
Qed.

(** The facts of the loop, lifted to the whole call. *)
Lemma query_ollama_facts prompt model max_retries s :
  exists evs0 evs,
    trace (snd (is_ollama_running s)) = trace s ++ evs0 /\
    Forall not_api evs0 /\ attempts evs0 = 0 /\
    (forall p m, Forall (forwards p m) evs0) /\
    events_since s (snd (query_ollama prompt model max_retries s)) = evs0 ++ evs /\
    (fst (is_ollama_running s) = false -> evs = []) /\
    (fst (is_ollama_running s) = true ->
     loop_facts (truncate_prompt prompt) model max_retries 0
       (snd (is_ollama_running s))
       (fst (query_ollama prompt model max_retries s))
       (snd (query_ollama prompt model max_retries s)) evs).
Proof.
  destruct (is_ollama_running_facts s) as [evs0 (Ht0 & Hf0 & Hn0 & Ha0 & _)].
  rewrite query_ollama_unfold.
  destruct (fst (is_ollama_running s)) eqn:Hrunning.
  - destruct (loop_run_facts _ _ _ _ _ _ _ _
                (retry_loop_spec (truncate_prompt prompt) model max_retries 0 None
                                 (snd (is_ollama_running s)))) as [evs Hfacts].
    exists evs0, evs.
    split; [exact Ht0 |]. split; [exact Hn0 |]. split; [exact Ha0 |].
    split; [exact Hf0 |].
    split.
    + apply events_since_app. rewrite (lf_trace _ _ _ _ _ _ _ _ Hfacts), Ht0.
      now rewrite app_assoc.
    + split; [discriminate | intros _; exact Hfacts].
  - exists evs0, []. cbn [snd fst].
    split; [exact Ht0 |]. split; [exact Hn0 |]. split; [exact Ha0 |].
    split; [exact Hf0 |].
    split.
    + apply events_since_app. now rewrite app_nil_r.
    + split; [reflexivity | discriminate].
Qed.

(** *** Lengths of strings *)

Lemma length_append (s1 s2 : string) :
  String.length (s1 ++ s2) = String.length s1 + String.length s2.
Proof. induction s1 as [| c s1 IH]; cbn; [reflexivity | now rewrite IH]. Qed.

Lemma length_substring_prefix (n : nat) (s : string) :
  String.length (substring 0 n s) = Nat.min n (String.length s).
Proof.
  revert s. induction n as [| n IH]; intros [| c s]; cbn; try reflexivity.
  now rewrite IH.
Qed.



(** *** Determined steps of the loop *)


Lemma retry_loop_returns prompt model max_retries retry_count last_error s response s1 :
  (retry_count <= max_retries)%Z ->
  attempt prompt model (entered s retry_count) = (Return response, s1) ->
  retry_loop prompt model max_retries retry_count last_error s = (Return response, s1).
Proof.
  intros Hle Hatt.
  funelim (retry_loop prompt model max_retries retry_count last_error s);
    try lia; rewrite entered_attempt in *; congruence.
Qed.



(** *** Runs in which no transport returns *)

Lemma failed_in evs ev : Forall failed evs -> In ev evs -> failed ev.
Proof. intros Hall. now apply Forall_forall. Qed.

Lemma attempt_run_failed prompt model s r s1 evs :
  attempt_run prompt model s r s1 ->
  trace s1 = trace s ++ evs -> Forall failed evs ->
  exists e, r = Raise e.
Proof.
  intros Hrun Ht Hall. destruct r as [response | e]; [exfalso | now exists e].
  inversion Hrun; subst; cbn [record trace] in Ht; apply app_inv_head in Ht; subst evs.
  - apply (failed_in _ (CliRun prompt model (Return response)) Hall). cbn. tauto.
  - apply (failed_in _ (ApiGenerate prompt model (Return response)) Hall). cbn. tauto.
  - apply (failed_in _ (CliRun prompt model (Return response)) Hall). cbn. tauto.
Qed.

(** The loop raises when no transport call of the run returned. *)
Lemma loop_run_failed prompt model max_retries retry_count last_error s r s' :
  loop_run prompt model max_retries retry_count last_error s r s' ->
  forall evs, trace s' = trace s ++ evs -> Forall failed evs ->
  exists e, r = Raise e.
Proof.
  intros Hrun.
  induction Hrun as
    [ retry_count last_error s Hgt
    | retry_count last_error s response s1 Hle Hatt
    | retry_count last_error s e s1 Hle Hatt Hgt
    | retry_count last_error s e s1 r s' Hle Hatt Hle' Hrun IH ];
    intros evs Ht Hall.
  - unfold after_loop. destruct last_error; eauto.
  - destruct (attempt_run_facts _ _ _ _ _ Hatt) as [evs1 Hf1].
    pose proof (af_trace _ _ _ _ _ _ Hf1) as Ht1. cbn [entered record trace] in Ht1.
    rewrite Ht1, <- app_assoc in Ht. apply app_inv_head in Ht. subst evs.
    apply (attempt_run_failed _ _ _ _ _ evs1 Hatt (af_trace _ _ _ _ _ _ Hf1)).
    now inversion Hall.
  - now exists e.
  - destruct (attempt_run_facts _ _ _ _ _ Hatt) as [evs1 Hf1].
    pose proof (af_trace _ _ _ _ _ _ Hf1) as Ht1. cbn [entered record trace] in Ht1.
    destruct (loop_run_facts _ _ _ _ _ _ _ _ Hrun) as [evs2 Hf2].
    pose proof (lf_trace _ _ _ _ _ _ _ _ Hf2) as Ht2.
    apply (IH evs2 Ht2).
    cbn [slept record trace] in Ht2. rewrite Ht2, Ht1, <- !app_assoc in Ht.
    apply app_inv_head in Ht. subst evs.
    apply Forall_app in Hall. destruct Hall as [_ Hall].
    apply Forall_app in Hall. destruct Hall as [_ Hall].
    apply Forall_app in Hall. now destruct Hall as [_ Hall].
Qed.

(** *** The claims on [query_ollama] *)



(** C7.  With a non-negative [max_retries], a run of [query_ollama] enters
    the loop body at most [max_retries + 1] times.  When the probe passed
    and every attempt failed, that is, no transport call of the run
    returned, the call raises, after exactly [max_retries + 1] attempts, and
    the exception it raises is the one the last transport call of the run
    raised, not the generic one of line 201. *)
Theorem C7_bounded_attempts_reraise_last_error prompt model max_retries s :
  (0 <= max_retries)%Z ->
  let r := fst (query_ollama prompt model max_retries s) in
  let s' := snd (query_ollama prompt model max_retries s) in
  (Z.of_nat (attempts (events_since s s')) <= max_retries + 1)%Z /\
  (fst (is_ollama_running s) = true ->
   Forall failed (events_since s s') ->
   exists e evs,
     r = Raise e /\
     Z.of_nat (attempts (events_since s s')) = (max_retries + 1)%Z /\
     events_since s s' = evs ++ [CliRun (truncate_prompt prompt) model (Raise e)]).
Proof.
  intros Hmax r s'. subst r s'.
  destruct (query_ollama_facts prompt model max_retries s)
    as [evs0 [evs (_ & _ & Ha0 & _ & Hev & Hstop & Hloop)]].
  rewrite Hev, attempts_app, Ha0. cbn [Nat.add].
  split.
  - destruct (fst (is_ollama_running s)).
    + pose proof (lf_attempts _ _ _ _ _ _ _ _ (Hloop eq_refl)). lia.
    + rewrite (Hstop eq_refl). cbn. lia.
  - intros Hrunning Hall. specialize (Hloop Hrunning).
    apply Forall_app in Hall. destruct Hall as [_ Hall].
    pose proof (retry_loop_spec (truncate_prompt prompt) model max_retries 0 None
                  (snd (is_ollama_running s))) as Hrun.
    assert (Hq : query_ollama prompt model max_retries s
                 = retry_loop (truncate_prompt prompt) model max_retries 0 None
                              (snd (is_ollama_running s)))
      by now rewrite query_ollama_unfold, Hrunning.
    rewrite <- Hq in Hrun.
    destruct (loop_run_failed _ _ _ _ _ _ _ _ Hrun evs
                (lf_trace _ _ _ _ _ _ _ _ Hloop) Hall) as [e He].
    destruct (lf_raise _ _ _ _ _ _ _ _ Hloop e Hmax He) as [Hn [evs' ->]].
    exists e, (evs0 ++ evs'). split; [exact He |]. split; [lia |].
    now rewrite app_assoc.
Qed.

End Runs.

(** *** Concrete runs *)



(** C7 on a host where every generation fails, with one retry: two attempts,
    and the error raised is the second CLI error. *)
Lemma C7_witness :
  (0 <= 1)%Z /\
  fst (@is_ollama_running nat Scenarios.failing_host (Scenarios.start 3)) = true /\
  Forall failed
    (events_since (Scenarios.start 3)
       (snd (@query_ollama nat Scenarios.failing_host "ping" "llama3.2:3b" 1
               (Scenarios.start 3)))) /\
  (Z.of_nat (attempts
     (events_since (Scenarios.start 3)
        (snd (@query_ollama nat Scenarios.failing_host "ping" "llama3.2:3b" 1
                (Scenarios.start 3))))) <= 1 + 1)%Z /\
  exists e evs,
    fst (@query_ollama nat Scenarios.failing_host "ping" "llama3.2:3b" 1
           (Scenarios.start 3)) = Raise e /\
    Z.of_nat (attempts
      (events_since (Scenarios.start 3)
         (snd (@query_ollama nat Scenarios.failing_host "ping" "llama3.2:3b" 1
                 (Scenarios.start 3))))) = (1 + 1)%Z /\
    events_since (Scenarios.start 3)
      (snd (@query_ollama nat Scenarios.failing_host "ping" "llama3.2:3b" 1
              (Scenarios.start 3)))
    = evs ++ [CliRun (truncate_prompt "ping") "llama3.2:3b" (Raise e)].
Proof.
  assert (H1 : (0 <= 1)%Z) by lia.
  assert (H2 : fst (@is_ollama_running nat Scenarios.failing_host (Scenarios.start 3))
               = true) by reflexivity.
  assert (H3 : Forall failed
                 (events_since (Scenarios.start 3)
                    (snd (@query_ollama nat Scenarios.failing_host "ping" "llama3.2:3b" 1
                            (Scenarios.start 3)))))
    by (vm_compute; repeat constructor).
  destruct (@C7_bounded_attempts_reraise_last_error nat Scenarios.failing_host
              "ping" "llama3.2:3b" 1 (Scenarios.start 3) H1) as [Hle Hraise].
  split; [exact H1 |]. split; [exact H2 |]. split; [exact H3 |].
  split; [exact Hle |]. exact (Hraise H2 H3).
Defined.

(** The run of [C7_witness], evaluated: the timeout of the first attempt is
    not what the caller sees; the error of the final attempt is. *)
Example failing_host_run :
  fst (@query_ollama nat Scenarios.failing_host "ping" "llama3.2:3b" 1 (Scenarios.start 3))
  = Raise (Exception "Ollama is not installed or not in PATH. Please install Ollama.").
Proof. reflexivity. Qed.

(** With a negative [max_retries] the loop body is never entered and the
    generic exception of line 201 is raised. *)
Example negative_max_retries :
  @query_ollama nat Scenarios.failing_host "ping" "llama3.2:3b" (-1) (Scenarios.start 0)
  = (Raise (Exception "Failed to query Ollama after multiple attempts"),
     {| USE_API := true; world := 0; trace := [ApiVersion true] |}).
Proof. reflexivity. Qed.

(** ** Further properties of [query_ollama] *)

Section Schedule.
Context {World : Type} {host : Host World}.

Lemma sleeps_app evs1 evs2 : sleeps (evs1 ++ evs2) = sleeps evs1 ++ sleeps evs2.
Proof.
  induction evs1 as [| ev evs1 IH]; cbn; [reflexivity |].
  destruct ev; cbn; now rewrite IH.
Qed.

Lemma api_calls_app evs1 evs2 :
  api_calls (evs1 ++ evs2) = api_calls evs1 + api_calls evs2.
Proof. unfold api_calls. now rewrite filter_app, length_app. Qed.

Lemma api_calls_none evs : Forall not_api evs -> api_calls evs = 0.
Proof.
  unfold api_calls. induction 1 as [| ev evs Hev _ IH]; cbn; [reflexivity |].
  destruct ev; cbn in *; tauto.
Qed.

(** The probe records one or two probe events and nothing else. *)
Lemma probe_events (s : state World) :
  exists evs0,
    trace (snd (is_ollama_running s)) = trace s ++ evs0 /\
    sleeps evs0 = [] /\ api_calls evs0 = 0 /\ cli_calls evs0 = 0 /\ attempts evs0 = 0.
Proof.
  destruct (api_version (world s)) as [[|] w0] eqn:Hapi.
  - rewrite (is_ollama_running_api s w0 Hapi). exists [ApiVersion true].
    repeat split.
  - destruct (cli_list w0) as [[|] w1] eqn:Hcli.
    + rewrite (is_ollama_running_cli s w0 w1 Hapi Hcli).
      exists [ApiVersion false; CliList true]. repeat split.
    + rewrite (is_ollama_running_none s w0 w1 Hapi Hcli).
      exists [ApiVersion false; CliList false]. repeat split.
Qed.

(** One attempt: no wait, at most one API call, and none once the flag is
    cleared; an attempt that raises leaves the flag cleared. *)
Lemma attempt_run_calls prompt model (s : state World) r s1 :
  attempt_run prompt model s r s1 ->
  exists evs,
    trace s1 = trace s ++ evs /\
    sleeps evs = [] /\ attempts evs = 0 /\
    api_calls evs <= 1 /\
    (USE_API s = false -> api_calls evs = 0) /\
    (forall e, r = Raise e -> USE_API s1 = false).
Proof.
  intros Hrun. destruct Hrun as [r w Hflag Hcli | response w Hflag Hapi
                                | api_error w1 r w2 Hflag Hapi Hcli].
  - exists [CliRun prompt model r]. cbn. repeat split; auto.
  - exists [ApiGenerate prompt model (Return response)]. cbn.
    repeat split; auto; try congruence; try discriminate.
  - exists [ApiGenerate prompt model (Raise api_error); CliRun prompt model r]. cbn.
    repeat split; auto; try congruence.
Qed.

(** The waits of the loop entered with [retry_count] are 2 (retry_count + 1),
    2 (retry_count + 2), ..., one between each attempt and the next. *)
Lemma loop_run_schedule prompt model max_retries retry_count last_error
    (s : state World) r s' :
  loop_run prompt model max_retries retry_count last_error s r s' ->
  exists evs,
    trace s' = trace s ++ evs /\
    ((retry_count <= max_retries)%Z -> 1 <= attempts evs) /\
    sleeps evs
    = map (fun k => ((retry_count + 1 + Z.of_nat k) * 2)%Z) (seq 0 (attempts evs - 1)) /\
    api_calls evs <= 1 /\
    (USE_API s = false -> api_calls evs = 0).
Proof.
  intros Hrun.
  induction Hrun as
    [ retry_count last_error s Hgt
    | retry_count last_error s response s1 Hle Hatt
    | retry_count last_error s e s1 Hle Hatt Hgt
    | retry_count last_error s e s1 r s' Hle Hatt Hle' Hrun IH ].
  - exists []. cbn. rewrite app_nil_r. repeat split; auto. lia.
  - destruct (attempt_run_calls _ _ _ _ _ Hatt) as [evs (Ht & Hs & Ha & Hc & Hc0 & _)].
    exists (Attempt retry_count :: evs).
    change (Attempt retry_count :: evs) with ([Attempt retry_count] ++ evs).
    rewrite attempts_app, sleeps_app, api_calls_app, Hs, Ha. cbn.
    repeat split; auto.
    rewrite Ht. cbn. now rewrite <- app_assoc.
  - destruct (attempt_run_calls _ _ _ _ _ Hatt) as [evs (Ht & Hs & Ha & Hc & Hc0 & _)].
    exists (Attempt retry_count :: evs).
    change (Attempt retry_count :: evs) with ([Attempt retry_count] ++ evs).
    rewrite attempts_app, sleeps_app, api_calls_app, Hs, Ha. cbn.
    repeat split; auto.
    rewrite Ht. cbn. now rewrite <- app_assoc.
  - destruct (attempt_run_calls _ _ _ _ _ Hatt) as [evs (Ht & Hs & Ha & Hc & Hc0 & Hr)].
    destruct IH as [evs2 (Ht2 & Hn2 & Hs2 & Hc2 & Hc20)].
    specialize (Hn2 Hle'). specialize (Hr e eq_refl).
    exists ([Attempt retry_count] ++ evs ++ [Sleep ((retry_count + 1) * 2)] ++ evs2).
    rewrite !attempts_app, !sleeps_app, !api_calls_app, Hs, Ha, Hs2.
    rewrite (Hc20 Hr). cbn [attempts filter is_attempt List.length sleeps app
                           api_calls is_api_call Nat.add].
    split; [| split; [| split; [| split]]].
    + rewrite Ht2. cbn. rewrite Ht. cbn. rewrite <- !app_assoc. reflexivity.
    + intros _. lia.
    + replace (S (attempts evs2) - 1) with (S (attempts evs2 - 1)) by lia.
      cbn [seq map]. f_equal; [lia |].
      rewrite <- seq_shift, map_map.
      apply map_ext. intros k. lia.
    + lia.
    + intros Hflag. specialize (Hc0 Hflag). lia.
Qed.

(** The events of the loop inside a whole call. *)
Lemma query_ollama_schedule prompt model max_retries (s : state World) :
  let evs := events_since s (snd (query_ollama prompt model max_retries s)) in
  sleeps evs = map (fun k => (2 * (Z.of_nat k + 1))%Z) (seq 0 (attempts evs - 1)) /\
  api_calls evs <= 1.
Proof.
  intros evs. subst evs.
  destruct (probe_events s) as [evs0 (Ht0 & Hs0 & Hc0 & _ & Ha0)].
  rewrite query_ollama_unfold.
  destruct (fst (is_ollama_running s)) eqn:Hrunning; cbn [snd].
  - destruct (loop_run_schedule _ _ _ _ _ _ _ _
                (retry_loop_spec (truncate_prompt prompt) model max_retries 0 None
                                 (snd (is_ollama_running s))))
      as [evs (Ht & _ & Hs & Hc & _)].
    rewrite (events_since_app s _ (evs0 ++ evs))
      by (rewrite Ht, Ht0; now rewrite app_assoc).
    rewrite sleeps_app, attempts_app, api_calls_app, Hs0, Ha0, Hc0, Hs. cbn [app Nat.add].
    split; [| exact Hc].
    apply map_ext. intros k. lia.
  - rewrite (events_since_app s _ evs0) by exact Ht0.
    rewrite Hs0, Ha0, Hc0. cbn. split; [reflexivity | lia].
Qed.

Lemma query_ollama_attempts_bound prompt model max_retries (s : state World) :
  (0 <= max_retries)%Z ->
  (Z.of_nat (attempts (events_since s (snd (query_ollama prompt model max_retries s))))
   <= max_retries + 1)%Z.
Proof.
  intros Hmax.
  destruct (query_ollama_facts prompt model max_retries s)
    as [evs0 [evs (_ & _ & Ha0 & _ & Hev & Hstop & Hloop)]].
  rewrite Hev, attempts_app, Ha0. cbn [Nat.add].
  destruct (fst (is_ollama_running s)).
  - pose proof (lf_attempts _ _ _ _ _ _ _ _ (Hloop eq_refl)). lia.
  - rewrite (Hstop eq_refl). cbn. lia.
Qed.

(** X1.  When neither probe answers, [query_ollama] raises "not running" at
    once, whatever [max_retries] is: no attempt, no transport call, no wait,
    and [USE_API] as it was. *)
Theorem unavailable_fails_without_retry prompt model max_retries (s : state World) w0 w1 :
  api_version (world s) = (false, w0) ->
  cli_list w0 = (false, w1) ->
  query_ollama prompt model max_retries s
  = (Raise not_running,
     {| USE_API := USE_API s; world := w1;
        trace := trace s ++ [ApiVersion false; CliList false] |}).
Proof.
  intros Hapi Hcli.
  rewrite query_ollama_unfold, (is_ollama_running_none s w0 w1 Hapi Hcli).
  reflexivity.
Qed.

(** X2.  The backoff is linear: the waits of a call are 2, 4, 6, ... seconds
    in this order, one between consecutive attempts and none after the last;
    with a non-negative [max_retries] there are at most [max_retries] of
    them. *)
Theorem backoff_is_linear prompt model max_retries (s : state World) :
  let evs := events_since s (snd (query_ollama prompt model max_retries s)) in
  sleeps evs = map (fun k => (2 * (Z.of_nat k + 1))%Z) (seq 0 (attempts evs - 1)) /\
  List.length (sleeps evs) = attempts evs - 1 /\
  ((0 <= max_retries)%Z -> (Z.of_nat (List.length (sleeps evs)) <= max_retries)%Z).
Proof.
  intros evs.
  destruct (query_ollama_schedule prompt model max_retries s) as [Hs _].
  fold evs in Hs. rewrite Hs, length_map, length_seq.
  split; [reflexivity |]. split; [reflexivity |].
  intros Hmax.
  pose proof (query_ollama_attempts_bound prompt model max_retries s Hmax) as Hb.
  fold evs in Hb. lia.
Qed.

(** X3.  The API transport is called at most once in a call of
    [query_ollama]: once it has failed, every later attempt of the call goes
    to the CLI. *)
Theorem api_called_at_most_once prompt model max_retries (s : state World) :
  api_calls (events_since s (snd (query_ollama prompt model max_retries s))) <= 1.
Proof. apply (query_ollama_schedule prompt model max_retries s). Qed.

(** X24.  The switch to the CLI does not outlive the call.  Every call
    probes first, and a probe the API answers sets [USE_API] again: whatever
    the flag was, the call then goes to the API, and when the API answers,
    that is the result, after one attempt and no CLI call. *)
Theorem probe_restores_the_api prompt model max_retries (s : state World)
    w0 response w1 :
  (0 <= max_retries)%Z ->
  api_version (world s) = (true, w0) ->
  query_ollama_api (truncate_prompt prompt) model w0 = (Return response, w1) ->
  query_ollama prompt model max_retries s
  = (Return response,
     {| USE_API := true; world := w1;
        trace := trace s ++ [ApiVersion true; Attempt 0;
                             ApiGenerate (truncate_prompt prompt) model (Return response)] |}).
Proof.
  intros Hmax Hprobe Hapi.
  rewrite query_ollama_unfold, (is_ollama_running_api s w0 Hprobe). cbn [fst snd].
  apply retry_loop_returns; [exact Hmax |].
  unfold attempt, bind, get_USE_API, call_api, perform, ret, entered, record.
  cbn [USE_API world trace fst snd]. rewrite Hapi. cbn [fst snd].
  rewrite <- !app_assoc. reflexivity.
Qed.

End Schedule.

(** X1 on a host where nothing answers: two probes, no generation. *)
Lemma unavailable_witness :
  @api_version nat Scenarios.stopped_host (world (Scenarios.start 0)) = (false, 1) /\
  @cli_list nat Scenarios.stopped_host 1 = (false, 2) /\
  @query_ollama nat Scenarios.stopped_host "ping" "llama3.2:3b" 2 (Scenarios.start 0)
  = (Raise not_running,
     {| USE_API := true; world := 2; trace := [ApiVersion false; CliList false] |}).
Proof.
  assert (H1 : @api_version nat Scenarios.stopped_host (world (Scenarios.start 0))
               = (false, 1)) by reflexivity.
  assert (H2 : @cli_list nat Scenarios.stopped_host 1 = (false, 2)) by reflexivity.
  split; [exact H1 |]. split; [exact H2 |].
  exact (@unavailable_fails_without_retry nat Scenarios.stopped_host
           "ping" "llama3.2:3b" 2 (Scenarios.start 0) 1 2 H1 H2).
Defined.

Lemma probe_restores_witness :
  (0 <= 2)%Z /\
  USE_API (Scenarios.after_fallback 0) = false /\
  @query_ollama nat Scenarios.healthy_host "ping" "llama3.2:3b" 2
    (Scenarios.after_fallback 0)
  = (Return "pong",
     {| USE_API := true; world := 2;
        trace := [ApiVersion true; Attempt 0;
                  ApiGenerate "ping" "llama3.2:3b" (Return "pong")] |}).
Proof.
  assert (H0 : (0 <= 2)%Z) by lia.
  assert (H1 : @api_version nat Scenarios.healthy_host
                 (world (Scenarios.after_fallback 0)) = (true, 1)) by reflexivity.
  assert (H2 : @query_ollama_api nat Scenarios.healthy_host (truncate_prompt "ping")
                 "llama3.2:3b" 1 = (Return "pong", 2)) by reflexivity.
  split; [exact H0 |]. split; [reflexivity |].
  exact (@probe_restores_the_api nat Scenarios.healthy_host "ping" "llama3.2:3b" 2
           (Scenarios.after_fallback 0) 1 "pong" 2 H0 H1 H2).
Defined.

(** ** The transport bodies *)

Lemma truncate_error_length text : String.length (truncate_error text) <= 500.
Proof.
  unfold truncate_error.
  destruct (Nat.ltb_spec 500 (String.length text)) as [Hlong | Hshort]; [| exact Hshort].
  rewrite length_append, length_substring_prefix.
  change (String.length "...") with 3. lia.
Qed.

Lemma rstrip_cons c s :
  rstrip (String c s)
  = match rstrip s with
    | EmptyString => if is_space c then EmptyString else String c EmptyString
    | rest => String c rest
    end.
Proof. reflexivity. Qed.

Lemma rstrip_idempotent s : rstrip (rstrip s) = rstrip s.
Proof.
  induction s as [| c s IH]; [reflexivity |].
  rewrite rstrip_cons. destruct (rstrip s) as [| c' rest] eqn:Hrest.
  - destruct (is_space c) eqn:Hc; [reflexivity |].
    rewrite rstrip_cons. cbn [rstrip]. now rewrite Hc.
  - rewrite rstrip_cons, IH. reflexivity.
Qed.

Lemma lstrip_head s :
  lstrip s = EmptyString \/
  exists c t, lstrip s = String c t /\ is_space c = false.
Proof.
  induction s as [| c s IH]; [now left |].
  cbn [lstrip]. destruct (is_space c) eqn:Hc; [exact IH |].
  right. now exists c, s.
Qed.

Lemma rstrip_keeps_head c t :
  is_space c = false -> exists t', rstrip (String c t) = String c t'.
Proof.
  intros Hc. rewrite rstrip_cons. destruct (rstrip t) as [| c' rest].
  - rewrite Hc. now exists EmptyString.
  - now exists (String c' rest).
Qed.

Lemma lstrip_strip s : lstrip (strip s) = strip s.
Proof.
  unfold strip. destruct (lstrip_head s) as [-> | (c & t & -> & Hc)]; [reflexivity |].
  destruct (rstrip_keeps_head c t Hc) as [t' ->].
  cbn [lstrip]. now rewrite Hc.
Qed.

Lemma contains_after_cli_prefix text :
  contains "Ollama Error" ("Ollama CLI Error: " ++ text) = contains "Ollama Error" text.
Proof. reflexivity. Qed.

Lemma reraise_unexpected_length text e :
  reraise_unexpected text = Raise e ->
  String.length (str e) <= 18 + String.length text.
Proof.
  unfold reraise_unexpected.
  destruct (contains "Ollama Error" text); intros [= <-];
    cbn [str String.length append]; lia.
Qed.

(** X4.  What [query_ollama_cli] returns has no white space at either end:
    it is the standard output of the subprocess, stripped. *)
Theorem cli_response_is_stripped outcome response :
  cli_result outcome = Return response ->
  lstrip response = response /\ rstrip response = response /\
  exists stdout stderr, outcome = Communicated stdout stderr /\ response = strip stdout.
Proof.
  destruct outcome as [stdout stderr | | | text]; cbn [cli_result];
    try discriminate.
  - destruct (negb (String.eqb stderr EmptyString)
              && negb (String.eqb (strip stderr) EmptyString)).
    + unfold reraise_unexpected.
      destruct (contains "Ollama Error" ("Ollama CLI Error: " ++ truncate_error stderr));
        discriminate.
    + intros [= <-]. split; [apply lstrip_strip |].
      split; [unfold strip; apply rstrip_idempotent |].
      now exists stdout, stderr.
  - unfold reraise_unexpected. destruct (contains "Ollama Error" text); discriminate.
Qed.

Lemma cli_response_witness :
  cli_result (Communicated ("  It is 42. " ++ newline) "") = Return "It is 42." /\
  lstrip "It is 42." = "It is 42." /\ rstrip "It is 42." = "It is 42.".
Proof.
  assert (H : cli_result (Communicated ("  It is 42. " ++ newline) "") = Return "It is 42.")
    by reflexivity.
  split; [exact H |].
  destruct (cli_response_is_stripped _ _ H) as (Hl & Hr & _).
  split; [exact Hl | exact Hr].
Defined.

(** X5.  Error texts are cut: the exception [query_ollama_api] raises for a
    failed request has at most 518 characters, and the one
    [query_ollama_cli] raises for what the subprocess wrote to stderr at
    most 536. *)
Theorem transport_errors_are_bounded :
  (forall outcome e, api_result outcome = Raise e -> String.length (str e) <= 518) /\
  (forall stdout stderr e,
      cli_result (Communicated stdout stderr) = Raise e ->
      String.length (str e) <= 536).
Proof.
  split.
  - intros [[response |] | text] e; cbn [api_result]; try discriminate.
    intros [= <-]. cbn [str String.length append].
    pose proof (truncate_error_length text). lia.
  - intros stdout stderr e. cbn [cli_result].
    destruct (negb (String.eqb stderr EmptyString)
              && negb (String.eqb (strip stderr) EmptyString)); [| discriminate].
    intros H. apply reraise_unexpected_length in H.
    cbn [String.length append] in H.
    pose proof (truncate_error_length stderr). lia.
Qed.

(** X6.  A failure the subprocess reports on stderr comes out of
    [query_ollama_cli] as "Unexpected error: Ollama CLI Error: ...": the last
    handler looks for "Ollama Error", which the prefix "Ollama CLI Error"
    does not contain, so the exception is wrapped unless the stderr text
    itself contains "Ollama Error". *)
Theorem cli_stderr_failure_is_wrapped stdout stderr :
  strip stderr <> EmptyString ->
  contains "Ollama Error" (truncate_error stderr) = false ->
  cli_result (Communicated stdout stderr)
  = Raise (Exception ("Unexpected error: Ollama CLI Error: " ++ truncate_error stderr)).
Proof.
  intros Hblank Hplain. cbn [cli_result].
  assert (Hne : String.eqb stderr EmptyString = false).
  { apply String.eqb_neq. intros ->. now apply Hblank. }
  apply String.eqb_neq in Hblank. rewrite Hne, Hblank. cbn [negb andb].
  unfold reraise_unexpected. rewrite contains_after_cli_prefix, Hplain.
  reflexivity.
Qed.

Lemma cli_stderr_failure_witness :
  strip "Error: model not found" <> EmptyString /\
  contains "Ollama Error" (truncate_error "Error: model not found") = false /\
  cli_result (Communicated "" "Error: model not found")
  = Raise (Exception
             ("Unexpected error: Ollama CLI Error: "
              ++ truncate_error "Error: model not found")).
Proof.
  assert (H1 : strip "Error: model not found" <> EmptyString) by discriminate.
  assert (H2 : contains "Ollama Error" (truncate_error "Error: model not found") = false)
    by reflexivity.
  split; [exact H1 |]. split; [exact H2 |].
  exact (cli_stderr_failure_is_wrapped "" "Error: model not found" H1 H2).
Defined.

End OllamaFacts.

(** * Properties of the cleaning engine *)
Module CleanerFacts.
Import Cleaner.

(** ** Masks and null counts *)

Lemma count_true_le (bs : list bool) : count_true bs <= List.length bs.
Proof. unfold count_true. apply filter_length_le. Qed.

Lemma count_true_select_le (mask bs : list bool) :
  count_true (select mask bs) <= count_true bs.
Proof.
  revert bs. induction mask as [| m mask IH]; intros [| b bs]; cbn; try lia.
  specialize (IH bs). unfold count_true in *.
  destruct m, b; cbn; lia.
Qed.

(** Selecting from an all-null column leaves an all-null column. *)
Lemma count_true_select_full (mask bs : list bool) :
  count_true bs = List.length bs ->
  count_true (select mask bs) = List.length (select mask bs).
Proof.
  revert bs. induction mask as [| m mask IH]; intros [| b bs]; cbn; try reflexivity.
  intros H. pose proof (count_true_le bs) as Hle.
  unfold count_true in *. destruct b; cbn in H; [| lia].
  injection H as H. destruct m; cbn; [f_equal |]; now apply IH.
Qed.

(** A column filtered by its own not-null mask has no null left. *)
Lemma count_true_select_notnull (bs : list bool) :
  count_true (select (map negb bs) bs) = 0.
Proof.
  induction bs as [| [|] bs IH]; cbn; auto.
Qed.

Lemma select_map {A B : Type} (f : A -> B) (mask : list bool) (xs : list A) :
  select mask (map f xs) = map f (select mask xs).
Proof.
  revert xs. induction mask as [| m mask IH]; intros [| x xs]; cbn; try reflexivity.
  destruct m; cbn; now rewrite IH.
Qed.

Lemma isnull_select_col mask c :
  isnull (select_col mask c) = select mask (isnull c).
Proof. destruct c; cbn [isnull select_col]; now rewrite select_map. Qed.

Lemma col_cells_select_col mask c :
  col_cells (select_col mask c) = select mask (col_cells c).
Proof. destruct c; cbn [col_cells select_col]; now rewrite select_map. Qed.

Lemma is_numeric_select_col mask c :
  is_numeric_dtype (select_col mask c) = is_numeric_dtype c.
Proof. now destruct c. Qed.

Lemma null_count_fillna {A : Type} (v : A) (cells : list (option A)) :
  count_true (map is_none (fillna v cells)) = 0.
Proof. induction cells as [| [x |] cells IH]; cbn; auto. Qed.

Lemma count_true_all_none {A : Type} (cells : list (option A)) :
  dropna_values cells = [] ->
  count_true (map is_none cells) = List.length (map is_none cells).
Proof.
  induction cells as [| [x |] cells IH]; cbn; intros H;
    [reflexivity | discriminate |].
  unfold count_true in *. cbn. f_equal. now apply IH.
Qed.

Lemma count_true_all_false {A : Type} (cells : list A) :
  count_true (map (fun _ => false) cells) = 0.
Proof. induction cells as [| x cells IH]; cbn; auto. Qed.

(** An int64 column and a bool column have no null. *)
Lemma null_count_int cells : null_count (IntCol cells) = 0.
Proof. apply count_true_all_false. Qed.

Lemma null_count_bool cells : null_count (BoolCol cells) = 0.
Proof. apply count_true_all_false. Qed.

(** Filling a float column with a value that is not NaN leaves no null. *)
Lemma null_count_fillna_float v cells :
  B64.is_nan v = false ->
  count_true (map B64.is_nan (fillna_float v cells)) = 0.
Proof.
  intros Hv. induction cells as [| x cells IH]; cbn; [reflexivity |].
  destruct (B64.is_nan x) eqn:Hx; [rewrite Hv | rewrite Hx]; exact IH.
Qed.

(** Filling with NaN changes nothing. *)
Lemma fillna_float_nan cells : fillna_float S754_nan cells = cells.
Proof.
  unfold fillna_float. induction cells as [| x cells IH]; cbn; [reflexivity |].
  rewrite IH. now destruct x.
Qed.

(** ** The median and the mode *)

Lemma length_insert_sorted x l : List.length (insert_sorted x l) = S (List.length l).
Proof.
  induction l as [| y l IH]; cbn; [reflexivity |].
  destruct (B64.leb x y); cbn; [reflexivity | now rewrite IH].
Qed.

Lemma length_sort_values l : List.length (sort_values l) = List.length l.
Proof.
  unfold sort_values. induction l as [| x l IH]; cbn; [reflexivity |].
  now rewrite length_insert_sorted, IH.
Qed.

Lemma insert_sorted_perm x l : Permutation (insert_sorted x l) (x :: l).
Proof.
  induction l as [| y l IH]; cbn; [reflexivity |].
  destruct (B64.leb x y); [reflexivity |].
  rewrite IH. apply perm_swap.
Qed.

(** [sort_values] rearranges the values and puts them in ascending order, so
    the positions [median] reads are the middle ones. *)
Lemma sort_values_perm l : Permutation (sort_values l) l.
Proof.
  unfold sort_values. induction l as [| x l IH]; cbn; [reflexivity |].
  rewrite insert_sorted_perm. now constructor.
Qed.

(** Comparing the other way round gives the opposite answer. *)
Lemma SFcompare_antisym x y :
  SFcompare y x = option_map CompOpp (SFcompare x y).
Proof.
  destruct x as [sx | sx | | sx mx ex], y as [sy | sy | | sy my ey];
    try reflexivity; cbn;
    try (destruct sx; reflexivity); try (destruct sy; reflexivity);
    try (destruct sx, sy; reflexivity).
  destruct sx, sy; try reflexivity;
    rewrite (Z.compare_antisym ex ey);
    destruct (ex ?= ey)%Z; cbn; try reflexivity;
    rewrite (Pos.compare_cont_antisym mx my Eq); cbn;
    now destruct (Pos.compare_cont Eq mx my).
Qed.

(** Two floats that are not NaN compare one way or the other. *)
Lemma leb_total x y :
  B64.is_nan x = false -> B64.is_nan y = false ->
  B64.leb x y = false -> B64.leb y x = true.
Proof.
  unfold B64.leb, SFleb. rewrite (SFcompare_antisym x y).
  destruct x, y; cbn; try discriminate;
    repeat match goal with |- context [if ?b then _ else _] => destruct b end;
    cbn; try discriminate; try reflexivity;
    intros _ _;
    repeat match goal with
           | |- context [match ?c with Eq => _ | Lt => _ | Gt => _ end] =>
               destruct c; cbn
           end; try discriminate; reflexivity.
Qed.

Lemma insert_sorted_sorted x l :
  B64.is_nan x = false -> Forall (fun y => B64.is_nan y = false) l ->
  Sorted (fun a b => B64.leb a b = true) l ->
  Sorted (fun a b => B64.leb a b = true) (insert_sorted x l).
Proof.
  intros Hx Hl. induction l as [| y l IH]; cbn; intros Hsorted.
  - repeat constructor.
  - inversion Hl as [| ? ? Hy Hl']; subst.
    destruct (B64.leb x y) eqn:Hxy.
    + constructor; [assumption |]. now constructor.
    + pose proof (leb_total x y Hx Hy Hxy) as Hyx.
      inversion Hsorted as [| ? ? Htail Hhd]; subst.
      constructor; [now apply IH |].
      destruct l as [| z l]; cbn.
      * now constructor.
      * destruct (B64.leb x z); constructor; [assumption |].
        now inversion Hhd.
Qed.

Lemma notna_values cells : Forall (fun y => B64.is_nan y = false) (notna cells).
Proof.
  unfold notna. apply Forall_forall. intros y Hy.
  apply filter_In in Hy. destruct Hy as [_ Hy]. now apply negb_true_iff in Hy.
Qed.

Lemma sort_values_sorted l :
  Forall (fun y => B64.is_nan y = false) l ->
  Sorted (fun a b => B64.leb a b = true) (sort_values l).
Proof.
  unfold sort_values. induction 1 as [| x l Hx Hl IH]; cbn; [constructor |].
  apply insert_sorted_sorted; [exact Hx | | exact IH].
  eapply Permutation_Forall; [symmetry; apply (sort_values_perm l) | exact Hl].
Qed.

(** A column without a value has median NaN. *)
Lemma median_no_value cells : notna cells = [] -> median cells = S754_nan.
Proof. unfold median. now intros ->. Qed.

Lemma mode_fold_some (vs all : list string) (b : string) :
  exists v, fold_left (mode_step all) vs (Some b) = Some v.
Proof.
  revert b. induction vs as [| x vs IH]; intros b; cbn [fold_left];
    [now exists b |].
  unfold mode_step at 2.
  destruct ((count_of b all <? count_of x all)%nat
            || ((count_of b all =? count_of x all)%nat && String.ltb x b)); apply IH.
Qed.

Lemma mode_none cells : mode cells = None <-> dropna_values cells = [].
Proof.
  unfold mode. destruct (dropna_values cells) as [| v vs] eqn:Hvs.
  - cbn. tauto.
  - cbn [fold_left mode_step]. destruct (mode_fold_some vs (v :: vs) v) as [m Hm].
    rewrite Hm. split; discriminate.
Qed.

Lemma count_of_absent u vs : ~ In u vs -> count_of u vs = 0.
Proof.
  unfold count_of. induction vs as [| y vs IH]; cbn; intros Hu; [reflexivity |].
  destruct (String.eqb_spec u y) as [-> | Hne].
  - exfalso. apply Hu. now left.
  - apply IH. intros Hin. apply Hu. now right.
Qed.

Lemma mode_fold_most_frequent (vs all : list string) (b r : string) :
  fold_left (mode_step all) vs (Some b) = Some r ->
  count_of b all <= count_of r all /\
  (forall u, In u vs -> count_of u all <= count_of r all) /\
  (r = b \/ In r vs).
Proof.
  revert b. induction vs as [| x vs IH]; intros b; cbn [fold_left].
  - intros [= ->]. split; [lia |]. split; [intros u [] | now left].
  - unfold mode_step at 2.
    destruct (Nat.ltb_spec (count_of b all) (count_of x all)) as [Hlt | Hge];
      cbn [orb].
    + intros H. destruct (IH x H) as (Hx & Hall & Hin).
      split; [lia |]. split.
      * intros u [<- | Hu]; [lia | now apply Hall].
      * right. destruct Hin as [-> | Hin]; [now left | now right].
    + destruct (Nat.eqb_spec (count_of b all) (count_of x all)) as [Heq | Hne];
        cbn [andb].
      * destruct (String.ltb x b).
        -- intros H. destruct (IH x H) as (Hx & Hall & Hin).
           split; [lia |]. split.
           ++ intros u [<- | Hu]; [lia | now apply Hall].
           ++ right. destruct Hin as [-> | Hin]; [now left | now right].
        -- intros H. destruct (IH b H) as (Hb & Hall & Hin).
           split; [lia |]. split.
           ++ intros u [<- | Hu]; [lia | now apply Hall].
           ++ destruct Hin as [-> | Hin]; [now left | right; now right].
      * intros H. destruct (IH b H) as (Hb & Hall & Hin).
        split; [lia |]. split.
        -- intros u [<- | Hu]; [lia | now apply Hall].
        -- destruct Hin as [-> | Hin]; [now left | right; now right].
Qed.

(** The mode is a value of the column, and no value occurs more often. *)
Lemma mode_most_frequent cells v :
  mode cells = Some v ->
  In v (dropna_values cells) /\
  forall u, count_of u (dropna_values cells) <= count_of v (dropna_values cells).
Proof.
  unfold mode. destruct (dropna_values cells) as [| x vs] eqn:Hvs; [discriminate |].
  cbn [fold_left mode_step]. intros H.
  destruct (mode_fold_most_frequent vs (x :: vs) x v H) as (Hx & Hall & Hin).
  assert (Hv : In v (x :: vs)) by (destruct Hin as [-> | Hin]; [now left | now right]).
  split; [exact Hv |].
  intros u. destruct (in_dec string_dec u (x :: vs)) as [Hu | Hu].
  - destruct Hu as [<- | Hu]; [exact Hx | now apply Hall].
  - rewrite (count_of_absent u (x :: vs) Hu). lia.
Qed.

Lemma dropna_values_all_none {A : Type} (cells : list (option A)) :
  dropna_values cells = [] <-> Forall (fun o => o = None) cells.
Proof.
  induction cells as [| [x |] cells IH]; cbn.
  - split; constructor.
  - split; [discriminate | intros H; inversion H; discriminate].
  - rewrite IH. split; intros H; [now constructor | now inversion H].
Qed.

(** ** The two guards on the missing percentage *)

Local Open Scope Q_scope.

Lemma isnull_mean_nonneg c : 0 <= isnull_mean c.
Proof.
  unfold isnull_mean.
  destruct (col_length c) as [| n] eqn:Hlen.
  - cbn. unfold Qdiv, Qinv. cbn. rewrite Qmult_0_r. apply Qle_refl.
  - apply Qle_shift_div_l.
    + unfold Qlt. cbn. lia.
    + rewrite Qmult_0_l. unfold Qle. cbn. lia.
Qed.

Lemma null_count_le c : (null_count c <= col_length c)%nat.
Proof. apply count_true_le. Qed.

Lemma isnull_mean_zero c : isnull_mean c == 0 <-> null_count c = 0%nat.
Proof.
  unfold isnull_mean. pose proof (null_count_le c) as Hle.
  destruct (col_length c) as [| n] eqn:Hlen.
  - assert (null_count c = 0%nat) as -> by lia. cbn.
    split; [reflexivity |]. intros _. unfold Qdiv. now rewrite Qmult_0_l.
  - split.
    + intros H. apply Qmult_integral in H. destruct H as [H | H].
      * unfold Qeq in H. cbn in H. lia.
      * exfalso. unfold Qinv, Qeq in H. cbn in H. lia.
    + intros ->. unfold Qdiv. cbn. now rewrite Qmult_0_l.
Qed.

Lemma Qltb_lt x y : Qltb x y = true <-> x < y.
Proof.
  unfold Qltb. rewrite negb_true_iff.
  split.
  - intros H. apply Qnot_le_lt. intros Hle.
    apply Qle_bool_iff in Hle. congruence.
  - intros H. destruct (Qle_bool y x) eqn:E; [| reflexivity].
    apply Qle_bool_iff in E. exfalso. now apply (Qlt_not_le _ _ H).
Qed.

Lemma Qltb_ge x y : Qltb x y = false <-> y <= x.
Proof.
  unfold Qltb. rewrite negb_false_iff. apply Qle_bool_iff.
Qed.

Lemma missing_pct_positive c : Qltb 0 (missing_pct c) = true <-> 0 < isnull_mean c.
Proof. rewrite Qltb_lt. unfold missing_pct. split; intros H; lra. Qed.

Lemma missing_pct_zero c : Qltb 0 (missing_pct c) = false <-> null_count c = 0%nat.
Proof.
  rewrite Qltb_ge, <- isnull_mean_zero. unfold missing_pct.
  pose proof (isnull_mean_nonneg c). split; intros H0; lra.
Qed.

Lemma missing_pct_low c :
  Qltb (missing_pct c) 10 = true <-> isnull_mean c < 1 # 10.
Proof. rewrite Qltb_lt. unfold missing_pct. split; intros H; lra. Qed.

Lemma missing_pct_high c :
  Qltb (missing_pct c) 10 = false <-> 1 # 10 <= isnull_mean c.
Proof. rewrite Qltb_ge. unfold missing_pct. split; intros H; lra. Qed.

Local Close Scope Q_scope.

(** ** Row selection and column assignment, column by column *)

Lemma nth_error_select_rows mask df j :
  nth_error (select_rows mask df) j
  = option_map (fun nc => (fst nc, select_col mask (snd nc))) (nth_error df j).
Proof. unfold select_rows. apply nth_error_map. Qed.

Lemma length_select_rows mask df : shape1 (select_rows mask df) = shape1 df.
Proof. unfold shape1, select_rows. apply length_map. Qed.

Lemma length_set_column i new df : shape1 (set_column i new df) = shape1 df.
Proof.
  unfold shape1. revert i. induction df as [| [n c] df IH]; intros [| i]; cbn; auto.
Qed.

Lemma nth_error_set_column_eq i new df name c :
  nth_error df i = Some (name, c) ->
  nth_error (set_column i new df) i = Some (name, new).
Proof.
  revert i. induction df as [| [n c0] df IH]; intros [| i]; cbn; try discriminate.
  - now intros [= -> _].
  - apply IH.
Qed.

Lemma nth_error_set_column_neq i j new df :
  i <> j -> nth_error (set_column i new df) j = nth_error df j.
Proof.
  revert i j. induction df as [| [n c0] df IH]; intros [| i] [| j] H; cbn;
    try reflexivity; try congruence.
  apply IH. congruence.
Qed.

(** ** What processing one column does *)

Lemma process_column_action original_rows i (df : table) steps name c :
  nth_error df i = Some (name, c) ->
  exists df' new,
    process_column original_rows i (df, steps) = (df', steps ++ new) /\
    column_action original_rows i name c df df' new.
Proof.
  intros Hnth. unfold process_column. rewrite Hnth.
  destruct (Qltb 0 (missing_pct c)) eqn:Hpos.
  - apply missing_pct_positive in Hpos.
    destruct (Qltb (missing_pct c) 10) eqn:Hlow.
    + apply missing_pct_low in Hlow.
      exists (dropna c df),
        (if (0 <? shape0 df - shape0 (dropna c df))%nat
         then [DroppedRows (shape0 df - shape0 (dropna c df)) name] else []).
      split; [| now apply action_drop].
      destruct (0 <? shape0 df - shape0 (dropna c df))%nat; [reflexivity |].
      now rewrite app_nil_r.
    + apply missing_pct_high in Hlow.
      destruct c as [cells | cells | cells | cells | cells].
      * exfalso. pose proof (null_count_int cells) as Hnone.
        apply isnull_mean_zero in Hnone. rewrite Hnone in Hpos.
        now apply Qlt_irrefl in Hpos.
      * eexists _, _. split; [reflexivity |]. now apply action_fill_median.
      * exfalso. pose proof (null_count_bool cells) as Hnone.
        apply isnull_mean_zero in Hnone. rewrite Hnone in Hpos.
        now apply Qlt_irrefl in Hpos.
      * eexists _, _. split; [reflexivity |]. now apply action_fill_mode.
      * destruct (mode_bool cells) as [mode_value |] eqn:Hmode;
          eexists _, _; (split; [reflexivity |]).
        -- now apply action_fill_mode_bool.
        -- now apply action_fill_unknown.
  - apply missing_pct_zero in Hpos.
    exists df, []. split; [now rewrite app_nil_r | now apply action_none].
Qed.

Lemma process_column_out_of_range original_rows i st :
  nth_error (fst st) i = None -> process_column original_rows i st = st.
Proof.
  destruct st as [df steps]. cbn. intros H. unfold process_column. now rewrite H.
Qed.

(** ** Rows dropped for a column *)

Lemma dropna_settles c : null_count (select_col (map negb (isnull c)) c) = 0.
Proof.
  unfold null_count. rewrite isnull_select_col. apply count_true_select_notnull.
Qed.

Lemma remove_duplicates_shape1 df : shape1 (fst (remove_duplicates df)) = shape1 df.
Proof.
  unfold remove_duplicates.
  destruct (0 <? count_true (duplicated df))%nat; cbn; [| reflexivity].
  apply length_select_rows.
Qed.

(** ** The pass, column by column *)

Lemma state_before_S (df : table) k :
  state_before df (S k) = process_column (shape0 df) k (state_before df k).
Proof.
  unfold state_before. rewrite seq_S, fold_left_app. reflexivity.
Qed.

Lemma clean_state_before (df : table) : clean df = state_before df (shape1 df).
Proof.
  unfold clean, state_before. now rewrite remove_duplicates_shape1.
Qed.

(** ** The claims on the cleaning pass *)

(** C1, at the failing input.  The column [score] of [no_score] is numeric
    and null throughout, so its missing ratio is 1 and its median is NaN.
    The pass logs that it filled 3 values and returns the table as it was,
    the three nulls still there.  The same happens to [x] of
    [infinite_pair], whose two values are inf and -inf: their mean is NaN.
    The object branch has the fallback "Unknown" for a column without a
    mode; the numeric branch has none. *)
Theorem C1_nan_median_fills_nothing :
  nth_error (fst (state_before Scenarios.no_score 1)) 1
  = Some ("score", NumCol [S754_nan; S754_nan; S754_nan]) /\
  (1 # 10 <= isnull_mean (NumCol [S754_nan; S754_nan; S754_nan]))%Q /\
  median [S754_nan; S754_nan; S754_nan] = S754_nan /\
  clean Scenarios.no_score
  = (Scenarios.no_score, [FilledMedian 3 "score" S754_nan]) /\
  null_count (NumCol [S754_nan; S754_nan; S754_nan]) = 3 /\
  median [S754_infinity false; S754_infinity true; S754_nan] = S754_nan /\
  clean Scenarios.infinite_pair
  = (Scenarios.infinite_pair, [FilledMedian 0 "x" S754_nan]).
Proof.
  split; [reflexivity |].
  split; [vm_compute; discriminate |].
  split; [reflexivity |].
  split; [vm_compute; reflexivity |].
  split; [reflexivity |].
  split; [vm_compute; reflexivity |].
  vm_compute. reflexivity.
Qed.


(** With an even number of values the median is the binary64 mean of the
    two middle ones: 2.5 for 1, 2, 3 and 4. *)
Example median_of_four :
  median [B64.of_Z 4; S754_nan; B64.of_Z 1; B64.of_Z 3; B64.of_Z 2]
  = B64.div (B64.of_Z 5) (B64.of_Z 2).
Proof. vm_compute. reflexivity. Qed.

(** A table without duplicate rows and without nulls is left alone. *)
Lemma clean_nothing_to_do (df : table) :
  count_true (duplicated df) = 0 ->
  Forall (fun nc => null_count (snd nc) = 0) df ->
  clean df = (df, []).
Proof.
  intros Hdup Hnull. unfold clean, remove_duplicates. rewrite Hdup. cbn [Nat.ltb Nat.leb fst].
  generalize (shape0 df) as original_rows. intros original_rows.
  generalize (shape1 df) as n. intros n.
  generalize 0 as a. revert n.
  induction n as [| n IH]; intros a; cbn [seq fold_left]; [reflexivity |].
  replace (process_column original_rows a (df, [])) with (df, @nil CleaningStep);
    [apply IH |].
  unfold process_column.
  destruct (nth_error df a) as [[name c] |] eqn:Hnth; [| reflexivity].
  assert (Hc : null_count c = 0).
  { rewrite Forall_forall in Hnull. apply (Hnull (name, c)).
    eapply nth_error_In; eauto. }
  apply missing_pct_zero in Hc. now rewrite Hc.
Qed.

(** C4, amended.  The count logged for an imputed column is the integer part
    of (missing percentage x original row count / 100) in binary64, where the
    percentage is that of the column as it stands when it is processed, after
    duplicate removal and the row drops of earlier columns; only the row
    count is the original one. *)
Theorem C4_estimate_uses_ratio_when_processed (df0 : table) i name c :
  nth_error (fst (state_before df0 i)) i = Some (name, c) ->
  (1 # 10 <= isnull_mean c)%Q ->
  exists step,
    snd (state_before df0 (S i)) = snd (state_before df0 i) ++ [step] /\
    step_column step = Some name /\
    step_estimate step
    = Some (B64.to_int
              (B64.div (B64.mul (missing_pct_f64 c)
                                (B64.of_Z (Z.of_nat (shape0 df0))))
                       (B64.of_Z 100))).
Proof.
  intros Hnth Hhigh. rewrite state_before_S.
  destruct (state_before df0 i) as [df steps] eqn:Hst. cbn [fst snd] in *.
  destruct (process_column_action (shape0 df0) i df steps name c Hnth)
    as [df' [new [Heq Hact]]].
  rewrite Heq. cbn [snd].
  destruct Hact as [Hnone | Hpos Hlow | cells -> _ | cells -> _
                   | cells mode_value -> _ _ | cells -> _ _].
  - apply isnull_mean_zero in Hnone. lra.
  - lra.
  - eexists. split; [reflexivity |]. split; reflexivity.
  - eexists. split; [reflexivity |]. split; reflexivity.
  - eexists. split; [reflexivity |]. split; reflexivity.
  - eexists. split; [reflexivity |]. split; reflexivity.
Qed.

Lemma C4_witness :
  nth_error (fst (state_before Scenarios.duplicated_nulls 0)) 0
  = Some ("c", ObjCol [None; Some "a"]) /\
  (1 # 10 <= isnull_mean (ObjCol [None; Some "a"]))%Q /\
  exists step,
    snd (state_before Scenarios.duplicated_nulls 1)
    = snd (state_before Scenarios.duplicated_nulls 0) ++ [step] /\
    step_column step = Some "c" /\
    step_estimate step
    = Some (B64.to_int
              (B64.div (B64.mul (missing_pct_f64 (ObjCol [None; Some "a"]))
                                (B64.of_Z (Z.of_nat (shape0 Scenarios.duplicated_nulls))))
                       (B64.of_Z 100))).
Proof.
  assert (H1 : nth_error (fst (state_before Scenarios.duplicated_nulls 0)) 0
               = Some ("c", ObjCol [None; Some "a"])) by reflexivity.
  assert (H2 : (1 # 10 <= isnull_mean (ObjCol [None; Some "a"]))%Q)
    by (vm_compute; discriminate).
  split; [exact H1 |]. split; [exact H2 |].
  exact (C4_estimate_uses_ratio_when_processed Scenarios.duplicated_nulls 0 _ _ H1 H2).
Defined.

(** C4 as stated fails: in [duplicated_nulls] two of the three cells are
    null, so the ratio of the input times its row count is 2; one of the two
    null rows goes as a duplicate, the ratio at processing is 1/2, and the
    step records int(50.0 * 3 / 100) = 1. *)
Lemma C4_counterexample :
  snd (clean Scenarios.duplicated_nulls) = [RemovedDuplicates 1; FilledMode 1 "c" "a"] /\
  (isnull_mean (ObjCol [None; None; Some "a"])
   * inject_Z (Z.of_nat (shape0 Scenarios.duplicated_nulls)) == 2)%Q /\
  ~ (inject_Z 1 == isnull_mean (ObjCol [None; None; Some "a"])
                   * inject_Z (Z.of_nat (shape0 Scenarios.duplicated_nulls)))%Q.
Proof.
  split; [vm_compute; reflexivity |].
  split; [reflexivity | intros H; vm_compute in H; discriminate].
Qed.

(** The estimate also feels the rounding of binary64: one null in three rows
    is logged as 0 filled values, since (1/3 * 100) * 3 / 100 < 1 there. *)
Example estimate_one_third :
  snd (clean Scenarios.third_null) = [FilledMode 0 "c" "a"].
Proof. vm_compute. reflexivity. Qed.

(** C10, at the failing inputs.  No numeric column of [lone_age] is
    entirely null, but dropping the one row without a city takes the only
    known age away; the median of what is left is NaN, the pass logs that it
    filled 11 values and returns ten nulls.  In [infinite_pair] the column
    [x] has two values, inf and -inf; their mean is NaN and the null
    stays. *)
Theorem C10_nulls_survive_the_pass :
  Forall (fun nc => is_numeric_dtype (snd nc) = true ->
                    null_count (snd nc) < col_length (snd nc))
         Scenarios.lone_age /\
  clean Scenarios.lone_age
  = ([("city", ObjCol [Some "a"; Some "b"; Some "c"; Some "d"; Some "e";
                       Some "f"; Some "g"; Some "h"; Some "i"; Some "j"]);
      ("age", NumCol [S754_nan; S754_nan; S754_nan; S754_nan; S754_nan;
                      S754_nan; S754_nan; S754_nan; S754_nan; S754_nan])],
     [DroppedRows 1 "city"; FilledMedian 11 "age" S754_nan]) /\
  ~ Forall (fun nc => null_count (snd nc) = 0) (fst (clean Scenarios.lone_age)) /\
  Forall (fun nc => is_numeric_dtype (snd nc) = true ->
                    null_count (snd nc) < col_length (snd nc))
         Scenarios.infinite_pair /\
  clean Scenarios.infinite_pair
  = (Scenarios.infinite_pair, [FilledMedian 0 "x" S754_nan]) /\
  ~ Forall (fun nc => null_count (snd nc) = 0) (fst (clean Scenarios.infinite_pair)).
Proof.
  assert (H : clean Scenarios.lone_age
    = ([("city", ObjCol [Some "a"; Some "b"; Some "c"; Some "d"; Some "e";
                         Some "f"; Some "g"; Some "h"; Some "i"; Some "j"]);
        ("age", NumCol [S754_nan; S754_nan; S754_nan; S754_nan; S754_nan;
                        S754_nan; S754_nan; S754_nan; S754_nan; S754_nan])],
       [DroppedRows 1 "city"; FilledMedian 11 "age" S754_nan]))
    by (vm_compute; reflexivity).
  assert (H' : clean Scenarios.infinite_pair
               = (Scenarios.infinite_pair, [FilledMedian 0 "x" S754_nan]))
    by (vm_compute; reflexivity).
  split; [repeat constructor; cbn; intros; try discriminate; lia |].
  split; [exact H |].
  split.
  { rewrite H. cbn [fst]. intros Hall.
    inversion Hall as [| ? ? _ Hrest]. inversion Hrest as [| ? ? Hage _].
    cbn in Hage. discriminate. }
  split; [repeat constructor; cbn; intros; try discriminate; lia |].
  split; [exact H' |].
  rewrite H'. cbn [fst]. intros Hall.
  inversion Hall as [| ? ? _ Hrest]. inversion Hrest as [| ? ? Hx _].
  cbn in Hx. discriminate.
Qed.

(** ** The advisory narrative *)

Section AdvisoryFacts.
Context {World : Type} {host : Ollama.Host World}.
Variable advisory_prompt : table -> string.

(** C8, amended.  Whatever the inference client does, the table and the step
    log returned are those of the deterministic pass; when the client raises
    [e], the narrative is "Could not get AI suggestions: " followed by the
    text of [e], a line feed and "Performing basic cleaning only.", and when
    it returns, the narrative is its response. *)
Theorem C8_cleaning_does_not_depend_on_inference (df : table) (s : Ollama.state World) :
  let answer :=
    fst (Ollama.query_ollama (advisory_prompt df) "deepseek-r1:1.5b" 2%Z s) in
  let out := fst (clean_and_summarize advisory_prompt df s) in
  (cleaned out, cleaning_performed out) = clean df /\
  original_shape out = (shape0 df, shape1 df) /\
  cleaned_shape out = (shape0 (fst (clean df)), shape1 (fst (clean df))) /\
  (forall e, answer = Ollama.Raise e ->
             ollama_response out
             = ("Could not get AI suggestions: " ++ Ollama.str e ++ newline
                ++ "Performing basic cleaning only.")%string) /\
  (forall response, answer = Ollama.Return response ->
                    ollama_response out = response).
Proof.
  unfold clean_and_summarize, Ollama.bind, Ollama.ret.
  destruct (Ollama.query_ollama (advisory_prompt df) "deepseek-r1:1.5b" 2%Z s)
    as [answer s'].
  destruct (clean df) as [df' steps]. cbn.
  repeat split; try reflexivity.
  - intros e ->. reflexivity.
  - intros response ->. reflexivity.
Qed.

End AdvisoryFacts.

(** C8 as stated fails in its literal: on a host where every generation
    fails the narrative carries the text of the last error, and is not the
    fixed sentence of the claim. *)
Lemma C8_counterexample :
  fst (@Ollama.query_ollama nat Scenarios.failing_host
         (Scenarios.shape_prompt Scenarios.half_null) "deepseek-r1:1.5b" 2%Z
         (Scenarios.start 0))
  = Ollama.Raise
      (Ollama.Exception
         "Ollama request timed out. The operation took too long to complete.") /\
  ollama_response
    (fst (@clean_and_summarize nat Scenarios.failing_host Scenarios.shape_prompt
            Scenarios.half_null (Scenarios.start 0)))
  = ("Could not get AI suggestions: Ollama request timed out. The operation took too long to complete."
     ++ newline ++ "Performing basic cleaning only.")%string /\
  ollama_response
    (fst (@clean_and_summarize nat Scenarios.failing_host Scenarios.shape_prompt
            Scenarios.half_null (Scenarios.start 0)))
  <> literal_fallback.
Proof.
  split; [vm_compute; reflexivity |].
  split; [vm_compute; reflexivity |].
  vm_compute. discriminate.
Qed.

(** ** Schema, row count and the step log *)

Lemma columns_select_rows mask df : columns (select_rows mask df) = columns df.
Proof. unfold columns, select_rows. rewrite map_map. reflexivity. Qed.

Lemma columns_set_column i new df : columns (set_column i new df) = columns df.
Proof.
  revert i. induction df as [| [name c] df IH]; intros [| i]; cbn; try reflexivity.
  f_equal. apply IH.
Qed.

Lemma process_column_columns original_rows i st :
  columns (fst (process_column original_rows i st)) = columns (fst st).
Proof.
  destruct st as [df steps]. cbn [fst].
  destruct (nth_error df i) as [[name c] |] eqn:Hnth.
  - destruct (process_column_action original_rows i df steps name c Hnth)
      as (df' & new & -> & Hact). cbn [fst].
    destruct Hact; try reflexivity; try apply columns_set_column.
    unfold dropna. apply columns_select_rows.
  - now rewrite (process_column_out_of_range original_rows i (df, steps)).
Qed.

Lemma fold_process_columns original_rows idx : forall st,
  columns (fst (fold_left (fun st i => process_column original_rows i st) idx st))
  = columns (fst st).
Proof.
  induction idx as [| i idx IH]; intros st; cbn [fold_left]; [reflexivity |].
  rewrite IH. apply process_column_columns.
Qed.

Lemma remove_duplicates_columns df :
  columns (fst (remove_duplicates df)) = columns df.
Proof.
  unfold remove_duplicates, drop_duplicates.
  destruct (0 <? count_true (duplicated df))%nat; cbn [fst]; [| reflexivity].
  apply columns_select_rows.
Qed.

Lemma clean_columns df : columns (fst (clean df)) = columns df.
Proof.
  unfold clean. cbn zeta. rewrite fold_process_columns.
  apply remove_duplicates_columns.
Qed.

Lemma dtype_kept_refl c : dtype_kept c c.
Proof. destruct c; constructor. Qed.

Lemma dtype_kept_trans a b c : dtype_kept a b -> dtype_kept b c -> dtype_kept a c.
Proof. intros Hab Hbc. destruct Hab; inversion Hbc; subst; constructor. Qed.

Lemma dtype_kept_select_col mask c : dtype_kept c (select_col mask c).
Proof. destruct c; constructor. Qed.

Lemma dtypes_kept_refl df : dtypes_kept df df.
Proof. induction df; constructor; [apply dtype_kept_refl | assumption]. Qed.

Lemma dtypes_kept_trans a b c : dtypes_kept a b -> dtypes_kept b c -> dtypes_kept a c.
Proof.
  intros Hab. revert c. induction Hab as [| x y a b Hxy _ IH]; intros c Hbc;
    inversion Hbc as [| ? z ? c' Hyz Hbc']; subst; constructor.
  - eapply dtype_kept_trans; eauto.
  - now apply IH.
Qed.

Lemma dtypes_kept_select_rows mask df : dtypes_kept df (select_rows mask df).
Proof.
  induction df as [| [name c] df IH]; cbn; constructor; [| exact IH].
  apply dtype_kept_select_col.
Qed.

Lemma dtypes_kept_set_column i new (df : table) name c :
  nth_error df i = Some (name, c) -> dtype_kept c new ->
  dtypes_kept df (set_column i new df).
Proof.
  revert i. induction df as [| [name' c'] df IH]; intros [| i]; cbn; try discriminate.
  - intros [= -> ->] Hnew. constructor; [exact Hnew | apply dtypes_kept_refl].
  - intros Hnth Hnew. constructor; [apply dtype_kept_refl | now apply IH].
Qed.

Lemma process_column_dtypes original_rows i st :
  dtypes_kept (fst st) (fst (process_column original_rows i st)).
Proof.
  destruct st as [df steps]. cbn [fst].
  destruct (nth_error df i) as [[name c] |] eqn:Hnth.
  - destruct (process_column_action original_rows i df steps name c Hnth)
      as (df' & new & -> & Hact). cbn [fst].
    destruct Hact as [Hnone | Hpos Hlow | cells Hc Hhigh | cells Hc Hhigh
                     | cells mode_value Hc Hhigh Hmode | cells Hc Hhigh Hmode].
    + apply dtypes_kept_refl.
    + apply dtypes_kept_select_rows.
    + apply (dtypes_kept_set_column i _ df name c Hnth). subst c. constructor.
    + apply (dtypes_kept_set_column i _ df name c Hnth). subst c. constructor.
    + apply (dtypes_kept_set_column i _ df name c Hnth). subst c. constructor.
    + apply (dtypes_kept_set_column i _ df name c Hnth). subst c. constructor.
  - rewrite (process_column_out_of_range original_rows i (df, steps)) by exact Hnth.
    apply dtypes_kept_refl.
Qed.

Lemma fold_process_dtypes original_rows idx : forall st,
  dtypes_kept (fst st)
    (fst (fold_left (fun st i => process_column original_rows i st) idx st)).
Proof.
  induction idx as [| i idx IH]; intros st; cbn [fold_left];
    [apply dtypes_kept_refl |].
  eapply dtypes_kept_trans; [apply process_column_dtypes | apply IH].
Qed.

Lemma length_select {A : Type} (mask : list bool) (xs : list A) :
  List.length mask = List.length xs -> List.length (select mask xs) = count_true mask.
Proof.
  revert xs. induction mask as [| b mask IH]; intros [| x xs]; cbn;
    try discriminate; try reflexivity.
  intros [= H]. specialize (IH xs H). unfold count_true in *.
  destruct b; cbn; [f_equal |]; exact IH.
Qed.

Lemma count_true_negb bs : count_true (map negb bs) + count_true bs = List.length bs.
Proof. unfold count_true. induction bs as [| [|] bs IH]; cbn; lia. Qed.

Lemma col_length_select_col mask c :
  List.length mask = col_length c -> col_length (select_col mask c) = count_true mask.
Proof.
  intros H. unfold col_length in *. rewrite isnull_select_col. now apply length_select.
Qed.

Lemma shape0_select_rows mask (df : table) :
  List.length mask = shape0 df -> shape0 (select_rows mask df) = count_true mask.
Proof.
  destruct df as [| [name c] df]; cbn.
  - destruct mask; [reflexivity | discriminate].
  - apply col_length_select_col.
Qed.

Lemma well_formed_select_rows mask (df : table) :
  well_formed df -> List.length mask = shape0 df -> well_formed (select_rows mask df).
Proof.
  intros Hwf Hlen. unfold well_formed. rewrite (shape0_select_rows _ _ Hlen).
  unfold select_rows. rewrite Forall_map. eapply Forall_impl; [| exact Hwf].
  intros [name c] Hc. cbn in *. apply col_length_select_col. congruence.
Qed.

Lemma length_duplicated_from seen rest :
  List.length (duplicated_from seen rest) = List.length rest.
Proof.
  revert seen. induction rest as [| r rest IH]; intros seen; cbn; [reflexivity |].
  now rewrite IH.
Qed.

Lemma length_duplicated df : List.length (duplicated df) = shape0 df.
Proof.
  unfold duplicated, rows. now rewrite length_duplicated_from, length_map, length_seq.
Qed.

Lemma col_length_at (df : table) i name c :
  well_formed df -> nth_error df i = Some (name, c) -> col_length c = shape0 df.
Proof.
  intros Hwf Hnth. unfold well_formed in Hwf. rewrite Forall_forall in Hwf.
  apply (Hwf (name, c)). eapply nth_error_In; eauto.
Qed.

Lemma Forall_set_column (P : string * column -> Prop) i new (df : table) :
  Forall P df -> (forall name, P (name, new)) -> Forall P (set_column i new df).
Proof.
  intros Hall Hnew. revert i.
  induction Hall as [| [name c] df Hx Hall IH]; intros [| i]; cbn;
    constructor; auto.
Qed.

Lemma well_formed_set_column i new (df : table) name c :
  well_formed df -> nth_error df i = Some (name, c) ->
  col_length new = col_length c ->
  shape0 (set_column i new df) = shape0 df /\ well_formed (set_column i new df).
Proof.
  intros Hwf Hnth Hlen.
  assert (Hshape : shape0 (set_column i new df) = shape0 df).
  { destruct df as [| [name0 c0] df]; [now destruct i |].
    destruct i as [| i]; cbn in *; [| reflexivity]. congruence. }
  split; [exact Hshape |].
  unfold well_formed. rewrite Hshape. apply Forall_set_column; [exact Hwf |].
  intros name'. cbn [snd]. rewrite Hlen. eapply col_length_at; eauto.
Qed.

Lemma shape0_dropna (df : table) i name c :
  well_formed df -> nth_error df i = Some (name, c) ->
  shape0 (dropna c df) + null_count c = shape0 df /\ well_formed (dropna c df).
Proof.
  intros Hwf Hnth. pose proof (col_length_at _ _ _ _ Hwf Hnth) as Hlen.
  assert (Hmask : List.length (map negb (isnull c)) = shape0 df).
  { rewrite length_map. exact Hlen. }
  unfold dropna. split; [| now apply well_formed_select_rows].
  rewrite (shape0_select_rows _ _ Hmask). unfold null_count.
  rewrite count_true_negb. exact Hlen.
Qed.

(** Below one null in ten, the column has a null and a value. *)
Lemma low_ratio_counts c :
  (0 < isnull_mean c)%Q -> (isnull_mean c < 1 # 10)%Q ->
  0 < null_count c /\ null_count c < col_length c.
Proof.
  intros Hpos Hlow. pose proof (null_count_le c) as Hle.
  split.
  - destruct (null_count c) eqn:Hk; [| lia].
    apply isnull_mean_zero in Hk. rewrite Hk in Hpos. now apply Qlt_irrefl in Hpos.
  - destruct (Nat.eq_dec (null_count c) (col_length c)) as [Heq | Hne]; [| lia].
    exfalso. unfold isnull_mean in Hpos, Hlow. rewrite Heq in Hpos, Hlow.
    destruct (col_length c) as [| n].
    + unfold Qdiv in Hpos. rewrite Qmult_0_l in Hpos. now apply Qlt_irrefl in Hpos.
    + unfold Qdiv in Hlow. rewrite Qmult_inv_r in Hlow.
      * revert Hlow. unfold Qlt. cbn. lia.
      * unfold Qeq. cbn. lia.
Qed.

Lemma total_removed_app a b : total_removed (a ++ b) = total_removed a + total_removed b.
Proof. unfold total_removed. now rewrite map_app, list_sum_app. Qed.

(** One column of the loop: the rows it removes are the rows it logs, and
    it logs nothing only when the column has no null. *)
Lemma process_column_rows original_rows i (df : table) steps :
  well_formed df ->
  exists df' new,
    process_column original_rows i (df, steps) = (df', steps ++ new) /\
    well_formed df' /\
    shape0 df' + total_removed new = shape0 df /\
    (0 < shape0 df -> 0 < shape0 df') /\
    (new = [] ->
     df' = df /\ forall name c, nth_error df i = Some (name, c) -> null_count c = 0).
Proof.
  intros Hwf.
  destruct (nth_error df i) as [[name c] |] eqn:Hnth.
  - destruct (process_column_action original_rows i df steps name c Hnth)
      as (df' & new & Heq & Hact).
    exists df', new. split; [exact Heq |].
    destruct Hact as [Hnone | Hpos Hlow | cells Hc Hhigh | cells Hc Hhigh
                     | cells mode_value Hc Hhigh Hmode | cells Hc Hhigh Hmode].
    + split; [exact Hwf |]. split; [cbn; lia |]. split; [auto |].
      intros _. split; [reflexivity |]. intros name' c' [= _ <-]. exact Hnone.
    + destruct (shape0_dropna df i name c Hwf Hnth) as [Hrows Hwf'].
      destruct (low_ratio_counts c Hpos Hlow) as [Hk Hlt].
      pose proof (col_length_at _ _ _ _ Hwf Hnth) as Hlen.
      assert (Hdropped : shape0 df - shape0 (dropna c df) = null_count c) by lia.
      rewrite Hdropped.
      destruct (Nat.ltb_spec 0 (null_count c)) as [_ | Hzero]; [| lia].
      split; [exact Hwf' |]. split; [cbn; lia |]. split; [lia |]. discriminate.
    + subst c.
      destruct (well_formed_set_column i (NumCol (fillna_float (median cells) cells))
                  df name (NumCol cells) Hwf Hnth) as [Hshape Hwf'].
      { unfold col_length, fillna_float. cbn [isnull]. now rewrite !length_map. }
      split; [exact Hwf' |]. rewrite Hshape.
      split; [cbn; lia |]. split; [auto |]. discriminate.
    + subst c.
      destruct (well_formed_set_column i
                  (ObjCol (fillna (match mode cells with Some v => v | None => Unknown end)
                                  cells))
                  df name (ObjCol cells) Hwf Hnth) as [Hshape Hwf'].
      { unfold col_length. cbn [isnull]. rewrite !length_map. apply length_map. }
      split; [exact Hwf' |]. rewrite Hshape.
      split; [cbn; lia |]. split; [auto |]. discriminate.
    + subst c.
      destruct (well_formed_set_column i (BoolCol (fillna_bool mode_value cells))
                  df name (ObjBoolCol cells) Hwf Hnth) as [Hshape Hwf'].
      { unfold col_length, fillna_bool. cbn [isnull]. now rewrite !length_map. }
      split; [exact Hwf' |]. rewrite Hshape.
      split; [cbn; lia |]. split; [auto |]. discriminate.
    + subst c.
      destruct (well_formed_set_column i (ObjCol (map (fun _ => Some Unknown) cells))
                  df name (ObjBoolCol cells) Hwf Hnth) as [Hshape Hwf'].
      { unfold col_length. cbn [isnull]. now rewrite !length_map. }
      split; [exact Hwf' |]. rewrite Hshape.
      split; [cbn; lia |]. split; [auto |]. discriminate.
  - exists df, []. rewrite app_nil_r.
    split; [now apply (process_column_out_of_range original_rows i (df, steps)) |].
    split; [exact Hwf |]. split; [cbn; lia |]. split; [auto |].
    intros _. split; [reflexivity |]. intros name c H. discriminate H.
Qed.

Lemma fold_process_rows original_rows len : forall a (df : table) steps,
  well_formed df ->
  exists df' new,
    fold_left (fun st i => process_column original_rows i st) (seq a len) (df, steps)
    = (df', steps ++ new) /\
    well_formed df' /\
    shape0 df' + total_removed new = shape0 df /\
    (0 < shape0 df -> 0 < shape0 df') /\
    (new = [] ->
     df' = df /\
     forall j name c, a <= j < a + len -> nth_error df j = Some (name, c) ->
                      null_count c = 0).
Proof.
  induction len as [| len IH]; intros a df steps Hwf; cbn [seq fold_left].
  - exists df, []. rewrite app_nil_r. split; [reflexivity |]. split; [exact Hwf |].
    split; [cbn; lia |]. split; [auto |]. intros _. split; [reflexivity |]. lia.
  - destruct (process_column_rows original_rows a df steps Hwf)
      as (df1 & new1 & -> & Hwf1 & Hrows1 & Hpos1 & Hnil1).
    destruct (IH (S a) df1 (steps ++ new1) Hwf1)
      as (df2 & new2 & -> & Hwf2 & Hrows2 & Hpos2 & Hnil2).
    exists df2, (new1 ++ new2). rewrite app_assoc.
    split; [reflexivity |]. split; [exact Hwf2 |].
    split; [rewrite total_removed_app; lia |]. split; [auto |].
    intros Hnil. apply app_eq_nil in Hnil. destruct Hnil as [Hn1 Hn2].
    destruct (Hnil1 Hn1) as [-> Hcol]. destruct (Hnil2 Hn2) as [-> Hrest].
    split; [reflexivity |]. intros j name c Hj Hnth.
    destruct (Nat.eq_dec j a) as [-> | Hne]; [now apply (Hcol name) |].
    apply (Hrest j name); [lia | exact Hnth].
Qed.

Lemma remove_duplicates_rows (df : table) :
  well_formed df ->
  well_formed (fst (remove_duplicates df)) /\
  shape0 (fst (remove_duplicates df)) + total_removed (snd (remove_duplicates df))
  = shape0 df /\
  (0 < shape0 df -> 0 < shape0 (fst (remove_duplicates df))) /\
  (snd (remove_duplicates df) = [] ->
   fst (remove_duplicates df) = df /\ count_true (duplicated df) = 0).
Proof.
  intros Hwf. unfold remove_duplicates.
  destruct (Nat.ltb_spec 0 (count_true (duplicated df))) as [Hdup | Hnone];
    cbn [fst snd].
  - assert (Hmask : List.length (map negb (duplicated df)) = shape0 df).
    { rewrite length_map. apply length_duplicated. }
    unfold drop_duplicates. rewrite (shape0_select_rows _ _ Hmask).
    pose proof (count_true_negb (duplicated df)) as Hsum.
    rewrite length_duplicated in Hsum.
    split; [now apply well_formed_select_rows |].
    split; [cbn; lia |]. split; [| discriminate].
    intros Hrows. unfold duplicated, rows.
    destruct (shape0 df) as [| n]; [lia |]. cbn. unfold count_true. cbn. lia.
  - split; [exact Hwf |]. split; [cbn; lia |]. split; [auto |].
    intros _. split; [reflexivity | lia].
Qed.

Lemma clean_rows (df : table) :
  well_formed df ->
  exists new,
    snd (clean df) = snd (remove_duplicates df) ++ new /\
    well_formed (fst (clean df)) /\
    shape0 (fst (clean df)) + total_removed (snd (clean df)) = shape0 df /\
    (0 < shape0 df -> 0 < shape0 (fst (clean df))) /\
    (snd (clean df) = [] ->
     fst (clean df) = df /\ count_true (duplicated df) = 0 /\
     Forall (fun nc => null_count (snd nc) = 0) df).
Proof.
  intros Hwf.
  destruct (remove_duplicates_rows df Hwf) as (Hwf0 & Hrows0 & Hpos0 & Hnil0).
  unfold clean. cbn zeta.
  destruct (remove_duplicates df) as [df0 steps0] eqn:Hrd. cbn [fst snd] in *.
  destruct (fold_process_rows (shape0 df) (shape1 df0) 0 df0 steps0 Hwf0)
    as (df' & new & -> & Hwf' & Hrows & Hpos & Hnil).
  cbn [fst snd]. exists new. split; [reflexivity |]. split; [exact Hwf' |].
  split; [rewrite total_removed_app; lia |]. split; [auto |].
  intros Hempty. apply app_eq_nil in Hempty. destruct Hempty as [Hs0 Hnew].
  destruct (Hnil0 Hs0) as [-> Hdup]. destruct (Hnil Hnew) as [-> Hcols].
  split; [reflexivity |]. split; [exact Hdup |].
  apply Forall_forall. intros [name c] Hin.
  apply In_nth_error in Hin. destruct Hin as [j Hj].
  apply (Hcols j name); [| exact Hj].
  assert (j < List.length df) by (apply nth_error_Some; congruence).
  unfold shape1. lia.
Qed.




(** One column of the loop logs at most one step, and the step names the
    column. *)
Lemma process_column_names original_rows i (df : table) steps :
  exists df' new,
    process_column original_rows i (df, steps) = (df', steps ++ new) /\
    (new = [] \/
     exists step name, new = [step] /\ nth_error (columns df) i = Some name /\
                       step_column step = Some name).
Proof.
  destruct (nth_error df i) as [[name c] |] eqn:Hnth.
  - assert (Hname : nth_error (columns df) i = Some name).
    { unfold columns. now rewrite nth_error_map, Hnth. }
    destruct (process_column_action original_rows i df steps name c Hnth)
      as (df' & new & Heq & Hact).
    exists df', new. split; [exact Heq |].
    destruct Hact as [Hnone | Hpos Hlow | cells Hc Hhigh | cells Hc Hhigh
                     | cells mode_value Hc Hhigh Hmode | cells Hc Hhigh Hmode].
    + now left.
    + destruct (0 <? shape0 df - shape0 (dropna c df))%nat; [| now left].
      right. eexists _, name. split; [reflexivity |]. now split.
    + right. eexists _, name. split; [reflexivity |]. now split.
    + right. eexists _, name. split; [reflexivity |]. now split.
    + right. eexists _, name. split; [reflexivity |]. now split.
    + right. eexists _, name. split; [reflexivity |]. now split.
  - exists df, []. rewrite app_nil_r.
    split; [now apply (process_column_out_of_range original_rows i (df, steps)) |].
    now left.
Qed.

Lemma select_nil {A : Type} (mask : list bool) : select mask (@nil A) = [].
Proof. now destruct mask. Qed.

Lemma fold_process_names original_rows len : forall a (df : table) steps,
  exists df' new mask,
    fold_left (fun st i => process_column original_rows i st) (seq a len) (df, steps)
    = (df', steps ++ new) /\
    List.length mask = len /\
    map step_column new = map Some (select mask (skipn a (columns df))).
Proof.
  induction len as [| len IH]; intros a df steps; cbn [seq fold_left].
  - exists df, [], []. rewrite app_nil_r. now repeat split.
  - destruct (process_column_names original_rows a df steps)
      as (df1 & new1 & Heq1 & Hnew1).
    pose proof (process_column_columns original_rows a (df, steps)) as Hcols.
    rewrite Heq1 in Hcols |- *. cbn [fst] in Hcols.
    destruct (IH (S a) df1 (steps ++ new1)) as (df2 & new2 & mask & -> & Hlen & Hmap).
    rewrite Hcols in Hmap.
    destruct Hnew1 as [-> | (step & name & -> & Hname & Hstep)].
    + exists df2, new2, (false :: mask). rewrite app_nil_r.
      split; [reflexivity |]. split; [cbn; lia |].
      rewrite Hmap. destruct (skipn a (columns df)) as [| x rest] eqn:Hskip.
      * assert (Hnil : skipn (S a) (columns df) = []).
        { apply skipn_all2. assert (List.length (skipn a (columns df)) = 0)
            by now rewrite Hskip. rewrite length_skipn in H. lia. }
        now rewrite Hnil, !select_nil.
      * replace (skipn (S a) (columns df)) with rest; [reflexivity |].
        change (S a) with (1 + a). rewrite <- skipn_skipn, Hskip. reflexivity.
    + exists df2, (step :: new2), (true :: mask). rewrite <- app_assoc.
      split; [reflexivity |]. split; [cbn; lia |].
      apply nth_error_split in Hname. destruct Hname as (l1 & l2 & Hsplit & Hl1).
      assert (Hskip : skipn a (columns df) = name :: l2).
      { rewrite Hsplit, <- Hl1. rewrite skipn_app, skipn_all, Nat.sub_diag. reflexivity. }
      assert (Hskip' : skipn (S a) (columns df) = l2).
      { change (S a) with (1 + a). rewrite <- skipn_skipn, Hskip. reflexivity. }
      rewrite Hskip. cbn [select map]. rewrite Hstep, Hmap, Hskip'. reflexivity.
Qed.

(** X7.  Cleaning keeps the schema: the cleaned table has the columns of
    the loaded one, with the same names in the same order, and each keeps
    its dtype, with one exception: an object column of booleans whose nulls
    get filled comes out as a bool column, which [is_numeric_dtype] counts
    as numeric (or as an object column of strings when it held nothing but
    nulls and is filled with "Unknown").  A numeric column stays numeric and
    a column of strings stays a column of strings. *)
Theorem clean_keeps_schema (df : table) :
  columns (fst (clean df)) = columns df /\
  shape1 (fst (clean df)) = shape1 df /\
  dtypes_kept df (fst (clean df)) /\
  Forall2 (fun nc nc' =>
             (is_numeric_dtype (snd nc) = true -> is_numeric_dtype (snd nc') = true) /\
             (forall cells, snd nc = ObjCol cells -> exists cells', snd nc' = ObjCol cells'))
          df (fst (clean df)).
Proof.
  assert (Hkept : dtypes_kept df (fst (clean df))).
  { unfold clean. cbn zeta.
    eapply dtypes_kept_trans; [| apply fold_process_dtypes].
    unfold remove_duplicates, drop_duplicates.
    destruct (0 <? count_true (duplicated df))%nat; cbn [fst];
      [apply dtypes_kept_select_rows | apply dtypes_kept_refl]. }
  split; [apply clean_columns |].
  split.
  { unfold shape1. rewrite <- (length_map fst (fst (clean df))), <- (length_map fst df).
    fold (columns (fst (clean df))). fold (columns df). now rewrite clean_columns. }
  split; [exact Hkept |].
  unfold dtypes_kept in Hkept.
  induction Hkept as [| nc nc' df1 df2 Hnc _ IH]; constructor; [| exact IH].
  destruct Hnc; cbn; split; try discriminate; try reflexivity;
    intros cells [= <-]; eauto.
Qed.

Lemma clean_downcasts_flags :
  clean Scenarios.flags
  = ([("id", IntCol [1; 2; 3]%Z);
      ("active", BoolCol [true; false; false])],
     [FilledMode 0 "active" "False"]).
Proof. vm_compute. reflexivity. Qed.

(** X8.  Every row is accounted for: the rows of the cleaned table and the
    rows the logged steps report as removed (duplicates and rows dropped for
    a missing value) add up to the rows of the loaded table, and the cleaned
    table is again a table, all of its columns of one length. *)
Theorem clean_accounts_for_rows (df : table) :
  well_formed df ->
  well_formed (fst (clean df)) /\
  shape0 (fst (clean df)) + total_removed (snd (clean df)) = shape0 df.
Proof.
  intros Hwf. destruct (clean_rows df Hwf) as (new & _ & Hwf' & Hrows & _).
  now split.
Qed.

(** X9.  Cleaning never empties a table: a loaded table with a row keeps at
    least one.  Duplicates leave their first occurrence, and rows are dropped
    for a column only when fewer than one in ten of its cells is missing. *)
Theorem clean_keeps_a_row (df : table) :
  well_formed df -> 0 < shape0 df -> 0 < shape0 (fst (clean df)).
Proof.
  intros Hwf Hrows. destruct (clean_rows df Hwf) as (new & _ & _ & _ & Hpos & _).
  now apply Hpos.
Qed.

(** X10.  The step log is empty (the summary then reads "No automatic
    cleaning steps were necessary") exactly when the loaded table has no
    duplicate row and no missing value, and then the table is saved as it
    was loaded. *)
Theorem no_step_iff_nothing_to_clean (df : table) :
  well_formed df ->
  (snd (clean df) = [] <->
   count_true (duplicated df) = 0 /\ Forall (fun nc => null_count (snd nc) = 0) df) /\
  (snd (clean df) = [] -> fst (clean df) = df).
Proof.
  intros Hwf. destruct (clean_rows df Hwf) as (new & _ & _ & _ & _ & Hnil).
  split; [split |].
  - intros H. now destruct (Hnil H) as (_ & Hdup & Hnull).
  - intros [Hdup Hnull]. now rewrite (clean_nothing_to_do df Hdup Hnull).
  - intros H. now destruct (Hnil H).
Qed.

(** X11.  The step log follows the columns: after the entry for duplicates,
    if there is one, comes at most one step for each column, in the order of
    the columns, and each names its column. *)
Theorem steps_follow_columns (df : table) :
  exists steps mask,
    snd (clean df) = snd (remove_duplicates df) ++ steps /\
    List.length mask = shape1 df /\
    map step_column steps = map Some (select mask (columns df)) /\
    (snd (remove_duplicates df) = [] \/
     exists duplicate_count,
       0 < duplicate_count /\
       snd (remove_duplicates df) = [RemovedDuplicates duplicate_count]).
Proof.
  unfold clean. cbn zeta.
  pose proof (remove_duplicates_columns df) as Hcols.
  pose proof (remove_duplicates_shape1 df) as Hlen.
  assert (Hfirst : snd (remove_duplicates df) = [] \/
                   exists duplicate_count,
                     0 < duplicate_count /\
                     snd (remove_duplicates df) = [RemovedDuplicates duplicate_count]).
  { unfold remove_duplicates.
    destruct (Nat.ltb_spec 0 (count_true (duplicated df))) as [Hdup | Hnone];
      [right | now left].
    exists (count_true (duplicated df)). now split. }
  destruct (remove_duplicates df) as [df0 steps0]. cbn [fst snd] in *.
  destruct (fold_process_names (shape0 df) (shape1 df0) 0 df0 steps0)
    as (df' & new & mask & -> & Hmask & Hmap).
  exists new, mask. cbn [snd skipn] in *. rewrite Hcols in Hmap.
  split; [reflexivity |]. split; [congruence |]. split; [exact Hmap | exact Hfirst].
Qed.

Lemma quarter_null_well_formed : well_formed Scenarios.quarter_null.
Proof. repeat constructor. Qed.

Lemma clean_accounts_witness :
  well_formed Scenarios.duplicated_nulls /\
  well_formed (fst (clean Scenarios.duplicated_nulls)) /\
  shape0 (fst (clean Scenarios.duplicated_nulls))
  + total_removed (snd (clean Scenarios.duplicated_nulls))
  = shape0 Scenarios.duplicated_nulls.
Proof.
  assert (Hwf : well_formed Scenarios.duplicated_nulls) by (repeat constructor).
  split; [exact Hwf |].
  exact (clean_accounts_for_rows Scenarios.duplicated_nulls Hwf).
Defined.

Lemma clean_keeps_a_row_witness :
  well_formed Scenarios.lone_age /\ 0 < shape0 Scenarios.lone_age /\
  0 < shape0 (fst (clean Scenarios.lone_age)).
Proof.
  assert (Hwf : well_formed Scenarios.lone_age) by (repeat constructor).
  assert (Hrows : 0 < shape0 Scenarios.lone_age) by (cbn; lia).
  split; [exact Hwf |]. split; [exact Hrows |].
  exact (clean_keeps_a_row Scenarios.lone_age Hwf Hrows).
Defined.

Lemma cleaned_quarter_null_well_formed :
  well_formed (fst (clean Scenarios.quarter_null)).
Proof. vm_compute. repeat constructor. Qed.

Lemma no_step_witness :
  well_formed (fst (clean Scenarios.quarter_null)) /\
  snd (clean (fst (clean Scenarios.quarter_null))) = [] /\
  fst (clean (fst (clean Scenarios.quarter_null))) = fst (clean Scenarios.quarter_null).
Proof.
  destruct (no_step_iff_nothing_to_clean (fst (clean Scenarios.quarter_null))
              cleaned_quarter_null_well_formed) as [[_ Hback] Hsame].
  assert (Hlog : snd (clean (fst (clean Scenarios.quarter_null))) = []).
  { apply Hback. split; [reflexivity |]. vm_compute. repeat constructor. }
  split; [exact cleaned_quarter_null_well_formed |].
  split; [exact Hlog | exact (Hsame Hlog)].
Defined.

(** ** Rows are selected, nulls are filled, nothing else *)

Lemma select_compose_masks {A : Type} (m1 m2 : list bool) (xs : list A) :
  select (compose_masks m1 m2) xs = select m2 (select m1 xs).
Proof.
  revert m2 xs. induction m1 as [| b m1 IH]; intros m2 xs; cbn [compose_masks].
  - cbn [select]. now rewrite select_nil.
  - destruct b.
    + destruct m2 as [| b2 m2]; destruct xs as [| x xs]; cbn [select];
        rewrite ?select_nil; try reflexivity.
      destruct b2; now rewrite IH.
    + destruct xs as [| x xs]; cbn [select]; rewrite ?select_nil; [reflexivity | apply IH].
Qed.

Lemma select_rows_compose m1 m2 (df : table) :
  select_rows m2 (select_rows m1 df) = select_rows (compose_masks m1 m2) df.
Proof.
  unfold select_rows. rewrite map_map. apply map_ext. intros [name c]. cbn [fst snd].
  f_equal. destruct c as [cells | cells | cells | cells | cells]; cbn [select_col];
    now rewrite select_compose_masks.
Qed.

Lemma select_all {A : Type} n (xs : list A) :
  List.length xs <= n -> select (repeat true n) xs = xs.
Proof.
  revert xs. induction n as [| n IH]; intros [| x xs]; cbn; try reflexivity; try lia.
  intros H. f_equal. apply IH. lia.
Qed.

Lemma select_rows_all (df : table) :
  select_rows (repeat true (list_max (map (fun nc => col_length (snd nc)) df))) df = df.
Proof.
  unfold select_rows.
  assert (Hall : Forall (fun k => k <= list_max (map (fun nc => col_length (snd nc)) df))
                        (map (fun nc => col_length (snd nc)) df))
    by now apply list_max_le.
  rewrite Forall_map in Hall.
  generalize dependent (list_max (map (fun nc => col_length (snd nc)) df)).
  intros n Hall. induction Hall as [| [name c] df Hc _ IH]; [reflexivity |].
  cbn [map fst snd]. rewrite IH. f_equal. f_equal.
  unfold col_length in Hc. cbn [snd] in Hc.
  destruct c as [cells | cells | cells | cells | cells]; cbn [select_col isnull] in *;
    rewrite length_map in Hc; now rewrite select_all.
Qed.

Lemma filled_from_refl (a : list cell) : filled_from a a.
Proof. induction a; constructor; auto. Qed.

Lemma filled_from_trans (a b c : list cell) :
  filled_from a b -> filled_from b c -> filled_from a c.
Proof.
  intros Hab. revert c. induction Hab as [| x y a b Hxy _ IH]; intros c Hbc;
    inversion Hbc as [| ? z ? c' Hyz Hbc']; subst; constructor.
  - destruct Hxy as [-> | ->]; [exact Hyz | now right].
  - now apply IH.
Qed.

Lemma filled_from_select mask (a b : list cell) :
  filled_from a b -> filled_from (select mask a) (select mask b).
Proof.
  unfold filled_from. intros Hab. revert mask.
  induction Hab as [| x y a b Hxy _ IH]; intros [| m mask]; cbn [select];
    try (now constructor).
  destruct m; [constructor; auto | apply IH].
Qed.

Lemma filled_from_fillna v cells :
  column_filled_from (ObjCol cells) (ObjCol (fillna v cells)).
Proof.
  unfold column_filled_from, filled_from.
  induction cells as [| [x |] cells IH]; cbn; constructor; auto.
Qed.

Lemma filled_from_fillna_float v cells :
  column_filled_from (NumCol cells) (NumCol (fillna_float v cells)).
Proof.
  unfold column_filled_from, filled_from.
  induction cells as [| x cells IH]; cbn; constructor; auto.
  destruct (B64.is_nan x) eqn:Hx; [now right | left; now rewrite Hx].
Qed.

Lemma filled_from_fillna_bool v cells :
  column_filled_from (ObjBoolCol cells) (BoolCol (fillna_bool v cells)).
Proof.
  unfold column_filled_from, filled_from.
  induction cells as [| [x |] cells IH]; cbn; constructor; auto.
Qed.

Lemma filled_from_unknown cells :
  mode_bool cells = None ->
  column_filled_from (ObjBoolCol cells) (ObjCol (map (fun _ => Some Unknown) cells)).
Proof.
  unfold mode_bool. cbn zeta.
  destruct (dropna_values cells) as [| v vs] eqn:Hvs; [intros _ | discriminate].
  apply dropna_values_all_none in Hvs.
  unfold column_filled_from, filled_from.
  induction Hvs as [| o cells Ho _ IH]; cbn; constructor; [| exact IH].
  subst o. now right.
Qed.

Lemma column_filled_from_refl c : column_filled_from c c.
Proof. apply filled_from_refl. Qed.

Lemma column_filled_from_trans a b c :
  column_filled_from a b -> column_filled_from b c -> column_filled_from a c.
Proof. apply filled_from_trans. Qed.

Lemma table_filled_from_refl df : table_filled_from df df.
Proof.
  induction df as [| nc df IH]; constructor; [| exact IH].
  split; [reflexivity | apply column_filled_from_refl].
Qed.

Lemma table_filled_from_trans a b c :
  table_filled_from a b -> table_filled_from b c -> table_filled_from a c.
Proof.
  intros Hab. revert c. induction Hab as [| x y a b [Hn Hxy] _ IH]; intros c Hbc;
    inversion Hbc as [| ? z ? c' [Hn' Hyz] Hbc']; subst; constructor.
  - split; [congruence | eapply column_filled_from_trans; eauto].
  - now apply IH.
Qed.

Lemma table_filled_from_select_rows mask a b :
  table_filled_from a b -> table_filled_from (select_rows mask a) (select_rows mask b).
Proof.
  induction 1 as [| [n1 c1] [n2 c2] a b [Hn Hc] _ IH]; cbn; constructor; [| exact IH].
  cbn [fst snd] in *. split; [exact Hn |].
  unfold column_filled_from. rewrite !col_cells_select_col.
  now apply filled_from_select.
Qed.

Lemma table_filled_from_set_column i new (df : table) name c :
  nth_error df i = Some (name, c) ->
  column_filled_from c new ->
  table_filled_from df (set_column i new df).
Proof.
  revert i. induction df as [| [name' c'] df IH]; intros [| i]; cbn; try discriminate.
  - intros [= -> ->] Hnew. constructor; [now split | apply table_filled_from_refl].
  - intros Hnth Hnew. constructor; [| now apply IH].
    split; [reflexivity | apply column_filled_from_refl].
Qed.

Lemma process_column_selects_and_fills original_rows i st :
  exists mask,
    table_filled_from (select_rows mask (fst st))
                      (fst (process_column original_rows i st)).
Proof.
  destruct st as [df steps]. cbn [fst].
  destruct (nth_error df i) as [[name c] |] eqn:Hnth.
  - destruct (process_column_action original_rows i df steps name c Hnth)
      as (df' & new & -> & Hact). cbn [fst].
    destruct Hact as [Hnone | Hpos Hlow | cells Hc Hhigh | cells Hc Hhigh
                     | cells mode_value Hc Hhigh Hmode | cells Hc Hhigh Hmode].
    + eexists. rewrite select_rows_all. apply table_filled_from_refl.
    + exists (map negb (isnull c)). apply table_filled_from_refl.
    + eexists. rewrite select_rows_all.
      apply (table_filled_from_set_column i _ df name c Hnth). subst c.
      apply filled_from_fillna_float.
    + eexists. rewrite select_rows_all.
      apply (table_filled_from_set_column i _ df name c Hnth). subst c.
      apply filled_from_fillna.
    + eexists. rewrite select_rows_all.
      apply (table_filled_from_set_column i _ df name c Hnth). subst c.
      apply filled_from_fillna_bool.
    + eexists. rewrite select_rows_all.
      apply (table_filled_from_set_column i _ df name c Hnth). subst c.
      now apply filled_from_unknown.
  - rewrite (process_column_out_of_range original_rows i (df, steps)) by exact Hnth.
    eexists. cbn [fst]. rewrite select_rows_all. apply table_filled_from_refl.
Qed.

Lemma fold_process_selects_and_fills original_rows idx (df0 : table) : forall st,
  (exists mask, table_filled_from (select_rows mask df0) (fst st)) ->
  exists mask,
    table_filled_from (select_rows mask df0)
      (fst (fold_left (fun st i => process_column original_rows i st) idx st)).
Proof.
  induction idx as [| i idx IH]; intros st Hst; cbn [fold_left]; [exact Hst |].
  apply IH. destruct Hst as [m1 H1].
  destruct (process_column_selects_and_fills original_rows i st) as [m2 H2].
  exists (compose_masks m1 m2). rewrite <- select_rows_compose.
  eapply table_filled_from_trans; [| exact H2].
  now apply table_filled_from_select_rows.
Qed.

(** X25.  Cleaning only selects rows and fills nulls.  The cleaned table is
    the loaded table restricted to some of its rows, the same rows in every
    column, with some of the nulls replaced: no value that was present is
    changed and no row is reordered or mixed with another. *)
Theorem clean_selects_rows_and_fills_nulls (df : table) :
  exists mask, table_filled_from (select_rows mask df) (fst (clean df)).
Proof.
  unfold clean. cbn zeta. apply fold_process_selects_and_fills.
  unfold remove_duplicates, drop_duplicates.
  destruct (0 <? count_true (duplicated df))%nat; cbn [fst].
  - eexists. apply table_filled_from_refl.
  - eexists. rewrite select_rows_all. apply table_filled_from_refl.
Qed.

(** ** What each column gets *)

Lemma isnull_col_cells c : isnull c = map cell_is_null (col_cells c).
Proof.
  destruct c as [cells | cells | cells | cells | cells]; cbn [isnull col_cells];
    rewrite map_map; apply map_ext; intros x; try reflexivity.
  - now destruct (B64.is_nan x).
  - now destruct x.
  - now destruct x.
Qed.

Lemma select_not_filter {A : Type} (p : A -> bool) (xs : list A) :
  select (map negb (map p xs)) xs = filter (fun x => negb (p x)) xs.
Proof.
  induction xs as [| x xs IH]; cbn; [reflexivity |].
  destruct (p x); cbn; now rewrite IH.
Qed.

Lemma median_is_median cells : is_median (median cells) cells.
Proof.
  exists (sort_values (notna cells)).
  split; [apply sort_values_perm |].
  split; [apply sort_values_sorted, notna_values |].
  unfold median. cbn zeta.
  destruct (sort_values (notna cells)) as [| v vs]; [reflexivity |].
  cbn [List.length]. destruct (Nat.odd (S (List.length vs))); reflexivity.
Qed.

Lemma in_dropna_values {A : Type} (v : A) (cells : list (option A)) :
  In v (dropna_values cells) <-> In (Some v) cells.
Proof.
  induction cells as [| [x |] cells IH]; cbn.
  - tauto.
  - rewrite IH. split; intros [H | H]; auto; left; congruence.
  - rewrite IH. split; [auto | intros [H | H]; [discriminate | exact H]].
Qed.

Lemma ltb_trans a b c :
  String.ltb a b = true -> String.ltb b c = true -> String.ltb a c = true.
Proof.
  unfold String.ltb. intros Hab Hbc.
  destruct (String.compare a b) eqn:H1; try discriminate.
  destruct (String.compare b c) eqn:H2; try discriminate.
  apply OrderedTypeEx.String_as_OT.cmp_lt in H1, H2.
  pose proof (OrderedTypeEx.String_as_OT.lt_trans _ _ _ H1 H2) as H3.
  apply OrderedTypeEx.String_as_OT.cmp_lt in H3.
  unfold OrderedTypeEx.String_as_OT.cmp in H3. now rewrite H3.
Qed.

Lemma ltb_total a b : String.ltb a b = false -> a = b \/ String.ltb b a = true.
Proof.
  unfold String.ltb. rewrite (String.compare_antisym b a).
  destruct (String.compare a b) eqn:H; cbn; try discriminate; intros _.
  - left. now apply String.compare_eq_iff.
  - now right.
Qed.

(** Among the values that tie, the scan keeps the smallest. *)
Lemma mode_fold_smallest (vs all : list string) (b r : string) :
  fold_left (mode_step all) vs (Some b) = Some r ->
  forall u, In u (b :: vs) -> count_of u all = count_of r all ->
            u = r \/ String.ltb r u = true.
Proof.
  revert b. induction vs as [| x vs IH]; intros b; cbn [fold_left].
  - intros [= ->] u [-> | []] _. now left.
  - unfold mode_step at 2. intros H u Hu Hcount.
    destruct ((count_of b all <? count_of x all)%nat
              || ((count_of b all =? count_of x all)%nat && String.ltb x b)) eqn:Hrep.
    + destruct (mode_fold_most_frequent vs all x r H) as (Hx & _ & _).
      destruct Hu as [<- | Hu]; [| now apply (IH x H)].
      apply orb_true_iff in Hrep. destruct Hrep as [Hlt | Heq].
      * apply Nat.ltb_lt in Hlt. lia.
      * apply andb_true_iff in Heq. destruct Heq as [Heq Hxb].
        apply Nat.eqb_eq in Heq.
        destruct (IH x H x (or_introl eq_refl)) as [-> | Hrx]; [lia | |].
        -- now right.
        -- right. now apply (ltb_trans r x b).
    + destruct (mode_fold_most_frequent vs all b r H) as (Hb & _ & _).
      apply orb_false_iff in Hrep. destruct Hrep as [Hlt Heq].
      apply Nat.ltb_ge in Hlt.
      destruct Hu as [<- | [<- | Hu]].
      * now apply (IH b H); [left |].
      * assert (Hbx : count_of b all = count_of x all) by lia.
        apply Nat.eqb_eq in Hbx. rewrite Hbx in Heq. cbn [andb] in Heq.
        apply Nat.eqb_eq in Hbx.
        destruct (IH b H b (or_introl eq_refl)) as [Hbr | Hrb]; [lia | |].
        -- subst r. destruct (ltb_total x b Heq) as [-> | Hlt']; [now left | now right].
        -- destruct (ltb_total x b Heq) as [-> | Hlt']; [now right |].
           right. now apply (ltb_trans r b x).
      * apply (IH b H); [now right | exact Hcount].
Qed.

Lemma mode_smallest_of_tied cells v u :
  mode cells = Some v ->
  In (Some u) cells ->
  count_of u (dropna_values cells) = count_of v (dropna_values cells) ->
  u = v \/ String.ltb v u = true.
Proof.
  unfold mode. intros H Hu. apply in_dropna_values in Hu. revert H Hu.
  destruct (dropna_values cells) as [| x vs]; [discriminate |].
  cbn [fold_left mode_step]. intros H Hu.
  now apply (mode_fold_smallest vs (x :: vs) x v H).
Qed.

Lemma count_bool_true vs : count_bool true vs = count_true vs.
Proof.
  unfold count_bool, count_true. induction vs as [| [|] vs IH]; cbn; auto.
Qed.

Lemma count_bool_false vs : count_bool false vs = List.length vs - count_true vs.
Proof.
  assert (H : count_bool false vs + count_true vs = List.length vs).
  { unfold count_bool, count_true. induction vs as [| [|] vs IH]; cbn; lia. }
  lia.
Qed.

Lemma count_bool_in b vs : 0 < count_bool b vs -> In b vs.
Proof.
  unfold count_bool. induction vs as [| x vs IH]; cbn; [lia |].
  destruct (Bool.eqb b x) eqn:Hbx; cbn.
  - intros _. left. symmetry. now apply eqb_prop.
  - intros H. right. now apply IH.
Qed.

Lemma mode_bool_majority cells b :
  mode_bool cells = Some b ->
  In (Some b) cells /\
  count_bool (negb b) (dropna_values cells) <= count_bool b (dropna_values cells) /\
  (count_bool (negb b) (dropna_values cells) = count_bool b (dropna_values cells) ->
   b = false).
Proof.
  unfold mode_bool. cbn zeta. intros H.
  assert (Hb : b = (List.length (dropna_values cells) - count_true (dropna_values cells)
                    <? count_true (dropna_values cells))%nat /\
               0 < List.length (dropna_values cells)).
  { destruct (dropna_values cells) as [| v vs]; [discriminate |].
    split; [congruence | cbn [List.length]; lia]. }
  destruct Hb as [-> Hlen]. clear H.
  pose proof (count_true_le (dropna_values cells)) as Hle.
  pose proof (count_bool_true (dropna_values cells)) as Ht.
  pose proof (count_bool_false (dropna_values cells)) as Hf.
  destruct (Nat.ltb_spec (List.length (dropna_values cells)
                          - count_true (dropna_values cells))
                         (count_true (dropna_values cells))) as [Hlt | Hge];
    cbn [negb]; rewrite Ht, Hf.
  - split; [| split; [lia | lia]].
    apply in_dropna_values, count_bool_in. lia.
  - split; [| split; [lia | reflexivity]].
    apply in_dropna_values, count_bool_in. lia.
Qed.

Lemma mode_bool_none cells :
  mode_bool cells = None -> Forall (fun o => o = None) cells.
Proof.
  unfold mode_bool. cbn zeta.
  destruct (dropna_values cells) as [| v vs] eqn:Hvs; [| discriminate].
  intros _. now apply dropna_values_all_none.
Qed.

(** X28.  What each column gets, on the table as it stands when the column
    is reached.  Without a null the column is passed over.  With nulls in
    fewer than one cell in ten, the rows that have a null in the column are
    dropped from every column and the column is left with its values, in
    order.  From one in ten on, the other columns stay as they are and each
    null of the column is replaced by one value: the median for a float
    column (the middle value in ascending order, or the binary64 mean of the
    two middle ones), which replaces nothing when it is NaN; for an object
    column its most frequent value, the smallest of those that tie, and
    "Unknown" when it has no value. *)
Theorem column_policy (df0 : table) i name c :
  nth_error (fst (state_before df0 i)) i = Some (name, c) ->
  let df := fst (state_before df0 i) in
  let df' := fst (state_before df0 (S i)) in
  (null_count c = 0 -> state_before df0 (S i) = state_before df0 i) /\
  ((0 < isnull_mean c)%Q -> (isnull_mean c < 1 # 10)%Q ->
   df' = select_rows (map negb (isnull c)) df /\
   exists c',
     nth_error df' i = Some (name, c') /\
     col_cells c' = filter (fun x => negb (cell_is_null x)) (col_cells c)) /\
  ((1 # 10 <= isnull_mean c)%Q ->
   (forall j, j <> i -> nth_error df' j = nth_error df j) /\
   exists c' v,
     nth_error df' i = Some (name, c') /\
     col_cells c' = replace_nulls v (col_cells c) /\
     fill_value c v).
Proof.
  intros Hnth df df'. subst df df'. rewrite state_before_S.
  destruct (state_before df0 i) as [df steps] eqn:Hst. cbn [fst] in *.
  destruct (process_column_action (shape0 df0) i df steps name c Hnth)
    as [df' [new [Heq Hact]]].
  rewrite Heq. cbn [fst].
  destruct Hact as [Hnone | Hpos Hlow | cells -> Hhigh | cells -> Hhigh
                   | cells mode_value -> Hhigh Hmode | cells -> Hhigh Hmode].
  - apply isnull_mean_zero in Hnone.
    split; [intros _; now rewrite app_nil_r |].
    split; [intros H; lra | intros H; lra].
  - split; [intros H; apply isnull_mean_zero in H; lra |].
    split; [| intros H; lra]. intros _ _.
    split; [reflexivity |].
    exists (select_col (map negb (isnull c)) c). split.
    + unfold dropna. rewrite nth_error_select_rows, Hnth. reflexivity.
    + rewrite col_cells_select_col, isnull_col_cells. apply select_not_filter.
  - split; [intros H; apply isnull_mean_zero in H; lra |].
    split; [intros _ H; lra |]. intros _.
    split; [intros j Hj; apply nth_error_set_column_neq; congruence |].
    exists (NumCol (fillna_float (median cells) cells)),
           (if B64.is_nan (median cells) then Null else Num (median cells)).
    split; [now apply (nth_error_set_column_eq i _ df name (NumCol cells)) |].
    split; [| constructor; apply median_is_median].
    unfold replace_nulls, fillna_float. cbn [col_cells]. rewrite !map_map.
    apply map_ext. intros x. destruct (B64.is_nan x) eqn:Hx; cbn [cell_is_null].
    + reflexivity.
    + now rewrite Hx.
  - split; [intros H; apply isnull_mean_zero in H; lra |].
    split; [intros _ H; lra |]. intros _.
    split; [intros j Hj; apply nth_error_set_column_neq; congruence |].
    exists (ObjCol (fillna (match mode cells with Some v => v | None => Unknown end)
                           cells)),
           (Str (match mode cells with Some v => v | None => Unknown end)).
    split; [now apply (nth_error_set_column_eq i _ df name (ObjCol cells)) |].
    split.
    + unfold replace_nulls, fillna. cbn [col_cells]. rewrite !map_map.
      apply map_ext. now intros [x |].
    + destruct (mode cells) as [v |] eqn:Hmode.
      * destruct (mode_most_frequent cells v Hmode) as [Hin Hmost].
        apply fill_mode; [now apply in_dropna_values | exact Hmost |].
        intros u Hu Hcount. now apply (mode_smallest_of_tied cells v u).
      * apply fill_unknown. now apply dropna_values_all_none, mode_none.
  - split; [intros H; apply isnull_mean_zero in H; lra |].
    split; [intros _ H; lra |]. intros _.
    split; [intros j Hj; apply nth_error_set_column_neq; congruence |].
    exists (BoolCol (fillna_bool mode_value cells)), (Bln mode_value).
    split; [now apply (nth_error_set_column_eq i _ df name (ObjBoolCol cells)) |].
    split.
    + unfold replace_nulls, fillna_bool. cbn [col_cells]. rewrite !map_map.
      apply map_ext. now intros [x |].
    + destruct (mode_bool_majority cells mode_value Hmode) as (Hin & Hmost & Htie).
      now apply fill_mode_bool.
  - split; [intros H; apply isnull_mean_zero in H; lra |].
    split; [intros _ H; lra |]. intros _.
    split; [intros j Hj; apply nth_error_set_column_neq; congruence |].
    exists (ObjCol (map (fun _ => Some Unknown) cells)), (Str Unknown).
    split; [now apply (nth_error_set_column_eq i _ df name (ObjBoolCol cells)) |].
    pose proof (mode_bool_none cells Hmode) as Hall.
    split; [| now apply fill_unknown_bool].
    unfold replace_nulls. cbn [col_cells]. rewrite !map_map.
    apply map_ext_in. intros o Ho.
    rewrite Forall_forall in Hall. now rewrite (Hall o Ho).
Qed.

(** X28 at the float column of a four-row table, a quarter of it null: the
    null becomes 2, the median of 1, 4 and 2. *)
Lemma column_policy_witness :
  nth_error (fst (state_before Scenarios.quarter_null 0)) 0
  = Some ("age", NumCol [B64.of_Z 1; S754_nan; B64.of_Z 4; B64.of_Z 2]) /\
  (1 # 10 <= isnull_mean (NumCol [B64.of_Z 1; S754_nan; B64.of_Z 4; B64.of_Z 2]))%Q /\
  (forall j, j <> 0 ->
             nth_error (fst (state_before Scenarios.quarter_null 1)) j
             = nth_error (fst (state_before Scenarios.quarter_null 0)) j) /\
  exists c' v,
    nth_error (fst (state_before Scenarios.quarter_null 1)) 0 = Some ("age", c') /\
    col_cells c'
    = replace_nulls v (col_cells (NumCol [B64.of_Z 1; S754_nan; B64.of_Z 4; B64.of_Z 2])) /\
    fill_value (NumCol [B64.of_Z 1; S754_nan; B64.of_Z 4; B64.of_Z 2]) v.
Proof.
  assert (H1 : nth_error (fst (state_before Scenarios.quarter_null 0)) 0
               = Some ("age", NumCol [B64.of_Z 1; S754_nan; B64.of_Z 4; B64.of_Z 2]))
    by reflexivity.
  assert (H2 : (1 # 10 <= isnull_mean
                            (NumCol [B64.of_Z 1; S754_nan; B64.of_Z 4; B64.of_Z 2]))%Q)
    by (vm_compute; discriminate).
  split; [exact H1 |]. split; [exact H2 |].
  exact (proj2 (proj2 (column_policy Scenarios.quarter_null 0 _ _ H1)) H2).
Defined.

(** X29.  On a tie the mode taken is the smallest of the tied values in
    string order, wherever they stand in the column: [Series.mode()] returns
    its values sorted and the pass takes the first of them. *)
Theorem mode_tie_takes_smallest cells v u :
  mode cells = Some v ->
  In (Some u) cells ->
  count_of u (dropna_values cells) = count_of v (dropna_values cells) ->
  u = v \/ String.ltb v u = true.
Proof. apply mode_smallest_of_tied. Qed.

(** X29 on a column where "b" comes before "a" and both occur once: the
    nulls get "a". *)
Lemma mode_tie_witness :
  mode [Some "b"; None; Some "a"] = Some "a" /\
  In (Some "b") [Some "b"; None; Some "a"] /\
  count_of "b" (dropna_values [Some "b"; None; Some "a"])
  = count_of "a" (dropna_values [Some "b"; None; Some "a"]) /\
  ("b" = "a" \/ String.ltb "a" "b" = true) /\
  clean Scenarios.tied_modes
  = ([("c", ObjCol [Some "b"; Some "a"; Some "a"]); ("d", ObjCol [Some "x"; Some "y"; Some "z"])],
     [FilledMode 0 "c" "a"]).
Proof.
  assert (H1 : mode [Some "b"; None; Some "a"] = Some "a") by reflexivity.
  assert (H2 : In (Some "b") [Some "b"; None; Some "a"]) by (now left).
  assert (H3 : count_of "b" (dropna_values [Some "b"; None; Some "a"])
               = count_of "a" (dropna_values [Some "b"; None; Some "a"])) by reflexivity.
  split; [exact H1 |]. split; [exact H2 |]. split; [exact H3 |].
  split; [exact (mode_tie_takes_smallest _ _ _ H1 H2 H3) |].
  vm_compute. reflexivity.
Defined.

(** ** Where nulls are left *)

Lemma done_with_app steps new nc : done_with steps nc -> done_with (steps ++ new) nc.
Proof.
  intros [H | (cells & estimate & Hc & Hin)]; [now left | right].
  exists cells, estimate. split; [exact Hc |]. apply in_or_app. now left.
Qed.

Lemma null_count_select_col mask c :
  null_count c = 0 -> null_count (select_col mask c) = 0.
Proof.
  unfold null_count. rewrite isnull_select_col. intros H.
  pose proof (count_true_select_le mask (isnull c)). lia.
Qed.

Lemma done_with_select_col steps mask name c :
  done_with steps (name, c) -> done_with steps (name, select_col mask c).
Proof.
  intros [H | (cells & estimate & Hc & Hin)]; cbn [fst snd] in *.
  - left. now apply null_count_select_col.
  - right. subst c. now exists (select mask cells), estimate.
Qed.

Lemma is_nan_eq m : B64.is_nan m = true -> m = S754_nan.
Proof. now destruct m. Qed.

Lemma process_column_done original_rows k (df : table) steps :
  (forall j nc, j < k -> nth_error df j = Some nc -> done_with steps nc) ->
  forall j nc,
    j < S k ->
    nth_error (fst (process_column original_rows k (df, steps))) j = Some nc ->
    done_with (snd (process_column original_rows k (df, steps))) nc.
Proof.
  intros Hdone j nc Hj.
  destruct (nth_error df k) as [[name c] |] eqn:Hnth.
  - destruct (process_column_action original_rows k df steps name c Hnth)
      as (df' & new & -> & Hact). cbn [fst snd].
    destruct Hact as [Hnone | Hpos Hlow | cells Hc Hhigh | cells Hc Hhigh
                     | cells mode_value Hc Hhigh Hmode | cells Hc Hhigh Hmode].
    + rewrite app_nil_r. intros Hnc.
      destruct (Nat.eq_dec j k) as [-> | Hne].
      * rewrite Hnth in Hnc. injection Hnc as <-. now left.
      * apply (Hdone j); [lia | exact Hnc].
    + unfold dropna. rewrite nth_error_select_rows.
      destruct (nth_error df j) as [[name' c'] |] eqn:Hnthj; [| discriminate].
      cbn [option_map fst snd]. intros [= <-]. apply done_with_app.
      destruct (Nat.eq_dec j k) as [-> | Hne].
      * rewrite Hnth in Hnthj. injection Hnthj as <- <-.
        left. apply dropna_settles.
      * apply done_with_select_col. apply (Hdone j); [lia | exact Hnthj].
    + destruct (Nat.eq_dec j k) as [-> | Hne].
      * rewrite (nth_error_set_column_eq k _ df name c Hnth). intros [= <-].
        destruct (B64.is_nan (median cells)) eqn:Hm.
        -- right. cbn [fst snd]. eexists _, _. split; [reflexivity |].
           apply in_or_app. right. left. now rewrite (is_nan_eq _ Hm).
        -- left. now apply null_count_fillna_float.
      * rewrite nth_error_set_column_neq by congruence.
        intros Hnc. apply done_with_app. apply (Hdone j); [lia | exact Hnc].
    + destruct (Nat.eq_dec j k) as [-> | Hne].
      * rewrite (nth_error_set_column_eq k _ df name c Hnth). intros [= <-].
        left. apply null_count_fillna.
      * rewrite nth_error_set_column_neq by congruence.
        intros Hnc. apply done_with_app. apply (Hdone j); [lia | exact Hnc].
    + destruct (Nat.eq_dec j k) as [-> | Hne].
      * rewrite (nth_error_set_column_eq k _ df name c Hnth). intros [= <-].
        left. apply null_count_bool.
      * rewrite nth_error_set_column_neq by congruence.
        intros Hnc. apply done_with_app. apply (Hdone j); [lia | exact Hnc].
    + destruct (Nat.eq_dec j k) as [-> | Hne].
      * rewrite (nth_error_set_column_eq k _ df name c Hnth). intros [= <-].
        left. unfold null_count. cbn [snd isnull]. rewrite map_map.
        apply count_true_all_false.
      * rewrite nth_error_set_column_neq by congruence.
        intros Hnc. apply done_with_app. apply (Hdone j); [lia | exact Hnc].
  - rewrite (process_column_out_of_range original_rows k (df, steps)) by exact Hnth.
    cbn [fst snd]. intros Hnc.
    destruct (Nat.eq_dec j k) as [-> | Hne]; [congruence |].
    apply (Hdone j); [lia | exact Hnc].
Qed.

Lemma fold_process_done original_rows len : forall a st,
  (forall j nc, j < a -> nth_error (fst st) j = Some nc -> done_with (snd st) nc) ->
  forall j nc,
    j < a + len ->
    nth_error (fst (fold_left (fun st i => process_column original_rows i st)
                              (seq a len) st)) j = Some nc ->
    done_with (snd (fold_left (fun st i => process_column original_rows i st)
                              (seq a len) st)) nc.
Proof.
  induction len as [| len IH]; intros a st Hdone j nc Hj; cbn [seq fold_left].
  - apply Hdone. lia.
  - apply (IH (S a)); [| lia].
    destruct st as [df steps]. now apply process_column_done.
Qed.

(** X30.  Where nulls are left.  A column of the cleaned table that still
    holds a null is a float column, and the log has the step "Filled ...
    with median (nan)" for it: every other column that had nulls lost the
    rows with them or had them filled.  So a log without such a step means
    a cleaned table without nulls. *)
Theorem nulls_left_only_where_median_is_nan (df : table) :
  Forall (done_with (snd (clean df))) (fst (clean df)) /\
  ((forall estimate name, ~ In (FilledMedian estimate name S754_nan) (snd (clean df))) ->
   Forall (fun nc => null_count (snd nc) = 0) (fst (clean df))).
Proof.
  assert (Hall : Forall (done_with (snd (clean df))) (fst (clean df))).
  { apply Forall_forall. intros nc Hin.
    apply In_nth_error in Hin. destruct Hin as [j Hj].
    assert (Hlt : j < shape1 (fst (clean df))).
    { unfold shape1. apply nth_error_Some. congruence. }
    assert (Hshape : shape1 (fst (clean df)) = shape1 (fst (remove_duplicates df))).
    { unfold shape1. rewrite <- !(length_map fst).
      fold (columns (fst (clean df))). fold (columns (fst (remove_duplicates df))).
      now rewrite clean_columns, remove_duplicates_columns. }
    unfold clean in *. cbn zeta in *.
    apply (fold_process_done (shape0 df) (shape1 (fst (remove_duplicates df))) 0
             (remove_duplicates df)) with (j := j);
      [intros j' nc' Hj'; lia | | exact Hj].
    cbn [Nat.add]. now rewrite <- Hshape. }
  split; [exact Hall |].
  intros Hnone. eapply Forall_impl; [| exact Hall].
  intros nc [H | (cells & estimate & _ & Hin)]; [exact H |].
  exfalso. now apply (Hnone estimate (fst nc)).
Qed.

Example infinite_pair_left_with_a_null :
  done_with (snd (clean Scenarios.infinite_pair))
            ("x", NumCol [S754_infinity false; S754_infinity true; S754_nan]) /\
  null_count (NumCol [S754_infinity false; S754_infinity true; S754_nan]) = 1.
Proof.
  split; [| reflexivity]. right. eexists _, 0%Z. split; [reflexivity |].
  vm_compute. now left.
Qed.

(** ** Loading *)

Section LoadingFacts.
Variable format_mb : Z -> string.
Variable format_count : nat -> string.

Lemma try_encodings_parsed read_csv encs last_error (df : table) last :
  try_encodings read_csv encs last_error = (Some df, last) ->
  exists encoding, In encoding encs /\ read_csv encoding = Parsed df.
Proof.
  revert last_error. induction encs as [| encoding encs IH]; intros last_error;
    cbn [try_encodings]; [discriminate |].
  destruct (read_csv encoding) as [df' | e] eqn:Hread.
  - intros [= -> _]. exists encoding. split; [now left | exact Hread].
  - intros H. destruct (IH _ H) as (enc & Hin & Henc).
    exists enc. split; [now right | exact Henc].
Qed.

Lemma read_and_check_raises read_csv e :
  read_and_check format_count read_csv = inr e ->
  cls e = PlainException \/ cls e = ValueError.
Proof.
  unfold read_and_check.
  destruct (try_encodings read_csv encodings None) as [[df |] last_error].
  - destruct (empty df); [intros [= <-]; now right |].
    destruct ((MAX_ROWS <? Z.of_nat (shape0 df)) || (MAX_COLS <? Z.of_nat (shape1 df)))%Z;
      [intros [= <-]; now right | discriminate].
  - intros [= <-]. now left.
Qed.

(** X22.  How loading fails.  A missing file raises FileNotFoundError and a
    file over 100 MB a ValueError, both before anything is read; every
    other failure, whatever [read_csv] raised and also an empty or an
    oversized table, comes out as a plain Exception whose text begins
    "Error reading CSV file: ".  The two handlers for pandas' EmptyDataError
    and ParserError are never reached, so the text "Unable to parse the CSV
    file. Please check the file format." is never raised. *)
Theorem load_failures file_path file_exists size_bytes read_csv e :
  load format_mb format_count file_path file_exists size_bytes read_csv = inr e ->
  (file_exists = false /\ cls e = FileNotFoundError /\
   msg e = ("File not found: " ++ file_path)%string) \/
  (file_exists = true /\ (MAX_BYTES < size_bytes)%Z /\ cls e = ValueError /\
   msg e = ("File is too large (" ++ format_mb size_bytes
            ++ " MB). Maximum size for processing is 100 MB.")%string) \/
  (file_exists = true /\ (size_bytes <= MAX_BYTES)%Z /\ cls e = PlainException /\
   exists detail, msg e = ("Error reading CSV file: " ++ detail)%string).
Proof.
  unfold load. destruct file_exists; cbn [negb].
  - destruct (Z.ltb_spec MAX_BYTES size_bytes) as [Hbig | Hsmall].
    + intros [= <-]. right. left. now repeat split.
    + destruct (read_and_check format_count read_csv) as [df | e0] eqn:Hread;
        [discriminate |].
      intros [= <-]. right. right. split; [reflexivity |]. split; [exact Hsmall |].
      unfold handle_read_error.
      destruct (read_and_check_raises read_csv e0 Hread) as [-> | ->];
        (split; [reflexivity |]); now exists (msg e0).
  - intros [= <-]. left. now repeat split.
Qed.

(** X23.  What loading accepts, and what is saved for it.  A table that is
    loaded is the one [read_csv] parsed for one of the three encodings; it
    has between 1 and 1,000,000 rows and between 1 and 100 columns; and the
    table the pass then leaves has at least one row and the same columns. *)
Theorem load_accepts file_path file_exists size_bytes read_csv (df : table) :
  load format_mb format_count file_path file_exists size_bytes read_csv = inl df ->
  well_formed df ->
  (exists encoding, In encoding encodings /\ read_csv encoding = Parsed df) /\
  (1 <= Z.of_nat (shape0 df) <= MAX_ROWS)%Z /\
  (1 <= Z.of_nat (shape1 df) <= MAX_COLS)%Z /\
  0 < shape0 (fst (clean df)) /\
  columns (fst (clean df)) = columns df.
Proof.
  unfold load. destruct file_exists; cbn [negb]; [| discriminate].
  destruct (MAX_BYTES <? size_bytes)%Z; [discriminate |].
  destruct (read_and_check format_count read_csv) as [df' | e] eqn:Hread;
    [| discriminate].
  intros [= ->] Hwf. unfold read_and_check in Hread.
  destruct (try_encodings read_csv encodings None) as [[df' |] last_error] eqn:Htry;
    [| discriminate].
  destruct (empty df') eqn:Hempty; [discriminate |].
  destruct ((MAX_ROWS <? Z.of_nat (shape0 df')) || (MAX_COLS <? Z.of_nat (shape1 df')))%Z
    eqn:Hlarge; [discriminate |].
  injection Hread as ->.
  unfold empty in Hempty. apply orb_false_elim in Hempty. destruct Hempty as [Hr Hc].
  apply Nat.eqb_neq in Hr, Hc.
  apply orb_false_elim in Hlarge. destruct Hlarge as [Hrows Hcols].
  apply Z.ltb_ge in Hrows, Hcols.
  split; [now apply (try_encodings_parsed read_csv encodings None df last_error) |].
  split; [lia |]. split; [lia |].
  destruct (clean_rows df Hwf) as (new & _ & _ & _ & Hpos & _).
  split; [apply Hpos; lia |].
  unfold clean. cbn zeta.
  apply clean_columns.
Qed.

End LoadingFacts.

Lemma load_failures_witness :
  load (fun _ => "0.0") (fun _ => "4") "uploads/1_a.csv" true 12
       (fun _ => Failed {| cls := ParserError; msg := "Error tokenizing data." |})
  = inr {| cls := PlainException;
           msg := "Error reading CSV file: Failed to read CSV with any encoding: Error tokenizing data." |}
  /\
  exists detail,
    ("Error reading CSV file: Failed to read CSV with any encoding: Error tokenizing data."
     = "Error reading CSV file: " ++ detail)%string.
Proof.
  assert (H : load (fun _ => "0.0") (fun _ => "4") "uploads/1_a.csv" true 12
                (fun _ => Failed {| cls := ParserError; msg := "Error tokenizing data." |})
              = inr {| cls := PlainException;
                       msg := "Error reading CSV file: Failed to read CSV with any encoding: Error tokenizing data." |})
    by reflexivity.
  split; [exact H |].
  destruct (load_failures (fun _ => "0.0") (fun _ => "4") _ _ _ _ _ H) as [(Hf & _) | [(_ & Hbig & _) | (_ & _ & _ & Hd)]].
  - discriminate Hf.
  - exfalso. revert Hbig. unfold MAX_BYTES. lia.
  - exact Hd.
Defined.

Lemma load_accepts_witness :
  load (fun _ => "0.0") (fun _ => "4") "uploads/1_a.csv" true 12
       (fun encoding => if String.eqb encoding "latin1"
                        then Parsed Scenarios.quarter_null
                        else Failed {| cls := OtherError; msg := "invalid start byte" |})
  = inl Scenarios.quarter_null /\
  well_formed Scenarios.quarter_null /\
  0 < shape0 (fst (clean Scenarios.quarter_null)).
Proof.
  assert (H : load (fun _ => "0.0") (fun _ => "4") "uploads/1_a.csv" true 12
                (fun encoding => if String.eqb encoding "latin1"
                                 then Parsed Scenarios.quarter_null
                                 else Failed {| cls := OtherError;
                                                msg := "invalid start byte" |})
              = inl Scenarios.quarter_null) by reflexivity.
  split; [exact H |]. split; [exact quarter_null_well_formed |].
  exact (proj1 (proj2 (proj2 (proj2
           (load_accepts (fun _ => "0.0") (fun _ => "4") _ _ _ _ _ H
              quarter_null_well_formed))))).
Defined.

End CleanerFacts.

(** * Properties of the chat history store *)
Module DbFacts.
Import Db.

Lemma insert_desc_newest r sorted :
  Forall (fun x => earlier x r) sorted -> insert_desc r sorted = r :: sorted.
Proof.
  intros H. destruct H as [| x sorted Hx _]; cbn; [reflexivity |].
  unfold earlier in Hx.
  destruct (Z.leb_spec (timestamp r) (timestamp x)); [lia | reflexivity].
Qed.

Lemma StronglySorted_snoc (p : list message) r :
  StronglySorted earlier (p ++ [r]) ->
  StronglySorted earlier p /\ Forall (fun x => earlier x r) p.
Proof.
  induction p as [| x p IH]; cbn; intros H.
  - split; constructor.
  - inversion H as [| ? ? Hsorted Hall]; subst.
    destruct (IH Hsorted) as [Hp Hr].
    apply Forall_app in Hall. destruct Hall as [Hxp Hxr].
    split.
    + now constructor.
    + constructor; [now inversion Hxr | assumption].
Qed.

(** With strictly increasing timestamps the ORDER BY is the reversal. *)
Lemma order_by_timestamp_desc_increasing rs :
  StronglySorted earlier rs -> order_by_timestamp_desc rs = rev rs.
Proof.
  unfold order_by_timestamp_desc.
  induction rs as [| r p IH] using rev_ind; intros Hsorted; [reflexivity |].
  apply StronglySorted_snoc in Hsorted. destruct Hsorted as [Hp Hr].
  rewrite fold_left_app. cbn [fold_left]. rewrite (IH Hp).
  rewrite rev_app_distr. cbn [rev app].
  apply insert_desc_newest. now apply Forall_rev.
Qed.

(** X16.  When the timestamps of a user's turns are pairwise distinct, the
    turns fetched are the last [limit] of them in the order they were
    appended. *)
Lemma get_chat_history_distinct_seconds tbl uid limit :
  let own := filter (fun m => (user_id m =? uid)%Z) tbl in
  StronglySorted earlier own ->
  (0 <= limit)%Z ->
  get_chat_history tbl uid limit
  = map to_turn (skipn (List.length own - Z.to_nat limit) own).
Proof.
  intros own Hsorted Hlimit. unfold get_chat_history, sql_limit.
  fold own. rewrite (order_by_timestamp_desc_increasing own Hsorted).
  destruct (Z.ltb_spec limit 0); [lia |].
  rewrite firstn_rev, <- map_rev, rev_involutive. reflexivity.
Qed.

Lemma recent_turns_witness :
  StronglySorted earlier (filter (fun m => (user_id m =? 7)%Z) Scenarios.two_users) /\
  (0 <= 2)%Z /\
  map turn_content (get_chat_history Scenarios.two_users 7 2)
  = ["how are you"; "fine, thanks"].
Proof.
  assert (H1 : StronglySorted earlier
                 (filter (fun m => (user_id m =? 7)%Z) Scenarios.two_users))
    by (repeat constructor).
  assert (H2 : (0 <= 2)%Z) by lia.
  split; [exact H1 |]. split; [exact H2 |].
  rewrite (get_chat_history_distinct_seconds Scenarios.two_users 7 2 H1 H2).
  reflexivity.
Defined.

(** C9, at the failing input.  A user turn "hi" and the reply "hello" stored
    within the same second come back as "hello", "hi": the rows of one
    second leave the query in rowid order and [history.reverse()] turns them
    round; with a limit of 1 the turn fetched is "hi", not the most recent
    one. *)
Theorem C9_same_second_turns_are_reversed :
  map content Scenarios.same_second = ["hi"; "hello"] /\
  map turn_content (get_chat_history Scenarios.same_second 7 MAX_HISTORY_MESSAGES)
  = ["hello"; "hi"] /\
  map turn_content (get_chat_history Scenarios.same_second 7 1) = ["hi"].
Proof. repeat split. Qed.

(** ** What a fetch returns *)

Lemma insert_desc_perm r sorted : Permutation (insert_desc r sorted) (r :: sorted).
Proof.
  induction sorted as [| x sorted IH]; cbn [insert_desc]; [reflexivity |].
  destruct (timestamp r <=? timestamp x)%Z; [| reflexivity].
  rewrite IH. apply perm_swap.
Qed.

Lemma fold_insert_desc_perm rs : forall acc,
  Permutation (fold_left (fun sorted r => insert_desc r sorted) rs acc) (acc ++ rs).
Proof.
  induction rs as [| r rs IH]; intros acc; cbn [fold_left].
  - now rewrite app_nil_r.
  - rewrite IH, insert_desc_perm. apply Permutation_middle.
Qed.

Lemma order_by_timestamp_desc_perm rs : Permutation (order_by_timestamp_desc rs) rs.
Proof. apply (fold_insert_desc_perm rs []). Qed.

Lemma insert_desc_descending r sorted :
  StronglySorted (fun a b => (timestamp b <= timestamp a)%Z) sorted ->
  StronglySorted (fun a b => (timestamp b <= timestamp a)%Z) (insert_desc r sorted).
Proof.
  induction 1 as [| x sorted Hsorted IH Hx]; cbn [insert_desc].
  - repeat constructor.
  - destruct (Z.leb_spec (timestamp r) (timestamp x)) as [Hle | Hgt].
    + constructor; [exact IH |].
      eapply Permutation_Forall; [symmetry; apply insert_desc_perm |].
      now constructor.
    + constructor; [now constructor |].
      constructor; [lia |].
      eapply Forall_impl; [| exact Hx]. cbn. intros m Hm. lia.
Qed.

Lemma order_by_timestamp_desc_descending rs :
  StronglySorted (fun a b => (timestamp b <= timestamp a)%Z) (order_by_timestamp_desc rs).
Proof.
  unfold order_by_timestamp_desc.
  assert (H : forall acc,
             StronglySorted (fun a b => (timestamp b <= timestamp a)%Z) acc ->
             StronglySorted (fun a b => (timestamp b <= timestamp a)%Z)
               (fold_left (fun sorted r => insert_desc r sorted) rs acc)).
  { induction rs as [| r rs IH]; intros acc Hacc; cbn [fold_left]; [exact Hacc |].
    apply IH. now apply insert_desc_descending. }
  apply H. constructor.
Qed.

Lemma In_firstn {A : Type} n (l : list A) x : In x (firstn n l) -> In x l.
Proof.
  revert l. induction n as [| n IH]; intros [| y l]; cbn; try tauto.
  intros [-> | H]; [now left | right; now apply IH].
Qed.

Lemma StronglySorted_firstn {A : Type} (R : A -> A -> Prop) n (l : list A) :
  StronglySorted R l -> StronglySorted R (firstn n l).
Proof.
  intros H. revert n. induction H as [| x l Hl IH Hx]; intros [| n]; cbn;
    try constructor; auto.
  rewrite Forall_forall in *. intros y Hy. apply Hx. eapply In_firstn; eauto.
Qed.

Lemma StronglySorted_rev {A : Type} (R : A -> A -> Prop) (l : list A) :
  StronglySorted R l -> StronglySorted (fun a b => R b a) (rev l).
Proof.
  induction 1 as [| x l Hl IH Hx]; cbn [rev]; [constructor |].
  assert (Hsnoc : forall p, StronglySorted (fun a b => R b a) p ->
                            Forall (fun y => R x y) p ->
                            StronglySorted (fun a b => R b a) (p ++ [x])).
  { induction 1 as [| y p Hp IHp Hy]; intros Hall; cbn [app].
    - repeat constructor.
    - inversion Hall as [| ? ? Hxy Hrest]; subst.
      constructor; [now apply IHp |].
      apply Forall_app. split; [exact Hy | now repeat constructor]. }
  apply Hsnoc; [exact IH | now apply Forall_rev].
Qed.

Lemma StronglySorted_map {A B : Type} (R : B -> B -> Prop) (f : A -> B) (l : list A) :
  StronglySorted (fun a b => R (f a) (f b)) l -> StronglySorted R (map f l).
Proof.
  induction 1 as [| x l Hl IH Hx]; cbn [map]; constructor; [exact IH |].
  now rewrite Forall_map.
Qed.

Lemma sql_limit_incl {A : Type} limit (rs : list A) x :
  In x (sql_limit limit rs) -> In x rs.
Proof.
  unfold sql_limit. destruct (limit <? 0)%Z; [auto |]. apply In_firstn.
Qed.

Lemma length_sql_limit {A : Type} limit (rs : list A) :
  List.length (sql_limit limit rs) <= List.length rs /\
  ((0 <= limit)%Z -> (Z.of_nat (List.length (sql_limit limit rs)) <= limit)%Z).
Proof.
  unfold sql_limit. destruct (Z.ltb_spec limit 0) as [Hneg | Hpos].
  - split; [lia | lia].
  - rewrite length_firstn. split; lia.
Qed.

Lemma own_app uid (a b : chat_history) : own uid (a ++ b) = own uid a ++ own uid b.
Proof. apply filter_app. Qed.

Lemma own_clear uid (tbl : chat_history) : own uid (clear_chat_history uid tbl) = [].
Proof.
  unfold own, clear_chat_history. induction tbl as [| m tbl IH]; [reflexivity |].
  cbn [filter]. destruct (user_id m =? uid)%Z eqn:E; cbn [negb filter]; [exact IH |].
  now rewrite E.
Qed.

Lemma own_clear_other uid other (tbl : chat_history) :
  other <> uid -> own uid (clear_chat_history other tbl) = own uid tbl.
Proof.
  intros Hne. unfold own, clear_chat_history.
  induction tbl as [| m tbl IH]; [reflexivity |].
  cbn [filter]. destruct (Z.eqb_spec (user_id m) other) as [Ho | Ho]; cbn [negb].
  - destruct (Z.eqb_spec (user_id m) uid) as [Hu | Hu]; [congruence | exact IH].
  - cbn [filter]. destruct (user_id m =? uid)%Z; [f_equal |]; exact IH.
Qed.

Lemma get_chat_history_own tbl uid limit :
  get_chat_history tbl uid limit
  = rev (map to_turn (sql_limit limit (order_by_timestamp_desc (own uid tbl)))).
Proof. reflexivity. Qed.

Lemma own_add_message_other uid other now r c (tbl : chat_history) :
  other <> uid -> own uid (add_message now other r c tbl) = own uid tbl.
Proof.
  intros Hne. unfold add_message. rewrite own_app. unfold own at 2.
  cbn [filter user_id].
  destruct (Z.eqb_spec other uid) as [Heq | _]; [contradiction |].
  apply app_nil_r.
Qed.

Lemma get_chat_history_same_own tbl tbl' uid limit :
  own uid tbl = own uid tbl' ->
  get_chat_history tbl uid limit = get_chat_history tbl' uid limit.
Proof. intros H. rewrite !get_chat_history_own. now rewrite H. Qed.

(** X12.  A fetch returns at most [limit] turns, all of them stored for the
    user asked for, in non-decreasing order of their timestamps. *)
Theorem history_is_bounded_and_chronological tbl uid limit :
  ((0 <= limit)%Z ->
   (Z.of_nat (List.length (get_chat_history tbl uid limit)) <= limit)%Z) /\
  List.length (get_chat_history tbl uid limit) <= List.length (own uid tbl) /\
  (forall t, In t (get_chat_history tbl uid limit) ->
             exists m, In m tbl /\ user_id m = uid /\ t = to_turn m) /\
  StronglySorted (fun a b => (turn_timestamp a <= turn_timestamp b)%Z)
                 (get_chat_history tbl uid limit).
Proof.
  rewrite get_chat_history_own.
  pose proof (length_sql_limit limit (order_by_timestamp_desc (own uid tbl)))
    as [Hlen Hlim].
  rewrite length_rev, length_map.
  split; [exact Hlim |].
  split.
  { rewrite Hlen. now rewrite (Permutation_length (order_by_timestamp_desc_perm _)). }
  split.
  - intros t Ht. apply in_rev, in_map_iff in Ht. destruct Ht as (m & <- & Hm).
    apply sql_limit_incl in Hm.
    apply (Permutation_in _ (order_by_timestamp_desc_perm _)) in Hm.
    apply filter_In in Hm. destruct Hm as [Hin Huid].
    exists m. split; [exact Hin |]. split; [lia | reflexivity].
  - apply (StronglySorted_rev (fun a b => (turn_timestamp b <= turn_timestamp a)%Z)).
    apply StronglySorted_map. cbn [to_turn turn_timestamp].
    unfold sql_limit. destruct (limit <? 0)%Z.
    + apply order_by_timestamp_desc_descending.
    + apply StronglySorted_firstn, order_by_timestamp_desc_descending.
Qed.

(** X13.  What one user stores does not show in another user's history. *)
Theorem other_users_messages_stay_out tbl uid other now r c limit :
  other <> uid ->
  get_chat_history (add_message now other r c tbl) uid limit
  = get_chat_history tbl uid limit.
Proof.
  intros Hne. apply get_chat_history_same_own. now apply own_add_message_other.
Qed.

Lemma other_users_witness :
  (8 <> 7)%Z /\
  get_chat_history (add_message 104 8 "user" "anyone?" Scenarios.two_users) 7 20
  = get_chat_history Scenarios.two_users 7 20.
Proof.
  assert (H : (8 <> 7)%Z) by lia.
  split; [exact H |].
  exact (other_users_messages_stay_out Scenarios.two_users 7 8 104 "user" "anyone?" 20 H).
Defined.

(** X14.  Clearing is per user: the history of the user cleared is empty
    afterwards, and so is the context built from it; the history of every
    other user is what it was. *)
Theorem clear_is_per_user tbl uid limit :
  get_chat_history (clear_chat_history uid tbl) uid limit = [] /\
  get_formatted_chat_context (clear_chat_history uid tbl) uid limit = EmptyString /\
  forall other, other <> uid ->
    get_chat_history (clear_chat_history uid tbl) other limit
    = get_chat_history tbl other limit.
Proof.
  assert (H : get_chat_history (clear_chat_history uid tbl) uid limit = []).
  { rewrite get_chat_history_own, own_clear. unfold sql_limit.
    destruct (limit <? 0)%Z; [reflexivity | now rewrite firstn_nil]. }
  split; [exact H |]. split.
  - unfold get_formatted_chat_context. now rewrite H.
  - intros other Hne. rewrite !get_chat_history_own.
    rewrite own_clear_other; [reflexivity | congruence].
Qed.

Lemma get_chat_history_newest tbl uid now r c limit :
  Forall (fun m => (timestamp m < now)%Z) (own uid tbl) ->
  (1 <= limit)%Z ->
  get_chat_history (add_message now uid r c tbl) uid limit
  = get_chat_history tbl uid (limit - 1)
    ++ [{| turn_role := r; turn_content := c; turn_timestamp := now |}].
Proof.
  intros Hnew Hlimit. rewrite !get_chat_history_own. unfold add_message.
  rewrite own_app. unfold own at 2. cbn [filter user_id]. rewrite Z.eqb_refl.
  unfold order_by_timestamp_desc. rewrite fold_left_app. cbn [fold_left].
  fold (order_by_timestamp_desc (own uid tbl)).
  rewrite insert_desc_newest.
  2:{ eapply Permutation_Forall;
        [symmetry; apply order_by_timestamp_desc_perm | exact Hnew]. }
  unfold sql_limit.
  destruct (Z.ltb_spec limit 0) as [Hneg | _]; [lia |].
  destruct (Z.ltb_spec (limit - 1) 0) as [Hneg | _]; [lia |].
  replace (Z.to_nat limit) with (S (Z.to_nat (limit - 1))) by lia.
  cbn [firstn map rev]. reflexivity.
Qed.

(** X15.  A message stored strictly later than every message of the user is
    the last turn of the next fetch, after the turns a fetch of one fewer
    would have returned before. *)
Theorem newest_turn_comes_last tbl uid now r c limit :
  Forall (fun m => (timestamp m < now)%Z) (own uid tbl) ->
  (1 <= limit)%Z ->
  get_chat_history (add_message now uid r c tbl) uid limit
  = get_chat_history tbl uid (limit - 1)
    ++ [{| turn_role := r; turn_content := c; turn_timestamp := now |}].
Proof. apply get_chat_history_newest. Qed.

Lemma newest_turn_witness :
  Forall (fun m => (timestamp m < 104)%Z) (own 7 Scenarios.two_users) /\
  (1 <= 2)%Z /\
  map turn_content
    (get_chat_history (add_message 104 7 "user" "and you?" Scenarios.two_users) 7 2)
  = ["fine, thanks"; "and you?"].
Proof.
  assert (H1 : Forall (fun m => (timestamp m < 104)%Z) (own 7 Scenarios.two_users))
    by (repeat constructor).
  assert (H2 : (1 <= 2)%Z) by lia.
  split; [exact H1 |]. split; [exact H2 |].
  rewrite (newest_turn_comes_last Scenarios.two_users 7 104 "user" "and you?" 2 H1 H2).
  reflexivity.
Defined.

End DbFacts.

(** * Properties of the database handler *)
Module StoreFacts.
Import Store.

Lemma find_map_same {A : Type} (p : A -> bool) (f : A -> A) (l : list A) :
  (forall x, p (f x) = p x) -> find p (map f l) = option_map f (find p l).
Proof.
  intros Hp. induction l as [| x l IH]; cbn; [reflexivity |].
  rewrite Hp. destruct (p x); [reflexivity | exact IH].
Qed.

Lemma find_snoc {A : Type} (p : A -> bool) (l : list A) x :
  find p (l ++ [x])
  = match find p l with Some y => Some y | None => if p x then Some x else None end.
Proof.
  induction l as [| y l IH]; cbn; [reflexivity |].
  destruct (p y); [reflexivity | exact IH].
Qed.

Lemma chat_history_add_or_update_user now uid mode prefs db :
  chat_history (add_or_update_user now uid mode prefs db) = chat_history db.
Proof. unfold add_or_update_user. now destruct (get_user db uid). Qed.

(** After [add_or_update_user] the user has a row; its mode is the one
    given, else the one it had, else 0. *)
Lemma stored_mode_add_or_update_user now uid mode prefs db :
  stored_mode (add_or_update_user now uid mode prefs db) uid
  = Some (match mode with
          | Some m => m
          | None => match stored_mode db uid with Some m0 => m0 | None => 0%Z end
          end).
Proof.
  unfold stored_mode, add_or_update_user.
  destruct (get_user db uid) as [u0 |] eqn:Hget; unfold get_user in *; cbn [users].
  - rewrite find_map_same.
    + rewrite Hget. cbn [option_map]. apply find_some in Hget.
      destruct Hget as [_ Hid]. rewrite Hid. now destruct mode.
    + intros u. f_equal. now destruct (user_id u =? uid)%Z.
  - rewrite find_snoc, Hget. cbn [user_id]. rewrite Z.eqb_refl. reflexivity.
Qed.

Lemma get_user_add_or_update_user_other now uid other mode prefs db :
  other <> uid ->
  get_user (add_or_update_user now uid mode prefs db) other = get_user db other.
Proof.
  intros Hne. unfold add_or_update_user.
  destruct (get_user db uid) as [u0 |] eqn:Hget; unfold get_user in *; cbn [users].
  - rewrite find_map_same.
    + destruct (find (fun u => (user_id u =? other)%Z) (users db)) as [u |] eqn:Hother;
        [| reflexivity].
      apply find_some in Hother. destruct Hother as [_ Hid].
      cbn [option_map]. destruct (Z.eqb_spec (user_id u) uid) as [Hu | _]; [| reflexivity].
      apply Z.eqb_eq in Hid. congruence.
    + intros u. f_equal. now destruct (user_id u =? uid)%Z.
  - rewrite find_snoc. cbn [user_id].
    destruct (Z.eqb_spec uid other) as [Heq | _]; [congruence |].
    now destruct (find (fun u => (user_id u =? other)%Z) (users db)).
Qed.

(** Storing a message changes no mode that is stored. *)
Lemma stored_mode_add_message now uid r c db u m :
  stored_mode db u = Some m -> stored_mode (add_message now uid r c db) u = Some m.
Proof.
  intros Hm. unfold add_message, stored_mode at 1, get_user. cbn [users].
  fold (get_user (add_or_update_user now uid None None db) u).
  fold (stored_mode (add_or_update_user now uid None None db) u).
  destruct (Z.eq_dec u uid) as [-> | Hne].
  - rewrite stored_mode_add_or_update_user, Hm. reflexivity.
  - unfold stored_mode. rewrite get_user_add_or_update_user_other by exact Hne.
    exact Hm.
Qed.

Lemma chat_history_add_message now uid r c db :
  chat_history (add_message now uid r c db)
  = Db.add_message now uid r c (chat_history db).
Proof.
  unfold add_message. cbn [chat_history].
  now rewrite chat_history_add_or_update_user.
Qed.

End StoreFacts.

(** * Properties of the conversation context manager *)
Module ChatFacts.
Import Chat.

Lemma split_lines_nonempty s : split_lines s <> [].
Proof.
  destruct s as [| c s]; cbn [split_lines]; [discriminate |].
  destruct (Ascii.eqb c LF); [discriminate |].
  destruct (split_lines s); discriminate.
Qed.

(** Joining the parts of a split gives the string back. *)
Lemma join_split_lines s : join_lines (split_lines s) = s.
Proof.
  induction s as [| c s IH]; [reflexivity |].
  cbn [split_lines].
  destruct (Ascii.eqb_spec c LF) as [-> | Hc].
  - pose proof (split_lines_nonempty s) as Hne.
    destruct (split_lines s) as [| part parts]; [congruence |].
    cbn [join_lines] in *. now rewrite IH.
  - destruct (split_lines s) as [| part parts] eqn:Hs.
    + now pose proof (split_lines_nonempty s).
    + cbn [join_lines] in *. destruct parts as [| part' parts].
      * now rewrite IH.
      * cbn. rewrite <- IH. reflexivity.
Qed.

Lemma append_assoc (a b c : string) : ((a ++ b) ++ c = a ++ b ++ c)%string.
Proof. induction a as [| x a IH]; cbn; [reflexivity | now rewrite IH]. Qed.

Lemma slice_from_short {A : Type} (remaining : Z) (xs : list A) :
  (Z.of_nat (List.length xs) <= remaining)%Z ->
  slice_from (- remaining) xs = xs.
Proof.
  intros H. unfold slice_from.
  destruct (Z.ltb_spec (- remaining) 0).
  - replace (Z.to_nat (Z.of_nat (List.length xs) + - remaining)) with 0 by lia.
    reflexivity.
  - replace (Z.to_nat (- remaining)) with 0 by lia. reflexivity.
Qed.

(** A context over the budget that has no more parts than the budget has
    characters left after the first line loses nothing: the whole context,
    first line included, follows the marker. *)
Lemma trim_context_drops_nothing context :
  (MAX_CONTEXT_LENGTH < Z.of_nat (String.length context))%Z ->
  (Z.of_nat (List.length (split_lines context))
   <= MAX_CONTEXT_LENGTH
      - Z.of_nat (String.length (nth 0 (split_lines context) EmptyString ++ newline)))%Z ->
  trim_context context
  = (nth 0 (split_lines context) EmptyString ++ newline
     ++ omitted ++ newline ++ context)%string.
Proof.
  intros Hlong Hparts. unfold trim_context.
  destruct (Z.ltb_spec MAX_CONTEXT_LENGTH (Z.of_nat (String.length context))); [| lia].
  rewrite slice_from_short by assumption.
  rewrite join_split_lines.
  apply append_assoc.
Qed.

(** C2, at the failing input.  The context of twenty stored turns of 1000
    characters has 20213 characters, over the budget of 15000, in 22 parts.
    What [_prepare_context] returns is the header, the marker and then the
    whole context again, header included: 20267 characters, although no part
    is longer than 1011; the budget is exceeded by far more than one line. *)
Theorem C2_long_history_is_not_trimmed :
  let context :=
    Db.get_formatted_chat_context Scenarios.long_history 7 Db.MAX_HISTORY_MESSAGES in
  let prepared := _prepare_context Scenarios.long_history 7 in
  Z.of_nat (String.length context) = 20213%Z /\
  List.length (split_lines context) = 22 /\
  String.eqb prepared (Db.header ++ newline ++ omitted ++ newline ++ context) = true /\
  Z.of_nat (String.length prepared) = 20267%Z /\
  forallb (fun part => (String.length part <=? 1011)%nat) (split_lines prepared) = true /\
  (MAX_CONTEXT_LENGTH + 1011 < Z.of_nat (String.length prepared))%Z.
Proof.
  cbv zeta.
  split; [vm_compute; reflexivity |].
  split; [vm_compute; reflexivity |].
  split; [vm_compute; reflexivity |].
  split; [vm_compute; reflexivity |].
  split; [vm_compute; reflexivity |].
  vm_compute; reflexivity.
Qed.

(** X27.  Trimming can lengthen.  A context over the budget that has no
    more lines than the budget has characters left after the first line is
    not cut at all: what comes back is the first line, the marker and then
    the whole context again, 32 characters and one first line longer than
    what went in. *)
Theorem over_budget_context_grows context :
  (MAX_CONTEXT_LENGTH < Z.of_nat (String.length context))%Z ->
  (Z.of_nat (List.length (split_lines context))
   <= MAX_CONTEXT_LENGTH
      - Z.of_nat (String.length (nth 0 (split_lines context) EmptyString ++ newline)))%Z ->
  trim_context context
  = (nth 0 (split_lines context) EmptyString ++ newline
     ++ omitted ++ newline ++ context)%string /\
  String.length (trim_context context)
  = String.length context + String.length (nth 0 (split_lines context) EmptyString) + 32.
Proof.
  intros Hlong Hparts.
  rewrite (trim_context_drops_nothing context Hlong Hparts).
  split; [reflexivity |].
  rewrite !OllamaFacts.length_append.
  change (String.length newline) with 1. change (String.length omitted) with 30. lia.
Qed.

Lemma over_budget_witness :
  (MAX_CONTEXT_LENGTH
   < Z.of_nat (String.length
       (Db.get_formatted_chat_context Scenarios.long_history 7 Db.MAX_HISTORY_MESSAGES)))%Z /\
  String.length
    (trim_context
       (Db.get_formatted_chat_context Scenarios.long_history 7 Db.MAX_HISTORY_MESSAGES))
  = String.length
      (Db.get_formatted_chat_context Scenarios.long_history 7 Db.MAX_HISTORY_MESSAGES)
    + String.length
        (nth 0 (split_lines
                  (Db.get_formatted_chat_context Scenarios.long_history 7
                     Db.MAX_HISTORY_MESSAGES)) EmptyString)
    + 32.
Proof.
  assert (H1 : (MAX_CONTEXT_LENGTH
                < Z.of_nat (String.length
                    (Db.get_formatted_chat_context Scenarios.long_history 7
                       Db.MAX_HISTORY_MESSAGES)))%Z) by (vm_compute; reflexivity).
  assert (H2 : (Z.of_nat (List.length
                  (split_lines
                     (Db.get_formatted_chat_context Scenarios.long_history 7
                        Db.MAX_HISTORY_MESSAGES)))
                <= MAX_CONTEXT_LENGTH
                   - Z.of_nat (String.length
                       (nth 0 (split_lines
                                 (Db.get_formatted_chat_context Scenarios.long_history 7
                                    Db.MAX_HISTORY_MESSAGES)) EmptyString
                        ++ newline)))%Z) by (vm_compute; discriminate).
  split; [exact H1 |].
  exact (proj2 (over_budget_context_grows _ H1 H2)).
Defined.

(** ** Modes *)

(** X17.  The mode switches take effect and are per user: after
    [switch_to_chat_mode] the user is in chat mode, after
    [switch_to_data_mode] in data mode; asking does not change the database
    then; no other user's row and no stored message is touched.  A user
    without a row is in data mode. *)
Theorem mode_switch_round_trip now now' uid db :
  is_chat_mode now' uid (snd (switch_to_chat_mode now uid db))
  = (true, snd (switch_to_chat_mode now uid db)) /\
  is_chat_mode now' uid (snd (switch_to_data_mode now uid db))
  = (false, snd (switch_to_data_mode now uid db)) /\
  (forall other, other <> uid ->
     Store.get_user (snd (switch_to_chat_mode now uid db)) other = Store.get_user db other /\
     Store.get_user (snd (switch_to_data_mode now uid db)) other = Store.get_user db other) /\
  Store.chat_history (snd (switch_to_chat_mode now uid db)) = Store.chat_history db /\
  Store.chat_history (snd (switch_to_data_mode now uid db)) = Store.chat_history db /\
  (Store.get_user db uid = None -> fst (is_chat_mode now uid db) = false).
Proof.
  unfold switch_to_chat_mode, switch_to_data_mode, Store.set_user_chat_mode. cbn [snd].
  assert (Hread : forall mode,
             is_chat_mode now' uid (Store.add_or_update_user now uid (Some mode) None db)
             = ((mode =? 1)%Z, Store.add_or_update_user now uid (Some mode) None db)).
  { intros mode. unfold is_chat_mode, Store.get_user_chat_mode.
    pose proof (StoreFacts.stored_mode_add_or_update_user now uid (Some mode) None db)
      as Hmode.
    unfold Store.stored_mode in Hmode.
    destruct (Store.get_user (Store.add_or_update_user now uid (Some mode) None db) uid)
      as [u |]; [| discriminate].
    cbn [option_map] in Hmode. injection Hmode as ->. reflexivity. }
  split; [apply (Hread 1%Z) |]. split; [apply (Hread 0%Z) |].
  split.
  { intros other Hne.
    split; now apply StoreFacts.get_user_add_or_update_user_other. }
  split; [apply StoreFacts.chat_history_add_or_update_user |].
  split; [apply StoreFacts.chat_history_add_or_update_user |].
  intros Hnone. unfold is_chat_mode, Store.get_user_chat_mode. now rewrite Hnone.
Qed.

(** ** The context handed to the model *)

Lemma fold_context_prefix (history : list Db.turn) : forall acc,
  exists rest,
    fold_left
      (fun context msg =>
         (context ++ Db.role_prefix msg ++ Db.turn_content msg ++ newline)%string)
      history acc
    = (acc ++ rest)%string.
Proof.
  induction history as [| t history IH]; intros acc; cbn [fold_left].
  - exists EmptyString. induction acc as [| c acc IHacc]; cbn; congruence.
  - destruct (IH (acc ++ Db.role_prefix t ++ Db.turn_content t ++ newline)%string)
      as [rest ->].
    eexists. apply append_assoc.
Qed.

Lemma get_chat_history_nil tbl uid :
  Db.get_chat_history tbl uid Db.MAX_HISTORY_MESSAGES = [] <-> Db.own uid tbl = [].
Proof.
  rewrite DbFacts.get_chat_history_own.
  pose proof (DbFacts.order_by_timestamp_desc_perm (Db.own uid tbl)) as Hperm.
  destruct (Db.order_by_timestamp_desc (Db.own uid tbl)) as [| m sorted].
  - apply Permutation_nil in Hperm. rewrite Hperm. now split.
  - split.
    + cbn. intros H. apply app_eq_nil in H. destruct H as [_ H]. discriminate H.
    + intros Hown. rewrite Hown in Hperm. symmetry in Hperm.
      apply Permutation_nil in Hperm. discriminate Hperm.
Qed.

Lemma trim_context_keeps_header rest :
  exists rest',
    trim_context (Db.header ++ newline ++ rest) = (Db.header ++ newline ++ rest')%string.
Proof.
  unfold trim_context.
  destruct (MAX_CONTEXT_LENGTH <? Z.of_nat (String.length (Db.header ++ newline ++ rest)))%Z;
    [| now exists rest].
  assert (Hfirst : nth 0 (split_lines (Db.header ++ newline ++ rest)) EmptyString
                   = Db.header) by reflexivity.
  rewrite Hfirst. eexists. rewrite append_assoc. reflexivity.
Qed.

(** X18.  The context prepared for a user without stored messages is empty;
    for any other user it begins with the line "Previous conversation:",
    whether it was trimmed or not. *)
Theorem prepared_context_begins_with_header tbl uid :
  (Db.own uid tbl = [] -> _prepare_context tbl uid = EmptyString) /\
  (Db.own uid tbl <> [] ->
   exists rest, _prepare_context tbl uid = (Db.header ++ newline ++ rest)%string).
Proof.
  unfold _prepare_context, Db.get_formatted_chat_context.
  pose proof (get_chat_history_nil tbl uid) as Hnil.
  destruct (Db.get_chat_history tbl uid Db.MAX_HISTORY_MESSAGES) as [| t history].
  - split; [reflexivity |]. intros Hne. exfalso. now apply Hne, Hnil.
  - split.
    + intros Hown. apply Hnil in Hown. discriminate Hown.
    + intros _.
      destruct (fold_context_prefix (t :: history) (Db.header ++ newline)) as [rest ->].
      rewrite append_assoc. apply trim_context_keeps_header.
Qed.

Lemma fold_context_snoc (history : list Db.turn) t acc :
  fold_left
    (fun context msg =>
       (context ++ Db.role_prefix msg ++ Db.turn_content msg ++ newline)%string)
    (history ++ [t]) acc
  = (fold_left
       (fun context msg =>
          (context ++ Db.role_prefix msg ++ Db.turn_content msg ++ newline)%string)
       history acc
     ++ Db.role_prefix t ++ Db.turn_content t ++ newline)%string.
Proof. now rewrite fold_left_app. Qed.

(** X26.  The message being answered reaches the model twice.
    [process_message] stores the message before it prepares the context, so
    when the clock of the store has moved on since the user's last message
    and the context is within its budget, the prompt ends with the message
    as the last line of the history and then once more as the question. *)
Theorem current_message_is_sent_twice now uid message_text db :
  Forall (fun m => (Db.timestamp m < now)%Z) (Db.own uid (Store.chat_history db)) ->
  (Z.of_nat (String.length
     (Db.get_formatted_chat_context
        (Store.chat_history (Store.add_message now uid "user" message_text db))
        uid Db.MAX_HISTORY_MESSAGES))
   <= MAX_CONTEXT_LENGTH)%Z ->
  exists before,
    _generate_prompt
      (_prepare_context
         (Store.chat_history (Store.add_message now uid "user" message_text db)) uid)
      message_text
    = (DEFAULT_SYSTEM_PROMPT ++ newline ++ newline
       ++ (Db.header ++ newline ++ before ++ "User: " ++ message_text ++ newline)
       ++ newline ++ newline ++ "User: " ++ message_text ++ newline ++ "Assistant:")%string.
Proof.
  intros Hnew Hbudget. unfold _prepare_context, trim_context.
  destruct (Z.ltb_spec MAX_CONTEXT_LENGTH
              (Z.of_nat (String.length
                 (Db.get_formatted_chat_context
                    (Store.chat_history (Store.add_message now uid "user" message_text db))
                    uid Db.MAX_HISTORY_MESSAGES)))) as [Hlong | _]; [lia |].
  clear Hbudget. rewrite StoreFacts.chat_history_add_message.
  unfold Db.get_formatted_chat_context.
  rewrite (DbFacts.get_chat_history_newest _ uid now "user" message_text
             Db.MAX_HISTORY_MESSAGES Hnew)
    by (unfold Db.MAX_HISTORY_MESSAGES; lia).
  destruct (Db.get_chat_history (Store.chat_history db) uid (Db.MAX_HISTORY_MESSAGES - 1)
            ++ [{| Db.turn_role := "user"; Db.turn_content := message_text;
                   Db.turn_timestamp := now |}]) as [| t history] eqn:Hhistory.
  { apply app_eq_nil in Hhistory. destruct Hhistory as [_ H]. discriminate H. }
  rewrite <- Hhistory, fold_context_snoc.
  destruct (fold_context_prefix
              (Db.get_chat_history (Store.chat_history db) uid
                 (Db.MAX_HISTORY_MESSAGES - 1))
              (Db.header ++ newline)) as [before ->].
  exists before. unfold _generate_prompt.
  rewrite !append_assoc. reflexivity.
Qed.

Lemma current_message_witness :
  Forall (fun m => (Db.timestamp m < 104)%Z) (Db.own 7 Scenarios.two_users) /\
  exists before,
    _generate_prompt
      (_prepare_context
         (Store.chat_history
            (Store.add_message 104 7 "user" "and you?"
               {| Store.users := []; Store.chat_history := Scenarios.two_users |})) 7)
      "and you?"
    = (DEFAULT_SYSTEM_PROMPT ++ newline ++ newline
       ++ (Db.header ++ newline ++ before ++ "User: " ++ "and you?" ++ newline)
       ++ newline ++ newline ++ "User: " ++ "and you?" ++ newline ++ "Assistant:")%string.
Proof.
  assert (H1 : Forall (fun m => (Db.timestamp m < 104)%Z) (Db.own 7 Scenarios.two_users))
    by (repeat constructor).
  assert (H2 : (Z.of_nat (String.length
                  (Db.get_formatted_chat_context
                     (Store.chat_history
                        (Store.add_message 104 7 "user" "and you?"
                           {| Store.users := []; Store.chat_history := Scenarios.two_users |}))
                     7 Db.MAX_HISTORY_MESSAGES))
                <= MAX_CONTEXT_LENGTH)%Z) by (vm_compute; discriminate).
  split; [exact H1 |].
  exact (current_message_is_sent_twice 104 7 "and you?"
           {| Store.users := []; Store.chat_history := Scenarios.two_users |} H1 H2).
Defined.

(** ** One exchange *)

Section ConversationFacts.
Context {S : Type}.
Variable is_ollama_running : S -> bool * S.
Variable query_ollama : string -> string -> Z -> S -> Ollama.result string * S.
Variable current_timestamp : S -> Z.


(** X20.  An exchange is per user and leaves the modes alone: the history
    of every other user is what it was, and every user with a row keeps the
    mode stored in it. *)
Theorem process_message_is_per_user uid message_text db s :
  let db' := snd (fst (process_message is_ollama_running query_ollama current_timestamp
                   uid message_text db s)) in
  (forall other limit, other <> uid ->
     Store.get_chat_history db' other limit = Store.get_chat_history db other limit) /\
  (forall u mode, Store.stored_mode db u = Some mode ->
                  Store.stored_mode db' u = Some mode).
Proof.
  cbv zeta. unfold Chat.process_message.
  destruct (is_ollama_running s) as [running s1].
  destruct running; cbn [negb]; [| now split].
  destruct (query_ollama _ CHAT_MODEL 2%Z s1) as [[response | e] s2]; cbn [fst snd].
  - split.
    + intros other limit Hne. unfold Store.get_chat_history.
      rewrite !StoreFacts.chat_history_add_message.
      apply DbFacts.get_chat_history_same_own.
      rewrite !DbFacts.own_add_message_other by congruence. reflexivity.
    + intros u mode Hmode.
      apply StoreFacts.stored_mode_add_message, StoreFacts.stored_mode_add_message.
      exact Hmode.
  - split.
    + intros other limit Hne. unfold Store.get_chat_history.
      rewrite StoreFacts.chat_history_add_message.
      apply DbFacts.get_chat_history_same_own.
      rewrite DbFacts.own_add_message_other by congruence. reflexivity.
    + intros u mode Hmode. now apply StoreFacts.stored_mode_add_message.
Qed.

End ConversationFacts.

End ChatFacts.

(** * Properties of the message splitter *)
Module BotFacts.
Import Bot.

Lemma firstn_add {A : Type} n m (l : list A) :
  firstn (n + m) l = firstn n l ++ firstn m (skipn n l).
Proof.
  revert l. induction n as [| n IH]; intros l; [reflexivity |].
  destruct l as [| x l]; cbn [Nat.add firstn skipn app].
  - now rewrite firstn_nil.
  - now rewrite IH.
Qed.

Lemma slice_chunk {A : Type} size k (text : list A) :
  slice (k * size) (k * size + size) text = firstn size (skipn (k * size) text).
Proof. unfold slice. f_equal. lia. Qed.

Lemma concat_chunks_prefix {A : Type} size (text : list A) m :
  List.concat (map (fun k => slice (k * size) (k * size + size) text) (seq 0 m))
  = firstn (m * size) text.
Proof.
  induction m as [| m IH]; [reflexivity |].
  rewrite seq_S, map_app, concat_app, IH. cbn [Nat.add map List.concat].
  rewrite app_nil_r, slice_chunk.
  replace (S m * size) with (m * size + size) by lia.
  now rewrite firstn_add.
Qed.

Lemma chunk_count_bounds size len :
  0 < size ->
  len <= (len + size - 1) / size * size /\
  (forall k, k < (len + size - 1) / size -> k * size < len).
Proof.
  intros Hsize.
  pose proof (Nat.div_mod_eq (len + size - 1) size) as Hdiv.
  pose proof (Nat.mod_upper_bound (len + size - 1) size) as Hmod.
  split; [nia |]. intros k Hk. nia.
Qed.

Lemma chunks_of_partition {A : Type} size (text : list A) :
  0 < size ->
  List.concat (chunks_of size text) = text /\
  Forall (fun chunk => 1 <= List.length chunk <= size) (chunks_of size text).
Proof.
  intros Hsize. unfold chunks_of, range_step. rewrite map_map.
  destruct (chunk_count_bounds size (List.length text) Hsize) as [Hcover Hstart].
  split.
  - rewrite concat_chunks_prefix. now apply firstn_all2.
  - apply Forall_forall. intros chunk Hin. apply in_map_iff in Hin.
    destruct Hin as (k & <- & Hk). apply in_seq in Hk.
    rewrite slice_chunk, length_firstn, length_skipn.
    specialize (Hstart k). lia.
Qed.

(** X21.  [send_long_message] loses and adds nothing: the chunks it sends,
    put end to end, are the text; no chunk is empty and none is longer than
    4000 characters; an empty text gives no chunk at all. *)
Theorem chunks_partition_the_text {A : Type} (text : list A) :
  List.concat (chunks text) = text /\
  Forall (fun chunk => 1 <= List.length chunk <= 4000) (chunks text) /\
  (chunks text = [] <-> text = []).
Proof.
  assert (Hsize : 0 < max_message_length) by (unfold max_message_length; lia).
  destruct (chunks_of_partition max_message_length text Hsize) as [Hcat Hall].
  split; [exact Hcat |]. split; [exact Hall |].
  split.
  - intros Hnil. unfold chunks in Hnil. rewrite Hnil in Hcat. now rewrite <- Hcat.
  - intros ->. reflexivity.
Qed.

End BotFacts.
